(** * cwl-svg: the workflow canvas engine ([src/graph/workflow.ts])

    A shallow embedding of the [Workflow] class: viewport transform,
    boundary auto-scroll, port-drag resolution and the auto-arrange layout.

    Conventions of the embedding.
    - A JavaScript number is an exact rational ([Q]); rounding is not
      modelled, and comparisons of computed values are stated up to [==].
      Where a JavaScript division by zero would give [Infinity] or [NaN],
      [Q] gives [0]; every statement that passes through such a division
      says so.  The auto-arrange code, which relies on [Math.max()] being
      [-Infinity], uses an extended integer type instead.
    - The object's fields, the closure variables of its event callbacks and
      the parts of the DOM the code reads back are fields of one record,
      threaded explicitly.
    - Calls into collaborators whose code is not part of [workflow.ts] (the
      data model, the listeners of the event hub) are recorded in logs. *)

From Stdlib Require Import QArith Qminmax Qabs ZArith List Ascii String Bool Lia Lqa.
From Stdlib Require Import Permutation Sorted.
Import ListNotations.
Open Scope Q_scope.

(* ================================================================= *)
(** ** Numbers *)

Definition Qlt_bool (x y : Q) : bool := negb (Qle_bool y x).

(* ================================================================= *)
(** ** SVG geometry: points, rectangles and affine matrices *)

Record Point := mkPoint { px : Q; py : Q }.

(** [DOMRect] as returned by [getBoundingClientRect]. *)
Record Rect := mkRect { left : Q; right : Q; top : Q; bottom : Q }.

Definition width (r : Rect) : Q := right r - left r.
Definition height (r : Rect) : Q := bottom r - top r.

(** [SVGMatrix]: the point [(x, y)] goes to
    [(a x + c y + e, b x + d y + f)]. *)
Record Matrix := mkMatrix { ma : Q; mb : Q; mc : Q; md : Q; me : Q; mf : Q }.

Definition identity : Matrix := mkMatrix 1 0 0 1 0 0.

(** [m.multiply(n)]: [n] is applied first. *)
Definition multiply (m n : Matrix) : Matrix :=
  mkMatrix (ma m * ma n + mc m * mb n) (mb m * ma n + md m * mb n)
           (ma m * mc n + mc m * md n) (mb m * mc n + md m * md n)
           (ma m * me n + mc m * mf n + me m)
           (mb m * me n + md m * mf n + mf m).

Definition det (m : Matrix) : Q := ma m * md m - mb m * mc m.

(** [m.inverse()] throws on a singular matrix: [None]. *)
Definition inverse (m : Matrix) : option Matrix :=
  if Qeq_bool (det m) 0 then None
  else Some (mkMatrix (md m / det m) (- mb m / det m)
                      (- mc m / det m) (ma m / det m)
                      ((mc m * mf m - md m * me m) / det m)
                      ((mb m * me m - ma m * mf m) / det m)).

(** [point.matrixTransform(m)]. *)
Definition matrixTransform (p : Point) (m : Matrix) : Point :=
  mkPoint (ma m * px p + mc m * py p + me m)
          (mb m * px p + md m * py p + mf m).

(** [new Snap.Matrix().translate(x, y)] and [m.translate(x, y)]. *)
Definition translate (m : Matrix) (x y : Q) : Matrix :=
  multiply m (mkMatrix 1 0 0 1 x y).

Definition Peq (p q : Point) : Prop := px p == px q /\ py p == py q.

(* ================================================================= *)
(** ** The state of a [Workflow] object *)

(** What the code asks of the browser's layout engine.  None of it is
    computed by [workflow.ts]; it is fixed input. *)
Record Env := mkEnv {
  svgScreenCTM : Matrix;          (* screen CTM of the root <svg> *)
  svgClientRect : Rect;           (* svgRoot.getBoundingClientRect() *)
  clientWidth : Q;                (* paper.node.clientWidth *)
  clientHeight : Q;               (* paper.node.clientHeight *)
  geometryDistance : Q -> Q -> Q -> Q -> Q;
    (* Geometry.distance(x1, y1, x2, y2) of utils/geometry *)
  groupClientRect : Matrix -> Rect
    (* workflow.getBoundingClientRect() under a given group transform *)
}.

(** [setInterval] hands out positive integer handles, so a handle is
    always truthy. *)
Definition TimerId := positive.

(** [edgeDirection: "left" | "right"]. *)
Inductive Direction := DirLeft | DirRight.

(** A [.port] element.  [wfCTM] and [distance] are the expando properties
    the port-drag code stores on the element; of [wfCTM] only the
    translation [(e, f)] is ever read. *)
Record PortEl := mkPort {
  connectionId : string;          (* data-connection-id *)
  portNode : string;              (* data-id of the enclosing .node *)
  isInputPort : bool;             (* class input-port / output-port *)
  portOffset : Point;             (* position inside its node *)
  wfCTM : Point;
  distance : Q
}.

(** A [.node] element: its identifier, the connection id of the model
    object it mirrors, and the translation of its transform. *)
Record NodeEl := mkNode {
  dataId : string;
  nodeConnectionId : string;
  nodeX : Q;
  nodeY : Q
}.

(** An [.edge] element between two port connection ids. *)
Record EdgeEl := mkEdge {
  sourceConnection : string;      (* data-source-connection *)
  destinationConnection : string  (* data-destination-connection *)
}.

(** The ghost input/output node shown during a port drag. *)
Record GhostEl := mkGhost { hidden : bool; ghostX : Q; ghostY : Q }.

(** [this.dragBoundaryInterval]. *)
Record DragBoundaryInterval := mkDBI {
  hitX : bool;                    (* x *)
  hitY : bool;                    (* y *)
  interval : option TimerId;      (* null or the handle *)
  xOffset : Q;
  yOffset : Q;
  highlightedPort : option PortEl (* undefined or the port *)
}.

Definition dragBoundaryIntervalDefault : DragBoundaryInterval :=
  mkDBI false false None 0 0 None.

(** The [ghostIO] argument of [setDragBoundaryIntervalIfNecessary]. *)
Record GhostIO := mkGhostIO {
  gNodeToMouseDistance : Q;
  gAllConnectionPorts : list PortEl;
  gHighlightedPort : option PortEl;
  gOrigin : Point;
  gCoords : Point;
  gEdgeDirection : Direction
}.

(** The element a boundary timer moves: the dragged node or the ghost. *)
Inductive DragEl := ElNode (id : string) | ElGhost.

(** The [pathInfo] argument of [setDragBoundaryIntervalIfNecessary]; the
    two maps of edge paths are not part of the model. *)
Record PathInfo := mkPathInfo { piStartX : Q; piStartY : Q }.

(** What the closure passed to [setInterval] captured. *)
Record Tick := mkTick {
  tickEl : DragEl;
  tickBoundaryX : Z;
  tickBoundaryY : Z;
  tickPathInfo : option PathInfo;
  tickGhostIO : option GhostIO
}.

(** The closures subscribed on the event hub by [workflow.ts], named by the
    event each one is registered for. *)
Inductive Handler :=
| OnCreateInput | OnCreateOutput | OnCreateStep
| OnConnectionCreate | OnArrange | OnFit.

Definition eventOf (h : Handler) : string :=
  match h with
  | OnCreateInput => "app.create.input"
  | OnCreateOutput => "app.create.output"
  | OnCreateStep => "app.create.step"
  | OnConnectionCreate => "connection.create"
  | OnArrange => "workflow.arrange"
  | OnFit => "workflow.fit"
  end%string.

(** An [eventHub.emit]: the event and, for [beforeChange], the [type] tag
    of its payload. *)
Record Emission := mkEmission { emEvent : string; emType : string }.

(** Mutating calls into the data model ([cwlts]). *)
Inductive ModelCall :=
| Connect (source destination : string)
| CreateInputFromPort (portID : string)
| CreateOutputFromPort (portID : string)
| SetPosition (connection : string) (x y : Q).

(** Variables shared by the three callbacks of the node drag. *)
Record NodeDragVars := mkNodeDrag {
  startX : Q; startY : Q; newX : Q; newY : Q
}.

(** Variables shared by the three callbacks of the port drag; the ghost
    node is kept with the DOM. *)
Record PortDragVars := mkPortDrag {
  draggedEdge : bool;             (* edge: the in-progress edge exists *)
  allConnectionPorts : list PortEl;
  pdHighlightedPort : option PortEl;
  edgeDirection : Direction;
  originNodeCoords : Point
}.

(** Variables shared by the callbacks of the canvas pan. *)
Record PanVars := mkPan { panX : Q; panY : Q }.

Record Workflow := mkWorkflow {
  env : Env;
  scale : Q;
  matrix : Matrix;                (* transform of <g class="workflow"> *)
  labels : list Matrix;           (* transforms of the ".node .label"s *)
  isDragging : bool;
  dragBoundary : Q;
  workflowBoundingClientRect : Rect;
  dragBoundaryInterval : DragBoundaryInterval;
  timers : list (TimerId * Tick); (* the intervals that are running *)
  nextTimer : TimerId;
  handlers : list Handler;        (* eventHub, in subscription order *)
  emitted : list Emission;        (* eventHub.emit log, latest first *)
  modelCalls : list ModelCall;    (* data-model log, latest first *)
  nodes : list NodeEl;
  ports : list PortEl;
  edges : list EdgeEl;
  ghostIONode : option GhostEl;
  preferredPorts : list string;   (* ports of class "preferred-port" *)
  nodeDrag : NodeDragVars;
  panDrag : PanVars;
  portDrag : PortDragVars
}.

Definition set_scale (v : Q) (w : Workflow) : Workflow :=
  mkWorkflow (env w) v (matrix w) (labels w) (isDragging w) (dragBoundary w)
    (workflowBoundingClientRect w) (dragBoundaryInterval w) (timers w)
    (nextTimer w) (handlers w) (emitted w) (modelCalls w) (nodes w)
    (ports w) (edges w) (ghostIONode w) (preferredPorts w) (nodeDrag w)
    (panDrag w) (portDrag w).

Definition set_matrix (v : Matrix) (w : Workflow) : Workflow :=
  mkWorkflow (env w) (scale w) v (labels w) (isDragging w) (dragBoundary w)
    (workflowBoundingClientRect w) (dragBoundaryInterval w) (timers w)
    (nextTimer w) (handlers w) (emitted w) (modelCalls w) (nodes w)
    (ports w) (edges w) (ghostIONode w) (preferredPorts w) (nodeDrag w)
    (panDrag w) (portDrag w).

Definition set_labels (v : list Matrix) (w : Workflow) : Workflow :=
  mkWorkflow (env w) (scale w) (matrix w) v (isDragging w) (dragBoundary w)
    (workflowBoundingClientRect w) (dragBoundaryInterval w) (timers w)
    (nextTimer w) (handlers w) (emitted w) (modelCalls w) (nodes w)
    (ports w) (edges w) (ghostIONode w) (preferredPorts w) (nodeDrag w)
    (panDrag w) (portDrag w).

Definition set_isDragging (v : bool) (w : Workflow) : Workflow :=
  mkWorkflow (env w) (scale w) (matrix w) (labels w) v (dragBoundary w)
    (workflowBoundingClientRect w) (dragBoundaryInterval w) (timers w)
    (nextTimer w) (handlers w) (emitted w) (modelCalls w) (nodes w)
    (ports w) (edges w) (ghostIONode w) (preferredPorts w) (nodeDrag w)
    (panDrag w) (portDrag w).

Definition set_dragBoundary (v : Q) (w : Workflow) : Workflow :=
  mkWorkflow (env w) (scale w) (matrix w) (labels w) (isDragging w) v
    (workflowBoundingClientRect w) (dragBoundaryInterval w) (timers w)
    (nextTimer w) (handlers w) (emitted w) (modelCalls w) (nodes w)
    (ports w) (edges w) (ghostIONode w) (preferredPorts w) (nodeDrag w)
    (panDrag w) (portDrag w).

Definition set_workflowBoundingClientRect (v : Rect) (w : Workflow) : Workflow :=
  mkWorkflow (env w) (scale w) (matrix w) (labels w) (isDragging w)
    (dragBoundary w) v (dragBoundaryInterval w) (timers w) (nextTimer w)
    (handlers w) (emitted w) (modelCalls w) (nodes w) (ports w) (edges w)
    (ghostIONode w) (preferredPorts w) (nodeDrag w) (panDrag w)
    (portDrag w).

Definition set_dragBoundaryInterval (v : DragBoundaryInterval) (w : Workflow) : Workflow :=
  mkWorkflow (env w) (scale w) (matrix w) (labels w) (isDragging w)
    (dragBoundary w) (workflowBoundingClientRect w) v (timers w)
    (nextTimer w) (handlers w) (emitted w) (modelCalls w) (nodes w)
    (ports w) (edges w) (ghostIONode w) (preferredPorts w) (nodeDrag w)
    (panDrag w) (portDrag w).

Definition set_timers (v : list (TimerId * Tick)) (w : Workflow) : Workflow :=
  mkWorkflow (env w) (scale w) (matrix w) (labels w) (isDragging w)
    (dragBoundary w) (workflowBoundingClientRect w) (dragBoundaryInterval w)
    v (nextTimer w) (handlers w) (emitted w) (modelCalls w) (nodes w)
    (ports w) (edges w) (ghostIONode w) (preferredPorts w) (nodeDrag w)
    (panDrag w) (portDrag w).

Definition set_nextTimer (v : TimerId) (w : Workflow) : Workflow :=
  mkWorkflow (env w) (scale w) (matrix w) (labels w) (isDragging w)
    (dragBoundary w) (workflowBoundingClientRect w) (dragBoundaryInterval w)
    (timers w) v (handlers w) (emitted w) (modelCalls w) (nodes w) (ports w)
    (edges w) (ghostIONode w) (preferredPorts w) (nodeDrag w) (panDrag w)
    (portDrag w).

Definition set_handlers (v : list Handler) (w : Workflow) : Workflow :=
  mkWorkflow (env w) (scale w) (matrix w) (labels w) (isDragging w)
    (dragBoundary w) (workflowBoundingClientRect w) (dragBoundaryInterval w)
    (timers w) (nextTimer w) v (emitted w) (modelCalls w) (nodes w)
    (ports w) (edges w) (ghostIONode w) (preferredPorts w) (nodeDrag w)
    (panDrag w) (portDrag w).

Definition set_emitted (v : list Emission) (w : Workflow) : Workflow :=
  mkWorkflow (env w) (scale w) (matrix w) (labels w) (isDragging w)
    (dragBoundary w) (workflowBoundingClientRect w) (dragBoundaryInterval w)
    (timers w) (nextTimer w) (handlers w) v (modelCalls w) (nodes w)
    (ports w) (edges w) (ghostIONode w) (preferredPorts w) (nodeDrag w)
    (panDrag w) (portDrag w).

Definition set_modelCalls (v : list ModelCall) (w : Workflow) : Workflow :=
  mkWorkflow (env w) (scale w) (matrix w) (labels w) (isDragging w)
    (dragBoundary w) (workflowBoundingClientRect w) (dragBoundaryInterval w)
    (timers w) (nextTimer w) (handlers w) (emitted w) v (nodes w) (ports w)
    (edges w) (ghostIONode w) (preferredPorts w) (nodeDrag w) (panDrag w)
    (portDrag w).

Definition set_nodes (v : list NodeEl) (w : Workflow) : Workflow :=
  mkWorkflow (env w) (scale w) (matrix w) (labels w) (isDragging w)
    (dragBoundary w) (workflowBoundingClientRect w) (dragBoundaryInterval w)
    (timers w) (nextTimer w) (handlers w) (emitted w) (modelCalls w) v
    (ports w) (edges w) (ghostIONode w) (preferredPorts w) (nodeDrag w)
    (panDrag w) (portDrag w).

Definition set_ports (v : list PortEl) (w : Workflow) : Workflow :=
  mkWorkflow (env w) (scale w) (matrix w) (labels w) (isDragging w)
    (dragBoundary w) (workflowBoundingClientRect w) (dragBoundaryInterval w)
    (timers w) (nextTimer w) (handlers w) (emitted w) (modelCalls w)
    (nodes w) v (edges w) (ghostIONode w) (preferredPorts w) (nodeDrag w)
    (panDrag w) (portDrag w).

Definition set_edges (v : list EdgeEl) (w : Workflow) : Workflow :=
  mkWorkflow (env w) (scale w) (matrix w) (labels w) (isDragging w)
    (dragBoundary w) (workflowBoundingClientRect w) (dragBoundaryInterval w)
    (timers w) (nextTimer w) (handlers w) (emitted w) (modelCalls w)
    (nodes w) (ports w) v (ghostIONode w) (preferredPorts w) (nodeDrag w)
    (panDrag w) (portDrag w).

Definition set_ghostIONode (v : option GhostEl) (w : Workflow) : Workflow :=
  mkWorkflow (env w) (scale w) (matrix w) (labels w) (isDragging w)
    (dragBoundary w) (workflowBoundingClientRect w) (dragBoundaryInterval w)
    (timers w) (nextTimer w) (handlers w) (emitted w) (modelCalls w)
    (nodes w) (ports w) (edges w) v (preferredPorts w) (nodeDrag w)
    (panDrag w) (portDrag w).

Definition set_preferredPorts (v : list string) (w : Workflow) : Workflow :=
  mkWorkflow (env w) (scale w) (matrix w) (labels w) (isDragging w)
    (dragBoundary w) (workflowBoundingClientRect w) (dragBoundaryInterval w)
    (timers w) (nextTimer w) (handlers w) (emitted w) (modelCalls w)
    (nodes w) (ports w) (edges w) (ghostIONode w) v (nodeDrag w) (panDrag w)
    (portDrag w).

Definition set_nodeDrag (v : NodeDragVars) (w : Workflow) : Workflow :=
  mkWorkflow (env w) (scale w) (matrix w) (labels w) (isDragging w)
    (dragBoundary w) (workflowBoundingClientRect w) (dragBoundaryInterval w)
    (timers w) (nextTimer w) (handlers w) (emitted w) (modelCalls w)
    (nodes w) (ports w) (edges w) (ghostIONode w) (preferredPorts w) v
    (panDrag w) (portDrag w).

Definition set_panDrag (v : PanVars) (w : Workflow) : Workflow :=
  mkWorkflow (env w) (scale w) (matrix w) (labels w) (isDragging w)
    (dragBoundary w) (workflowBoundingClientRect w) (dragBoundaryInterval w)
    (timers w) (nextTimer w) (handlers w) (emitted w) (modelCalls w)
    (nodes w) (ports w) (edges w) (ghostIONode w) (preferredPorts w)
    (nodeDrag w) v (portDrag w).

Definition set_portDrag (v : PortDragVars) (w : Workflow) : Workflow :=
  mkWorkflow (env w) (scale w) (matrix w) (labels w) (isDragging w)
    (dragBoundary w) (workflowBoundingClientRect w) (dragBoundaryInterval w)
    (timers w) (nextTimer w) (handlers w) (emitted w) (modelCalls w)
    (nodes w) (ports w) (edges w) (ghostIONode w) (preferredPorts w)
    (nodeDrag w) (panDrag w) v.

(* ================================================================= *)
(** ** Auto-arrange: the [workflow.arrange] handler *)

(** The depth trace computes with [Math.max], whose value on no arguments
    is [-Infinity]; its numbers are integers extended with that value. *)
Inductive Depth := NegInf | Fin (z : Z).

Definition dadd (d : Depth) (k : Z) : Depth :=
  match d with NegInf => NegInf | Fin z => Fin (z + k) end.

Definition dmax (a b : Depth) : Depth :=
  match a, b with
  | NegInf, _ => b
  | _, NegInf => a
  | Fin x, Fin y => Fin (Z.max x y)
  end.

(** [Math.max(...l)]. *)
Definition mathMax (l : list Depth) : Depth := fold_right dmax NegInf l.

Definition dlt (a b : Depth) : Prop :=
  match a, b with
  | NegInf, Fin _ => True
  | Fin x, Fin y => (x < y)%Z
  | _, NegInf => False
  end.

(** [~~z] on a key of [zones]: ToInt32 of the number the key spells. *)
Definition toInt32 (d : Depth) : Z :=
  match d with
  | NegInf => 0
  | Fin z => ((z + 2147483648) mod 4294967296 - 2147483648)%Z
  end.

(** A connection of the data model, by the ids of its two ends. *)
Record Connection := mkConnection { sourceId : string; destinationId : string }.

(** [s.split("/")]. *)
Fixpoint split (sep : Ascii.ascii) (s : string) : list string :=
  match s with
  | EmptyString => [EmptyString]
  | String c rest =>
      if Ascii.eqb c sep then EmptyString :: split sep rest
      else match split sep rest with
           | [] => [String c EmptyString]
           | seg :: segs => String c seg :: segs
           end
  end.

(** [let [, name, port] = id.split("/")]: a missing segment is
    [undefined]. *)
Definition nodeAndPort (id : string) : option string * option string :=
  let segs := split "/"%char id in (nth_error segs 1, nth_error segs 2).

(** The property key an [undefined] name turns into. *)
Definition keyOf (name : option string) : string :=
  match name with Some s => s | None => "undefined"%string end.

(** [sName === spName]. *)
Definition strictEq (a b : option string) : bool :=
  match a, b with
  | Some x, Some y => String.eqb x y
  | None, None => true
  | _, _ => false
  end.

(** [tracker]: node name to the array of its dependencies.  The arrays hold
    references to other arrays of [tracker]; every array sits under exactly
    one key, so a reference is kept as that key.  Keys are in insertion
    order, which is the order of [Object.keys] as long as node names are
    neither array indices nor members of [Object.prototype]. *)
Definition Tracker := list (string * list string).

Fixpoint getArr (t : Tracker) (k : string) : option (list string) :=
  match t with
  | [] => None
  | (k', a) :: tl => if String.eqb k' k then Some a else getArr tl k
  end.

(** [tracker[k] || (tracker[k] = [])]. *)
Definition ensure (t : Tracker) (k : string) : Tracker :=
  match getArr t k with Some _ => t | None => t ++ [(k, [])] end.

(** [tracker[k].push(v)]. *)
Fixpoint push (t : Tracker) (k v : string) : Tracker :=
  match t with
  | [] => []
  | (k', a) :: tl =>
      if String.eqb k' k then (k', a ++ [v]) :: tl else (k', a) :: push tl k v
  end.

Definition mem (k : string) (l : list string) : bool :=
  existsb (String.eqb k) l.

Definition addOnce (k : string) (l : list string) : list string :=
  if mem k l then l else l ++ [k].

(** The body of [connections.forEach]: [workflowIns] is kept as the list of
    its keys, each standing for the array it refers to. *)
Definition registerConnection (acc : Tracker * list string) (c : Connection)
  : Tracker * list string :=
  let '(tracker, workflowIns) := acc in
  let '(sName, spName) := nodeAndPort (sourceId c) in
  let '(dName, _) := nodeAndPort (destinationId c) in
  let tracker := ensure tracker (keyOf sName) in
  let tracker := push (ensure tracker (keyOf dName)) (keyOf dName) (keyOf sName) in
  (tracker,
   if strictEq sName spName then addOnce (keyOf sName) workflowIns
   else workflowIns).

(** [trace(arr, visited)]; the second component is [visited] after the
    call.  [arr.filter] runs to completion before [map] makes the first
    recursive call, so the dependencies to descend into are fixed by the
    set as it is on entry.  [None]: the recursion is deeper than [fuel]. *)
Fixpoint trace (fuel : nat) (tracker : Tracker) (arr : string)
  (visited : list string) : option (Depth * list string) :=
  match fuel with
  | O => None
  | S fuel' =>
      let visited := addOnce arr visited in
      match getArr tracker arr with
      | None | Some [] => Some (Fin 1, visited)
      | Some deps =>
          let unvisited := filter (fun e => negb (mem e visited)) deps in
          match
            (fix each (l : list string) (visited : list string)
               : option (list Depth * list string) :=
               match l with
               | [] => Some ([], visited)
               | e :: tl =>
                   match trace fuel' tracker e visited with
                   | None => None
                   | Some (d, visited) =>
                       match each tl visited with
                       | None => None
                       | Some (ds, visited) => Some (d :: ds, visited)
                       end
                   end
               end) unvisited visited
          with
          | None => None
          | Some (ds, visited) => Some (dadd (mathMax ds) 1, visited)
          end
      end
  end.

Definition ZoneMap := list (string * Depth).

Fixpoint getZone (m : ZoneMap) (k : string) : option Depth :=
  match m with
  | [] => None
  | (k', z) :: tl => if String.eqb k' k then Some z else getZone tl k
  end.

(** [m[k] = z]: in place when the key exists, appended otherwise. *)
Fixpoint setZone (m : ZoneMap) (k : string) (z : Depth) : ZoneMap :=
  match m with
  | [] => [(k, z)]
  | (k', z') :: tl =>
      if String.eqb k' k then (k', z) :: tl else (k', z') :: setZone tl k z
  end.

(** [trackerKeys.reduce(... trace(tracker[k], new Set()) - 1 ...)]. *)
Fixpoint depthZones (fuel : nat) (tracker : Tracker) (keys : list string)
  (acc : ZoneMap) : option ZoneMap :=
  match keys with
  | [] => Some acc
  | k :: tl =>
      match trace fuel tracker k [] with
      | None => None
      | Some (d, _) => depthZones fuel tracker tl (setZone acc k (dadd d (-1)))
      end
  end.

(** The second [trackerKeys.forEach]: a dependency that is a workflow input
    is moved to the zone before its dependent. *)
Definition pinInputs (tracker : Tracker) (workflowIns : list string)
  (keys : list string) (m : ZoneMap) : ZoneMap :=
  fold_left
    (fun m k =>
       fold_left
         (fun m pre =>
            match getZone m k with
            | Some z => setZone m pre (dadd z (-1))
            | None => m
            end)
         (filter (fun p => mem p workflowIns)
                 (match getArr tracker k with Some a => a | None => [] end))
         m)
    keys m.

Definition Zones := list (Depth * list string).

Definition depth_eqb (a b : Depth) : bool :=
  match a, b with
  | NegInf, NegInf => true
  | Fin x, Fin y => Z.eqb x y
  | _, _ => false
  end.

(** [(zones[zone] || (zones[zone] = [])).push(snap)]. *)
Fixpoint pushZone (zs : Zones) (z : Depth) (k : string) : Zones :=
  match zs with
  | [] => [(z, [k])]
  | (z', l) :: tl =>
      if depth_eqb z' z then (z', l ++ [k]) :: tl else (z', l) :: pushZone tl z k
  end.

(** The third [trackerKeys.forEach].  [found k] tells whether
    [Snap(`.node.${k}`)] finds an element; a node that is not found is
    reported and left out. *)
Definition collectZones (found : string -> bool) (keys : list string)
  (m : ZoneMap) : Zones :=
  fold_left
    (fun zs k =>
       if found k then
         match getZone m k with Some z => pushZone zs z k | None => zs end
       else zs)
    keys [].

(** A node and the translation its transform is set to. *)
Record Placement := mkPlacement { plNode : string; plX : Q; plY : Q }.

Fixpoint placeRow (x rowHeight : Q) (i : nat) (l : list string)
  : list Placement :=
  match l with
  | [] => []
  | k :: tl =>
      mkPlacement k x (inject_Z (Z.of_nat i + 1) * rowHeight)
      :: placeRow x rowHeight (S i) tl
  end.

(** The placement loop [for (let z in zones)]. *)
Definition place (width height : Q) (zs : Zones) : list Placement :=
  let columnCount := inject_Z (Z.of_nat (List.length zs) + 1) in
  let columnWidth := width / columnCount in
  flat_map
    (fun '(z, l) =>
       let rowCount := inject_Z (Z.of_nat (List.length l) + 1) in
       let rowHeight := height / rowCount in
       placeRow (columnWidth * inject_Z (toInt32 z + 1)) rowHeight 0 l)
    zs.

(** The zone of every node once the handler has run its first two
    passes. *)
Definition idToZoneMap (fuel : nat) (connections : list Connection)
  : option ZoneMap :=
  let '(tracker, workflowIns) :=
    fold_left registerConnection connections ([], []) in
  let trackerKeys := map fst tracker in
  match depthZones fuel tracker trackerKeys [] with
  | None => None
  | Some m => Some (pinInputs tracker workflowIns trackerKeys m)
  end.

(** The whole handler, as the list of transforms it sets. *)
Definition arrange (fuel : nat) (found : string -> bool) (width height : Q)
  (connections : list Connection) : option (list Placement) :=
  match idToZoneMap fuel connections with
  | None => None
  | Some m =>
      let '(tracker, _) :=
        fold_left registerConnection connections ([], []) in
      Some (place width height (collectZones found (map fst tracker) m))
  end.

(* ================================================================= *)
(** ** Outcomes of a callback *)

(** A call returns, throws, or never comes back (a loop that does not
    end); in the first two cases the object keeps the state it reached. *)
Inductive outcome := Done (w : Workflow) | Threw (w : Workflow) | Diverges.

Definition andThen (o : outcome) (k : Workflow -> outcome) : outcome :=
  match o with Done w => k w | Threw w => Threw w | Diverges => Diverges end.

Notation "o >>= k" := (andThen o k) (at level 50, left associativity).

(* ================================================================= *)
(** ** Viewport transform *)

(** [wf.getScreenCTM()]: the root's screen CTM after the group's own
    transform. *)
Definition screenCTM (w : Workflow) : Matrix :=
  multiply (svgScreenCTM (env w)) (matrix w).

(** [translateMouseCoords(x, y)]; [None] when [ctm.inverse()] throws. *)
Definition translateMouseCoords (x y : Q) (w : Workflow) : option Point :=
  match inverse (screenCTM w) with
  | None => None
  | Some inv => Some (matrixTransform (mkPoint x y) inv)
  end.

(** [adaptToScale(x)]. *)
Definition adaptToScale (x : Q) (w : Workflow) : Q := x * (1 / scale w).

(** Modelled from the spec: [EventHub.on] of [utils/event-hub], the
    publish/subscribe bus; a subscription is appended to the handlers of
    its event. *)
Definition on (h : Handler) (w : Workflow) : Workflow :=
  set_handlers (handlers w ++ [h]) w.

Definition setLabelScale (labelScale : Q) (m : Matrix) : Matrix :=
  mkMatrix labelScale (mb m) (mc m) labelScale (me m) (mf m).

(** [scaleWorkflow(scaleCoefficient, ev)]; [ev] is the optional anchor. *)
Definition scaleWorkflow (scaleCoefficient : Q) (ev : option Point)
  (w : Workflow) : outcome :=
  let w := set_scale scaleCoefficient w in
  let m := matrix w in
  match translateMouseCoords (match ev with Some p => px p | None => 0 end)
                             (match ev with Some p => py p | None => 0 end) w
  with
  | None => Threw w
  | Some coords =>
      let e1 := me m + ma m * px coords in
      let f1 := mf m + ma m * py coords in
      let m := mkMatrix scaleCoefficient (mb m) (mc m) scaleCoefficient
                        (e1 - scaleCoefficient * px coords)
                        (f1 - scaleCoefficient * py coords) in
      let w := set_matrix m w in
      let labelScale := 1 + (1 - scale w) / (scale w * 2) in
      let w := set_labels (map (setLabelScale labelScale) (labels w)) w in
      Done (on OnFit w)
  end.

(** The [mousewheel] listener; [ev] carries [deltaY] and the pointer. *)
Definition mousewheel (deltaY : Q) (ev : Point) (w : Workflow) : outcome :=
  if isDragging w then Done w
  else
    let scale := scale w + deltaY / 500 in
    if Qle_bool scale (15 # 100) || Qlt_bool 3 (scale * scale) then Done w
    else scaleWorkflow scale (Some ev) w.

(* ================================================================= *)
(** ** The event hub *)

(** What an emitted event carries. *)
Inductive Payload :=
| NoData
| StepData (el : NodeEl) (elPorts : list PortEl) (elLabels : list Matrix)
| ConnectionsData (connections : list Connection)
| ScaleData (factor : Q)
| ChangeData (type : string).

Definition payloadType (p : Payload) : string :=
  match p with ChangeData t => t | _ => EmptyString end.

Definition listeners (event : string) (w : Workflow) : list Handler :=
  filter (fun h => String.eqb (eventOf h) event) (handlers w).

(** Modelled from the spec: [EventHub.emit] calls the handlers subscribed
    at the time of the call, in order; one that throws ends the round. *)
Fixpoint dispatch (run : Handler -> Workflow -> outcome) (hs : list Handler)
  (w : Workflow) : outcome :=
  match hs with
  | [] => Done w
  | h :: tl => run h w >>= dispatch run tl
  end.

Definition logEmit (event : string) (data : Payload) (w : Workflow)
  : Workflow :=
  set_emitted (mkEmission event (payloadType data) :: emitted w) w.

Definition moveNode (id : string) (x y : Q) (n : NodeEl) : NodeEl :=
  if String.eqb (dataId n) id then mkNode (dataId n) (nodeConnectionId n) x y
  else n.

(** The [app.create.step] handler: the element parsed from the step's
    template is appended, then the labels are rescaled. *)
Definition onCreateStep (el : NodeEl) (elPorts : list PortEl)
  (elLabels : list Matrix) (w : Workflow) : outcome :=
  let w := set_nodes (nodes w ++ [el]) w in
  let w := set_ports (ports w ++ elPorts) w in
  let w := set_labels (labels w ++ elLabels) w in
  scaleWorkflow (scale w) None w.

(** The [workflow.arrange] handler on the rendered nodes.  A trace deeper
    than [fuel] leaves the handler without a result, and the state as it
    was. *)
Definition onArrange (fuel : nat) (connections : list Connection)
  (w : Workflow) : Workflow :=
  match arrange fuel (fun k => existsb (fun n => String.eqb (dataId n) k) (nodes w))
                (clientWidth (env w)) (clientHeight (env w)) connections with
  | None => w
  | Some pls =>
      fold_left
        (fun w p => set_nodes (map (moveNode (plNode p) (plX p) (plY p)) (nodes w)) w)
        pls w
  end.

(** Handlers that emit nothing themselves. *)
Definition runLeaf (fuel : nat) (data : Payload) (h : Handler) (w : Workflow)
  : outcome :=
  match h, data with
  | OnCreateStep, StepData el ps ls => onCreateStep el ps ls w
  | OnArrange, ConnectionsData cs => Done (onArrange fuel cs w)
  | _, _ => Done w
  end.

(** [this.command] for the events whose handlers are all leaves. *)
Definition commandLeaf (fuel : nat) (event : string) (data : Payload)
  (w : Workflow) : outcome :=
  let w := logEmit event data w in
  dispatch (runLeaf fuel data) (listeners event w) w.

(** The [workflow.fit] handler subscribed by [scaleWorkflow]. *)
Definition onFit (fuel : nat) (w : Workflow) : outcome :=
  let w := set_matrix identity w in
  let paperWidth := clientWidth (env w) in
  let paperHeight := clientHeight (env w) in
  let clientBounds := svgClientRect (env w) in
  let wfBounds := groupClientRect (env w) (matrix w) in
  let padding := 200 in
  let verticalScale := (height wfBounds + padding) / paperHeight in
  let horizontalScale := (width wfBounds + padding) / paperWidth in
  let scaleFactor := Qmax verticalScale horizontalScale in
  commandLeaf fuel "workflow.scale" (ScaleData (1 / scaleFactor)) w >>= fun w =>
  let paperBounds := svgClientRect (env w) in
  let wfBounds := groupClientRect (env w) (matrix w) in
  let moveY := scaleFactor * - top wfBounds + scaleFactor * top clientBounds
               + scaleFactor * Qabs (height paperBounds - height wfBounds) / 2 in
  let moveX := scaleFactor * - left wfBounds + scaleFactor * left clientBounds
               + scaleFactor * Qabs (width paperBounds - width wfBounds) / 2 in
  Done (set_matrix (translate (matrix w) moveX moveY) w).

(** Every handler of the file. *)
Definition runHandler (fuel : nat) (data : Payload) (h : Handler)
  (w : Workflow) : outcome :=
  match h with
  | OnCreateInput | OnCreateOutput => commandLeaf fuel "app.create.step" data w
  | OnFit => onFit fuel w
  | _ => runLeaf fuel data h w
  end.

(** [command(event, data)], that is [eventHub.emit]. *)
Definition command (fuel : nat) (event : string) (data : Payload)
  (w : Workflow) : outcome :=
  let w := logEmit event data w in
  dispatch (runHandler fuel data) (listeners event w) w.

(** The object once the constructor has run [attachEvents], on an empty
    canvas: the transform of the group is the identity and nothing is
    subscribed but the five handlers of [attachEvents]. *)
Definition create (e : Env) : Workflow :=
  mkWorkflow e 1 identity [] false 50 (mkRect 0 0 0 0)
    dragBoundaryIntervalDefault [] 1%positive
    [OnCreateInput; OnCreateOutput; OnCreateStep; OnConnectionCreate; OnArrange]
    [] [] [] [] [] None []
    (mkNodeDrag 0 0 0 0) (mkPan 0 0)
    (mkPortDrag false [] None DirRight (mkPoint 0 0)).

(* ================================================================= *)
(** ** Boundary auto-scroll *)

(** [this.dragBoundaryTranslation]; never assigned after its initialiser. *)
Definition dragBoundaryTranslation : Q := 5.

(** [clearInterval(handle)]; a [null] handle clears nothing. *)
Definition clearInterval (handle : option TimerId) (w : Workflow) : Workflow :=
  match handle with
  | None => w
  | Some t =>
      set_timers (filter (fun e => negb (Pos.eqb (fst e) t)) (timers w)) w
  end.

(** [setInterval(closure, 1000 / 60)]. *)
Definition setInterval (tk : Tick) (w : Workflow) : Workflow * TimerId :=
  let t := nextTimer w in
  (set_nextTimer (Pos.succ t) (set_timers (timers w ++ [(t, tk)]) w), t).

Definition truthy (z : Z) : bool := negb (Z.eqb z 0).

(** [getBoundaryZonesXYAxes(x, y)]: the object after the call and the
    boundary it returns. *)
Definition getBoundaryZonesXYAxes (x y : Q) (w : Workflow)
  : Workflow * (Z * Z) :=
  let r := workflowBoundingClientRect w in
  let isLeftBoundary := Qlt_bool x (left r + dragBoundary w) in
  let isRightBoundary := Qlt_bool (right r - dragBoundary w) x in
  let isTopBoundary := Qlt_bool y (top r + dragBoundary w) in
  let isBottomBoundary := Qlt_bool (bottom r - dragBoundary w) y in
  let w :=
    if negb isLeftBoundary && negb isRightBoundary
       && negb isTopBoundary && negb isBottomBoundary
    then
      match interval (dragBoundaryInterval w) with
      | Some t =>
          let w := clearInterval (Some t) w in
          let i := dragBoundaryInterval w in
          set_dragBoundaryInterval
            (mkDBI false false None (xOffset i) (yOffset i) None) w
      | None => w
      end
    else w in
  (w, (if isLeftBoundary then (-1)%Z else if isRightBoundary then 1%Z else 0%Z,
       if isTopBoundary then (-1)%Z else if isBottomBoundary then 1%Z else 0%Z)).

(** [setDragBoundaryIntervalToDefault()]. *)
Definition setDragBoundaryIntervalToDefault (w : Workflow) : Workflow :=
  let w :=
    match interval (dragBoundaryInterval w) with
    | Some t =>
        let w := clearInterval (Some t) w in
        let i := dragBoundaryInterval w in
        set_dragBoundaryInterval
          (mkDBI false false None (xOffset i) (yOffset i) None) w
    | None => w
    end in
  let i := dragBoundaryInterval w in
  set_dragBoundaryInterval
    (mkDBI (hitX i) (hitY i) (interval i) 0 0 (highlightedPort i)) w.

(** The condition of the [while] loop that resizes [dragBoundary]. *)
Definition boundaryAreasTooWide (r : Rect) (dragBoundary : Q) : bool :=
  Qle_bool (right r - dragBoundary) (left r + dragBoundary)
  || Qle_bool (right r) (left r + dragBoundary * 4).

(** The loop itself; [None] when it is still running after [fuel]
    halvings. *)
Fixpoint resizeDragBoundary (fuel : nat) (r : Rect) (dragBoundary : Q)
  : option Q :=
  if boundaryAreasTooWide r dragBoundary then
    match fuel with
    | O => None
    | S fuel' => resizeDragBoundary fuel' r (dragBoundary / 2)
    end
  else Some dragBoundary.

(** The [e] and [f] of [el.transform.baseVal.getItem(0).matrix]. *)
Definition elPosition (el : DragEl) (w : Workflow) : Point :=
  match el with
  | ElGhost =>
      match ghostIONode w with
      | Some g => mkPoint (ghostX g) (ghostY g)
      | None => mkPoint 0 0
      end
  | ElNode id =>
      match find (fun n => String.eqb (dataId n) id) (nodes w) with
      | Some n => mkPoint (nodeX n) (nodeY n)
      | None => mkPoint 0 0
      end
  end.

(** [el.transform.baseVal.getItem(0).setTranslate(x, y)], and the same for
    writes to the [e] and [f] of that matrix. *)
Definition setElTranslate (el : DragEl) (x y : Q) (w : Workflow) : Workflow :=
  match el with
  | ElGhost =>
      set_ghostIONode
        (option_map (fun g => mkGhost (hidden g) x y) (ghostIONode w)) w
  | ElNode id => set_nodes (map (moveNode id x y) (nodes w)) w
  end.

(** [el.classList.add("hidden")] and [.remove("hidden")]; the class is
    tracked on the ghost only. *)
Definition setElHidden (el : DragEl) (h : bool) (w : Workflow) : Workflow :=
  match el with
  | ElGhost =>
      set_ghostIONode
        (option_map (fun g => mkGhost h (ghostX g) (ghostY g)) (ghostIONode w)) w
  | ElNode _ => w
  end.

(* ================================================================= *)
(** ** Port connection resolver *)

Definition setDistance (d : Q) (p : PortEl) : PortEl :=
  mkPort (connectionId p) (portNode p) (isInputPort p) (portOffset p)
         (wfCTM p) d.

Definition setWfCTM (c : Point) (p : PortEl) : PortEl :=
  mkPort (connectionId p) (portNode p) (isInputPort p) (portOffset p)
         c (distance p).

(** [Array.prototype.sort] under [(el1, el2) => el1.distance - el2.distance],
    as the stable sort it is specified to be: ports at the same distance
    keep their order. *)
Fixpoint insertByDistance (p : PortEl) (l : list PortEl) : list PortEl :=
  match l with
  | [] => [p]
  | q :: tl =>
      if Qlt_bool (distance q) (distance p) then q :: insertByDistance p tl
      else p :: q :: tl
  end.

Definition sortByDistance (l : list PortEl) : list PortEl :=
  fold_right insertByDistance [] l.

(** [getSortedConnectionPorts(allConnectionPorts, coords)]. *)
Definition getSortedConnectionPorts (allConnectionPorts : list PortEl)
  (coords : Point) (w : Workflow) : list PortEl :=
  sortByDistance
    (map (fun el =>
            setDistance (geometryDistance (env w) (px coords) (py coords)
                                          (px (wfCTM el)) (py (wfCTM el))) el)
         allConnectionPorts).

(** [removeHighlightedPort(highlightedPort, edgeDirection)]. *)
Definition removeHighlightedPort (highlightedPort : option PortEl)
  (edgeDirection : Direction) (w : Workflow) : Workflow :=
  match highlightedPort with
  | Some p =>
      set_preferredPorts
        (filter (fun c => negb (String.eqb c (connectionId p)))
                (preferredPorts w)) w
  | None => w
  end.

(** [this.workflow.appendChild(parentNode)]: the node becomes the last
    child. *)
Definition toFront (id : string) (l : list NodeEl) : list NodeEl :=
  filter (fun n => negb (String.eqb (dataId n) id)) l
  ++ filter (fun n => String.eqb (dataId n) id) l.

(** [highlightPortOrShowGhostNode(ghostIONode, sorted, nodeToMouseDistance,
    edgeDirection, newCoords)]: the object after the call and the port it
    returns. *)
Definition highlightPortOrShowGhostNode (ghostIONode : DragEl)
  (sorted : list PortEl) (nodeToMouseDistance : Q)
  (edgeDirection : Direction) (newCoords : Point) (w : Workflow)
  : Workflow * option PortEl :=
  let w := setElHidden ghostIONode true w in
  let '(w, highlightedPort) :=
    match sorted with
    | p :: _ =>
        if Qlt_bool (distance p) 100 then
          let w := set_preferredPorts
                     (addOnce (connectionId p) (preferredPorts w)) w in
          (set_nodes (toFront (portNode p) (nodes w)) w, Some p)
        else
          (if Qlt_bool 120 nodeToMouseDistance
           then setElHidden ghostIONode false w else w, None)
    | [] =>
        (if Qlt_bool 120 nodeToMouseDistance
         then setElHidden ghostIONode false w else w, None)
    end in
  (setElTranslate ghostIONode (px newCoords) (py newCoords) w, highlightedPort).

(* ================================================================= *)
(** ** The boundary timer *)

Definition setHighlightedPort (hp : option PortEl) (w : Workflow) : Workflow :=
  let i := dragBoundaryInterval w in
  set_dragBoundaryInterval
    (mkDBI (hitX i) (hitY i) (interval i) (xOffset i) (yOffset i) hp) w.

(** The closure given to [setInterval]: one firing.  Rewriting the paths of
    the edges is not part of the model. *)
Definition tick (tk : Tick) (w : Workflow) : Workflow :=
  let moveX :=
    if Z.eqb (tickBoundaryX tk) 1 then dragBoundaryTranslation
    else if Z.eqb (tickBoundaryX tk) (-1) then - dragBoundaryTranslation
    else 0 in
  let moveY :=
    if Z.eqb (tickBoundaryY tk) 1 then dragBoundaryTranslation
    else if Z.eqb (tickBoundaryY tk) (-1) then - dragBoundaryTranslation
    else 0 in
  let m := matrix w in
  let w := set_matrix (mkMatrix (ma m) (mb m) (mc m) (md m)
                                (me m - moveX) (mf m - moveY)) w in
  let i := dragBoundaryInterval w in
  let w := set_dragBoundaryInterval
             (mkDBI (hitX i) (hitY i) (interval i)
                    (xOffset i + adaptToScale moveX w)
                    (yOffset i + adaptToScale moveY w)
                    (highlightedPort i)) w in
  let mx := elPosition (tickEl tk) w in
  let w := setElTranslate (tickEl tk) (px mx + adaptToScale moveX w)
                          (py mx + adaptToScale moveY w) w in
  match tickPathInfo tk, tickGhostIO tk with
  | Some _, _ => w
  | None, Some ghostIO =>
      let mx := elPosition (tickEl tk) w in
      let sorted := getSortedConnectionPorts (gAllConnectionPorts ghostIO) mx w in
      let w := removeHighlightedPort
                 (highlightedPort (dragBoundaryInterval w))
                 (gEdgeDirection ghostIO) w in
      let '(w, hp) :=
        highlightPortOrShowGhostNode (tickEl tk) sorted
          (gNodeToMouseDistance ghostIO) (gEdgeDirection ghostIO) mx w in
      setHighlightedPort hp w
  | None, None => w
  end.

(** The browser fires timer [t]: nothing happens unless it is running. *)
Definition fire (t : TimerId) (w : Workflow) : Workflow :=
  match find (fun e => Pos.eqb (fst e) t) (timers w) with
  | Some (_, tk) => tick tk w
  | None => w
  end.

(** [setDragBoundaryIntervalIfNecessary(el, boundary, pathInfo, ghostIO)];
    [None] when the resizing loop does not end within [fuel] rounds. *)
Definition setDragBoundaryIntervalIfNecessary (fuel : nat) (el : DragEl)
  (boundary : Z * Z) (pathInfo : option PathInfo) (ghostIO : option GhostIO)
  (w : Workflow) : option Workflow :=
  match resizeDragBoundary fuel (workflowBoundingClientRect w) (dragBoundary w)
  with
  | None => None
  | Some db =>
      let w := set_dragBoundary db w in
      let '(bx, by_) := boundary in
      let i := dragBoundaryInterval w in
      if truthy bx || truthy by_ then
        if negb (hitX i) && truthy bx
           || negb (hitY i) && truthy by_
           || hitX i && hitY i && negb (truthy bx && truthy by_)
        then
          let w := set_dragBoundaryInterval
                     (mkDBI (truthy bx) (truthy by_) (interval i)
                            (xOffset i) (yOffset i) (highlightedPort i)) w in
          let w := match ghostIO with
                   | Some g => setHighlightedPort (gHighlightedPort g) w
                   | None => w
                   end in
          let w := clearInterval (interval (dragBoundaryInterval w)) w in
          let '(w, t) := setInterval (mkTick el bx by_ pathInfo ghostIO) w in
          let i := dragBoundaryInterval w in
          Some (set_dragBoundaryInterval
                  (mkDBI (hitX i) (hitY i) (Some t) (xOffset i) (yOffset i)
                         (highlightedPort i)) w)
        else Some w
      else Some w
  end.

(** [getScaledDeltaXYForDrag(boundary, ev, startX, startY, dx, dy)]; it
    reads [ev] not at all.  [None] when [translateMouseCoords] throws. *)
Definition getScaledDeltaXYForDrag (boundary : Z * Z) (startX startY dx dy : Q)
  (w : Workflow) : option Point :=
  let '(bx, by_) := boundary in
  let r := workflowBoundingClientRect w in
  let i := dragBoundaryInterval w in
  let sdx :=
    if truthy bx then
      option_map (fun p => px p - startX)
        (translateMouseCoords
           (if Z.eqb bx 1 then right r - dragBoundary w
            else left r + dragBoundary w) 0 w)
    else Some (adaptToScale dx w + xOffset i) in
  let sdy :=
    if truthy by_ then
      option_map (fun p => py p - startY)
        (translateMouseCoords 0
           (if Z.eqb by_ 1 then bottom r - dragBoundary w
            else top r + dragBoundary w) w)
    else Some (adaptToScale dy w + yOffset i) in
  match sdx, sdy with
  | Some x, Some y => Some (mkPoint x y)
  | _, _ => None
  end.

(* ================================================================= *)
(** ** Drag sessions *)

(** [setModelPosition(obj, x, y)], [obj] being the model object of the
    given connection id. *)
Definition setModelPosition (fuel : nat) (obj : string) (x y : Q)
  (w : Workflow) : outcome :=
  command fuel "beforeChange" (ChangeData "move") w >>= fun w =>
  Done (set_modelCalls (SetPosition obj x y :: modelCalls w) w).

(** Node drag, start callback; [el] is the [data-id] of the node. *)
Definition nodeDragStart (el : string) (w : Workflow) : Workflow :=
  let w := set_isDragging true w in
  let p := elPosition (ElNode el) w in
  let w := set_nodeDrag
             (mkNodeDrag (px p) (py p) (newX (nodeDrag w)) (newY (nodeDrag w))) w in
  set_workflowBoundingClientRect (svgClientRect (env w)) w.

(** Node drag, move callback. *)
Definition nodeDragMove (fuel : nat) (dx dy : Q) (ev : Point) (el : string)
  (w : Workflow) : outcome :=
  let '(w, boundary) := getBoundaryZonesXYAxes (px ev) (py ev) w in
  let v := nodeDrag w in
  match
    if truthy (fst boundary) || truthy (snd boundary) then
      setDragBoundaryIntervalIfNecessary fuel (ElNode el) boundary
        (Some (mkPathInfo (startX v) (startY v))) None w
    else Some w
  with
  | None => Diverges
  | Some w =>
      match getScaledDeltaXYForDrag boundary (startX v) (startY v) dx dy w with
      | None => Threw w
      | Some scaledDeltas =>
          let newX := startX v + px scaledDeltas in
          let newY := startY v + py scaledDeltas in
          let w := set_nodeDrag (mkNodeDrag (startX v) (startY v) newX newY) w in
          Done (setElTranslate (ElNode el) newX newY w)
      end
  end.

(** Node drag, end callback.  [model] is what [this.model.findById] returns
    for the node: the connection id of the model object, if there is one. *)
Definition nodeDragEnd (fuel : nat) (model : option string) (w : Workflow)
  : outcome :=
  let w := set_isDragging false w in
  let w := setDragBoundaryIntervalToDefault w in
  match model with
  | Some obj => setModelPosition fuel obj (newX (nodeDrag w)) (newY (nodeDrag w)) w
  | None => Done w
  end.

(** Canvas pan: start, move and end callbacks. *)
Definition panStart (w : Workflow) : Workflow :=
  set_panDrag (mkPan (me (matrix w)) (mf (matrix w))) w.

Definition panMove (dx dy : Q) (w : Workflow) : Workflow :=
  let m := matrix w in
  set_matrix (mkMatrix (ma m) (mb m) (mc m) (md m)
                       (panX (panDrag w) + dx) (panY (panDrag w) + dy)) w.

Definition panEnd (w : Workflow) : Workflow := w.

(** The translation of [Geometry.getTransformToElement(el, this.workflow)]:
    where the port sits on the canvas. *)
Definition portPosition (p : PortEl) (w : Workflow) : Point :=
  let n := elPosition (ElNode (portNode p)) w in
  mkPoint (px n + px (portOffset p)) (py n + py (portOffset p)).

Definition orElse {A : Type} (a b : option A) : option A :=
  match a with Some _ => a | None => b end.

(** Port drag, start callback.  [ghostHidden] tells whether the element
    [GraphNode.createGhostIO()] returns carries the class [hidden].  The
    marking of the suggested ports is presentation only and left out. *)
Definition portDragStart (ghostHidden : bool) (origin : PortEl) (w : Workflow)
  : outcome :=
  let w := set_isDragging true w in
  let w := set_workflowBoundingClientRect (svgClientRect (env w)) w in
  let originNodeCTM :=
    matrixTransform (elPosition (ElNode (portNode origin)) w) (screenCTM w) in
  match translateMouseCoords (px originNodeCTM) (py originNodeCTM) w with
  | None => Threw w
  | Some originNodeCoords =>
      let isInputPort_ := isInputPort origin in
      let w := set_ghostIONode (Some (mkGhost ghostHidden 0 0)) w in
      let edgeDirection_ := if isInputPort_ then DirLeft else DirRight in
      let candidate el :=
        Bool.eqb (isInputPort el) (negb isInputPort_)
        && negb (String.eqb (portNode el) (portNode origin)) in
      let w := set_ports
                 (map (fun el => if candidate el
                                 then setWfCTM (portPosition el w) el else el)
                      (ports w)) w in
      Done (set_portDrag
              (mkPortDrag true (filter candidate (ports w))
                          (pdHighlightedPort (portDrag w))
                          edgeDirection_ originNodeCoords) w)
  end.

Definition setPdHighlightedPort (hp : option PortEl) (w : Workflow) : Workflow :=
  let v := portDrag w in
  set_portDrag (mkPortDrag (draggedEdge v) (allConnectionPorts v) hp
                           (edgeDirection v) (originNodeCoords v)) w.

(** Port drag, move callback; [target] is the port the drag started on. *)
Definition portDragMove (fuel : nat) (dx dy : Q) (ev : Point) (target : PortEl)
  (w : Workflow) : outcome :=
  let ctm := matrixTransform (portPosition target w) (screenCTM w) in
  match translateMouseCoords (px ev) (py ev) w,
        translateMouseCoords (px ctm) (py ctm) w with
  | Some coords, Some origin =>
      let v := portDrag w in
      let nodeToMouseDistance :=
        geometryDistance (env w) (px (originNodeCoords v))
                         (py (originNodeCoords v)) (px coords) (py coords) in
      let '(w, boundary) := getBoundaryZonesXYAxes (px ev) (py ev) w in
      match
        if truthy (fst boundary) || truthy (snd boundary) then
          setDragBoundaryIntervalIfNecessary fuel ElGhost boundary None
            (Some (mkGhostIO nodeToMouseDistance (allConnectionPorts v)
                             (pdHighlightedPort v) origin coords
                             (edgeDirection v))) w
        else Some w
      with
      | None => Diverges
      | Some w =>
          match getScaledDeltaXYForDrag boundary (px origin) (py origin) dx dy w
          with
          | None => Threw w
          | Some scaledDeltas =>
              let sorted :=
                getSortedConnectionPorts (allConnectionPorts v) coords w in
              let hp := orElse (highlightedPort (dragBoundaryInterval w))
                               (pdHighlightedPort v) in
              let w := removeHighlightedPort hp (edgeDirection v) w in
              let '(w, hp) :=
                highlightPortOrShowGhostNode ElGhost sorted nodeToMouseDistance
                  (edgeDirection v)
                  (mkPoint (px origin + px scaledDeltas)
                           (py origin + py scaledDeltas)) w in
              Done (setPdHighlightedPort hp w)
          end
      end
  | _, _ => Threw w
  end.

(** Modelled from the spec: [GraphEdge.findEdge] of [graph/edge], which
    tells whether an edge already joins the two connection ids. *)
Definition findEdge (sourceID destinationID : string) (w : Workflow) : bool :=
  existsb (fun e => String.eqb (sourceConnection e) sourceID
                    && String.eqb (destinationConnection e) destinationID)
          (edges w).

(** Modelled from the spec: [GraphEdge.spawnBetweenConnectionIDs] of
    [graph/edge], which instantiates the edge element between two ports. *)
Definition spawnBetweenConnectionIDs (sourceID destinationID : string)
  (w : Workflow) : Workflow :=
  set_edges (edges w ++ [mkEdge sourceID destinationID]) w.

(** The end of the release callback: transient markers, the in-progress
    edge and the ghost go away. *)
Definition releaseCleanup (w : Workflow) : Workflow :=
  let w := set_preferredPorts [] w in
  let w := set_ghostIONode None w in
  let v := portDrag w in
  set_portDrag (mkPortDrag false (allConnectionPorts v) (pdHighlightedPort v)
                           (edgeDirection v) (originNodeCoords v)) w.

(** The release callback, first branch: a port is highlighted. *)
Definition releaseOnPort (fuel : nat) (origin highlighted : PortEl)
  (w : Workflow) : outcome :=
  let sourceID := connectionId origin in
  let destinationID := connectionId highlighted in
  let '(sourceID, destinationID) :=
    if String.prefix "in" sourceID then (destinationID, sourceID)
    else (sourceID, destinationID) in
  (if negb (findEdge sourceID destinationID w) then
     command fuel "beforeChange" (ChangeData "connect") w >>= fun w =>
     let w := spawnBetweenConnectionIDs sourceID destinationID w in
     Done (set_modelCalls (Connect sourceID destinationID :: modelCalls w) w)
   else Done w) >>= fun w =>
  Done (setPdHighlightedPort None w).

(** The release callback, second branch: the ghost is not hidden.
    [newIO], [newPorts] and [newLabels] describe the element that rendering
    the input or output returned by the data model yields. *)
Definition releaseOnGhost (fuel : nat) (ev : Point) (origin : PortEl)
  (newIO : NodeEl) (newPorts : list PortEl) (newLabels : list Matrix)
  (w : Workflow) : outcome :=
  let portID := connectionId origin in
  let ioIsInput := String.prefix "in" portID in
  command fuel "beforeChange"
    (ChangeData (if ioIsInput then "input.create" else "output.create")) w
  >>= fun w =>
  let w := set_modelCalls
             ((if ioIsInput then CreateInputFromPort portID
               else CreateOutputFromPort portID) :: modelCalls w) w in
  let '(w, boundary) := getBoundaryZonesXYAxes (px ev) (py ev) w in
  let r := workflowBoundingClientRect w in
  match translateMouseCoords (px ev) (py ev) w with
  | None => Threw w
  | Some mouseCoords =>
      let newX :=
        if truthy (fst boundary) then
          option_map px
            (translateMouseCoords
               (if Z.eqb (fst boundary) (-1) then left r + dragBoundary w
                else right r - dragBoundary w) 0 w)
        else Some (px mouseCoords) in
      let newY :=
        if truthy (snd boundary) then
          option_map py
            (translateMouseCoords 0
               (if Z.eqb (snd boundary) (-1) then top r + dragBoundary w
                else bottom r - dragBoundary w) w)
        else Some (py mouseCoords) in
      match newX, newY with
      | Some newX, Some newY =>
          let el := mkNode (dataId newIO) (nodeConnectionId newIO) newX newY in
          let w := set_nodes (nodes w ++ [el]) w in
          let w := set_ports (ports w ++ newPorts) w in
          let w := set_labels (labels w ++ newLabels) w in
          setModelPosition fuel (nodeConnectionId newIO)
            (px mouseCoords) (py mouseCoords) w >>= fun w =>
          let w := spawnBetweenConnectionIDs portID (nodeConnectionId newIO) w in
          scaleWorkflow (scale w) None w
      | _, _ => Threw w
      end
  end.

(** Port drag, end callback ([ev], [origin]); the release. *)
Definition portDragEnd (fuel : nat) (ev : Point) (origin : PortEl)
  (newIO : NodeEl) (newPorts : list PortEl) (newLabels : list Matrix)
  (w : Workflow) : outcome :=
  let hp := orElse (highlightedPort (dragBoundaryInterval w))
                   (pdHighlightedPort (portDrag w)) in
  let w := setPdHighlightedPort hp w in
  let w := set_isDragging false w in
  let w := setDragBoundaryIntervalToDefault w in
  (match hp with
   | Some highlighted => releaseOnPort fuel origin highlighted w
   | None =>
       match ghostIONode w with
       | None => Threw w
       | Some ghost =>
           if negb (hidden ghost)
           then releaseOnGhost fuel ev origin newIO newPorts newLabels w
           else Done w
       end
   end) >>= fun w =>
  Done (releaseCleanup w).

(* ================================================================= *)
(** ** The object as a transition system *)

(** What can happen to the object: a pointer or wheel event reaches one of
    its callbacks, the browser fires a timer, or a caller uses the public
    interface. *)
Inductive Event :=
| Wheel (deltaY : Q) (ev : Point)
| NodeDragStart (el : string)
| NodeDragMove (dx dy : Q) (ev : Point) (el : string)
| NodeDragEnd (model : option string)
| PanStart
| PanMove (dx dy : Q)
| PanEnd
| PortDragStart (ghostHidden : bool) (origin : PortEl)
| PortDragMove (dx dy : Q) (ev : Point) (target : PortEl)
| PortDragEnd (ev : Point) (origin : PortEl) (newIO : NodeEl)
    (newPorts : list PortEl) (newLabels : list Matrix)
| TimerFires (t : TimerId)
| Command (event : string) (data : Payload)
| ScaleWorkflow (scaleCoefficient : Q) (ev : option Point).

Definition step (fuel : nat) (e : Event) (w : Workflow) : outcome :=
  match e with
  | Wheel deltaY ev => mousewheel deltaY ev w
  | NodeDragStart el => Done (nodeDragStart el w)
  | NodeDragMove dx dy ev el => nodeDragMove fuel dx dy ev el w
  | NodeDragEnd model => nodeDragEnd fuel model w
  | PanStart => Done (panStart w)
  | PanMove dx dy => Done (panMove dx dy w)
  | PanEnd => Done (panEnd w)
  | PortDragStart ghostHidden origin => portDragStart ghostHidden origin w
  | PortDragMove dx dy ev target => portDragMove fuel dx dy ev target w
  | PortDragEnd ev origin newIO newPorts newLabels =>
      portDragEnd fuel ev origin newIO newPorts newLabels w
  | TimerFires t => Done (fire t w)
  | Command event data => command fuel event data w
  | ScaleWorkflow s ev => scaleWorkflow s ev w
  end.

(** A history of events; one that threw leaves the object where it was when
    it threw, and the next event finds it there. *)
Fixpoint run (fuel : nat) (es : list Event) (w : Workflow) : option Workflow :=
  match es with
  | [] => Some w
  | e :: tl =>
      match step fuel e w with
      | Done w | Threw w => run fuel tl w
      | Diverges => None
      end
  end.

(* ================================================================= *)
(** ** Vocabulary of the statements *)

(** The zoom band [(0.15, sqrt 3]]. *)
Definition inZoomBand (s : Q) : Prop := 15 # 100 < s /\ s * s <= 3.

(** [n] calls of [f] in a row, each of which returns. *)
Inductive iterated (f : Workflow -> outcome) : nat -> Workflow -> Workflow -> Prop :=
| iterated_O w : iterated f O w w
| iterated_S n w w1 w2 :
    f w = Done w1 -> iterated f n w1 w2 -> iterated f (S n) w w2.

(** A series of calls of [scaleWorkflow], each given as its two
    arguments. *)
Fixpoint scaleCalls (calls : list (Q * option Point)) (w : Workflow) : outcome :=
  match calls with
  | [] => Done w
  | (s, ev) :: tl => scaleWorkflow s ev w >>= scaleCalls tl
  end.

(** The running timers are exactly the one whose handle the object
    holds. *)
Definition timersTracked (w : Workflow) : Prop :=
  map fst (timers w) =
  match interval (dragBoundaryInterval w) with Some t => [t] | None => [] end.

(** A state of the object that some history of events leads to. *)
Definition reachable (fuel : nat) (e : Env) (w : Workflow) : Prop :=
  exists es, run fuel es (create e) = Some w.

(* ================================================================= *)
(** ** A page to run the examples on *)

(** Square root of a rational, exact on the squares of rationals. *)
Definition sqrtQ (q : Q) : Q :=
  let r := Qred q in
  Z.sqrt (Qnum r) # Z.to_pos (Z.sqrt (Zpos (Qden r))).

(** The Euclidean distance, exact where it is rational. *)
Definition euclid (x1 y1 x2 y2 : Q) : Q :=
  sqrtQ ((x2 - x1) * (x2 - x1) + (y2 - y1) * (y2 - y1)).

(** An <svg> of 1000 by 600 at the top left corner of the page, whose
    content measures 400 by 300 at scale 1. *)
Definition page : Env :=
  mkEnv identity (mkRect 0 1000 0 600) 1000 600 euclid
        (fun m => mkRect (me m) (me m + 400 * ma m) (mf m) (mf m + 300 * md m)).

(** The same <svg>, only 60 high. *)
Definition lowPage : Env :=
  mkEnv identity (mkRect 0 1000 0 60) 1000 60 euclid
        (fun m => mkRect (me m) (me m + 400 * ma m) (mf m) (mf m + 300 * md m)).

(** [o] ends, by a return or by a throw, with the object in state [w]. *)
Definition endsIn (o : outcome) (w : Workflow) : Prop :=
  o = Done w \/ o = Threw w.

(** From [w] to [w'] the running timers and the handle in
    [dragBoundaryInterval] have not changed. *)
Definition keepsTimers (w w' : Workflow) : Prop :=
  timers w' = timers w /\
  interval (dragBoundaryInterval w') = interval (dragBoundaryInterval w).

(** No boundary timer is left: none is running, the object holds no
    handle, and no firing changes anything. *)
Definition noTimer (w : Workflow) : Prop :=
  timers w = [] /\
  interval (dragBoundaryInterval w) = None /\
  forall t, fire t w = w.

(** The call comes back. *)
Definition comesBack (o : outcome) : Prop := exists w, endsIn o w.

(** Two steps on the page: [A] at (100, 100) with an output port on its
    right, [B] at (400, 100) with an input port on its left, the ports 200
    apart; and the output the data model would create for [A]'s port. *)
Definition nodeA : NodeEl := mkNode "A" "A" 100 100.
Definition nodeB : NodeEl := mkNode "B" "B" 400 100.
Definition aOut : PortEl :=
  mkPort "out/A/o" "A" false (mkPoint 50 0) (mkPoint 0 0) 0.
Definition bIn : PortEl :=
  mkPort "in/B/i" "B" true (mkPoint (-50) 0) (mkPoint 0 0) 0.
Definition newOutput : NodeEl := mkNode "o" "in/o/o" 0 0.

Definition twoSteps : list Event :=
  [Command "app.create.step" (StepData nodeA [aOut] [identity]);
   Command "app.create.step" (StepData nodeB [bIn] [identity])].

(** A port drag from [A]'s output to 10 units before [B]'s input, released
    there. *)
Definition dragOntoB : list Event :=
  [PortDragStart false aOut;
   PortDragMove 190 0 (mkPoint 340 100) aOut;
   PortDragEnd (mkPoint 340 100) aOut newOutput [] []].

(** A node drag of [A] into the right boundary band, which starts the
    timer. *)
Definition dragIntoBand : list Event :=
  [NodeDragStart "A"; NodeDragMove 880 0 (mkPoint 990 100) "A"].

(** The two ends of the connection a release on [highlighted] asks for:
    the input side is the destination. *)
Definition connectionEnds (origin highlighted : PortEl) : string * string :=
  if String.prefix "in" (connectionId origin)
  then (connectionId highlighted, connectionId origin)
  else (connectionId origin, connectionId highlighted).

(** The port the release callback takes as highlighted. *)
Definition releasePort (w : Workflow) : option PortEl :=
  orElse (highlightedPort (dragBoundaryInterval w))
         (pdHighlightedPort (portDrag w)).

(** Whether the ghost carries the class [hidden]. *)
Definition ghostHidden (w : Workflow) : bool :=
  match ghostIONode w with Some g => hidden g | None => true end.

(** The ports of [allConnectionPorts] with their distance to [coords]
    filled in. *)
Definition measured (allConnectionPorts : list PortEl) (coords : Point)
  (w : Workflow) : list PortEl :=
  map (fun el =>
         setDistance (geometryDistance (env w) (px coords) (py coords)
                                       (px (wfCTM el)) (py (wfCTM el))) el)
      allConnectionPorts.

(** The depth trace of a list of dependencies, one after the other, the
    visited set passed along. *)
Fixpoint traceEach (fuel : nat) (tracker : Tracker) (l : list string)
  (visited : list string) : option (list Depth * list string) :=
  match l with
  | [] => Some ([], visited)
  | e :: tl =>
      match trace fuel tracker e visited with
      | None => None
      | Some (d, visited) =>
          match traceEach fuel tracker tl visited with
          | None => None
          | Some (ds, visited) => Some (d :: ds, visited)
          end
      end
  end.

(** [p] is no farther than [q]. *)
Definition closerEq (p q : PortEl) : Prop := distance p <= distance q.

(** The connection from port [sp] of node [s] to port [dp] of node [d],
    its ends named the way the data model names them. *)
Definition edgeBetween (s sp d dp : string) : Connection :=
  mkConnection ("out/" ++ s ++ "/" ++ sp) ("in/" ++ d ++ "/" ++ dp).

(** The diamond A -> B, A -> C, B -> D, C -> D, over any ports. *)
Definition diamond (p1 q1 p2 q2 p3 q3 p4 q4 : string) : list Connection :=
  [edgeBetween "A" p1 "B" q1; edgeBetween "A" p2 "C" q2;
   edgeBetween "B" p3 "D" q3; edgeBetween "C" p4 "D" q4].

(** The chain A -> B -> C -> D, over any ports. *)
Definition chain (p1 q1 p2 q2 p3 q3 : string) : list Connection :=
  [edgeBetween "A" p1 "B" q1; edgeBetween "B" p2 "C" q2;
   edgeBetween "C" p3 "D" q3].

(* ================================================================= *)
(** ** Vocabulary of the further properties *)

(** [db] halved [k] times. *)
Definition halved (k : nat) (db : Q) : Q := Nat.iter k (fun q => q / 2) db.

Fixpoint pow2 (n : nat) : Q :=
  match n with O => 1 | S n => 2 * pow2 n end.

(** Where the element is drawn on the screen. *)
Definition elScreen (el : DragEl) (w : Workflow) : Point :=
  matrixTransform (elPosition el w) (screenCTM w).

(** The element is in the document. *)
Definition elExists (el : DragEl) (w : Workflow) : Prop :=
  match el with
  | ElGhost => ghostIONode w <> None
  | ElNode id => find (fun n => String.eqb (dataId n) id) (nodes w) <> None
  end.

(** The group's matrix is the uniform scale [this.scale], without shear. *)
Definition scaleInSync (w : Workflow) : Prop :=
  ma (matrix w) == scale w /\ md (matrix w) == scale w /\
  mb (matrix w) == 0 /\ mc (matrix w) == 0.

(** What the closures that the drag callbacks hand to [setInterval] look
    like: a node with its [pathInfo], or the ghost. *)
Definition tickWellFormed (tk : Tick) : Prop :=
  tickPathInfo tk <> None \/ tickEl tk = ElGhost.

(** The workflow after a history of events on the example page; the page
    itself when the history does not end. *)
Definition after (es : list Event) : Workflow :=
  match run 10 es (create page) with Some w => w | None => create page end.

(** [A] dragged into the right band, the timer running. *)
Definition inRightBand : Workflow :=
  Eval vm_compute in after (twoSteps ++ dragIntoBand).

(** How far one firing of a timer made for boundary [z] moves the canvas
    along an axis. *)
Definition tickMove (z : Z) : Q :=
  if Z.eqb z 1 then dragBoundaryTranslation
  else if Z.eqb z (-1) then - dragBoundaryTranslation
  else 0.

(** Every name the tracker knows: its keys and the entries of its
    arrays. *)
Definition univ (tracker : Tracker) : list string :=
  map fst tracker ++ flat_map snd tracker.

(** How many of them the visited set does not hold. *)
Definition unvisitedCount (tracker : Tracker) (visited : list string) : nat :=
  List.length (filter (fun k => negb (mem k visited)) (univ tracker)).

(** The tracker the handler builds from the connections. *)
Definition trackerOf (connections : list Connection) : Tracker :=
  fst (fold_left registerConnection connections ([], [])).

(** The two steps rendered, and the port drag from [A]'s output begun. *)
Definition twoStepsDone : Workflow := Eval vm_compute in after twoSteps.

Definition dragBegun : Workflow :=
  Eval vm_compute in
    match portDragStart false aOut twoStepsDone with
    | Done w | Threw w => w
    | Diverges => twoStepsDone
    end.

(** The drag from [A]'s output brought 10 units before [B]'s input, and
    released there. *)
Definition dragNearB : Workflow :=
  Eval vm_compute in after (twoSteps ++ firstn 2 dragOntoB).

Definition released : Workflow :=
  Eval vm_compute in after (twoSteps ++ dragOntoB).

(** The fresh canvas with one label, and the same after a zoom to 1/2. *)
Definition oneLabel : Workflow :=
  Eval vm_compute in set_labels [mkMatrix 1 0 0 1 7 9] (create page).

Definition oneLabelHalved : Workflow :=
  Eval vm_compute in
    match scaleWorkflow (1 # 2) None oneLabel with
    | Done w | Threw w => w
    | Diverges => oneLabel
    end.


Definition wheeled : Workflow :=
  Eval vm_compute in
    match mousewheel 100 (mkPoint 300 200) (create page) with
    | Done w | Threw w => w
    | Diverges => create page
    end.




(** The port a drag snaps to, given the candidates sorted by distance: the
    nearest one if it is less than 100 units away. *)
Definition snapTarget (sorted : list PortEl) : option PortEl :=
  match sorted with
  | p :: _ => if Qlt_bool (distance p) 100 then Some p else None
  | [] => None
  end.

(** The port drag near [B] taken on into the right boundary band. *)
Definition dragFrozen : Workflow :=
  Eval vm_compute in
    after (twoSteps ++ firstn 2 dragOntoB
           ++ [PortDragMove 840 0 (mkPoint 990 100) aOut]).

(** From [w] to [w'] the timer record [dragBoundaryInterval] is as it
    was. *)
Definition sameRecord (w w' : Workflow) : Prop :=
  dragBoundaryInterval w' = dragBoundaryInterval w.

(** The timer record holds a port only while it holds a timer handle. *)
Definition recordIdle (w : Workflow) : Prop :=
  interval (dragBoundaryInterval w) = None ->
  highlightedPort (dragBoundaryInterval w) = None.

(* ================================================================= *)
(** * Theorems *)

(* ================================================================= *)
(** ** Viewport transform *)

Lemma inverse_some (m : Matrix) :
  ~ det m == 0 ->
  inverse m = Some (mkMatrix (md m / det m) (- mb m / det m)
                      (- mc m / det m) (ma m / det m)
                      ((mc m * mf m - md m * me m) / det m)
                      ((mb m * me m - ma m * mf m) / det m)).
Proof.
  intros H. unfold inverse.
  destruct (Qeq_bool (det m) 0) eqn:E; [|reflexivity].
  apply Qeq_bool_iff in E. contradiction.
Qed.

(** Mapping a point through the inverse and back gives the point. *)
Lemma inverse_right (m : Matrix) (p : Point) inv :
  inverse m = Some inv -> Peq (matrixTransform (matrixTransform p inv) m) p.
Proof.
  unfold inverse. destruct (Qeq_bool (det m) 0) eqn:E; [discriminate|].
  intros H; injection H as <-.
  assert (D : ~ det m == 0) by (intro A; apply Qeq_bool_iff in A; congruence).
  unfold det in D.
  unfold Peq, matrixTransform, det; simpl. split; field; exact D.
Qed.

(** The five assignments of [scaleWorkflow] leave the image of the anchor's
    canvas point where it was, whatever lies between the group and the
    screen. *)
Lemma anchored_update (R M : Matrix) (c : Point) (s : Q) :
  ma M == md M ->
  Peq (matrixTransform c
         (multiply R (mkMatrix s (mb M) (mc M) s
                        (me M + ma M * px c - s * px c)
                        (mf M + ma M * py c - s * py c))))
      (matrixTransform c (multiply R M)).
Proof.
  intros H. destruct M as [a b c' d e f], R, c as [x y]. simpl in H.
  unfold Peq, matrixTransform, multiply; simpl.
  split; rewrite <- H; ring.
Qed.

Lemma Peq_trans p q r : Peq p q -> Peq q r -> Peq p r.
Proof. intros [A B] [C D]. split; etransitivity; eassumption. Qed.

(** C1.  Anchor invariance of scaling.  Let the group's matrix scale
    uniformly ([a = d], as every matrix [scaleWorkflow] writes does) and the
    screen CTM be invertible.  For a factor [s] of the zoom band and an
    anchor [p] on the screen, [scaleWorkflow s p] returns, and the canvas
    point [c] that was under [p] before the call is under [p] after it. *)
Theorem scaleWorkflow_anchor_invariance (w : Workflow) (s : Q) (p : Point) :
  inZoomBand s ->
  ma (matrix w) == md (matrix w) ->
  ~ det (screenCTM w) == 0 ->
  exists c w',
    translateMouseCoords (px p) (py p) w = Some c /\
    scaleWorkflow s (Some p) w = Done w' /\
    Peq (matrixTransform c (screenCTM w')) p.
Proof.
  intros _ Had Hdet.
  unfold scaleWorkflow, translateMouseCoords.
  change (screenCTM (set_scale s w)) with (screenCTM w).
  destruct (inverse (screenCTM w)) as [inv|] eqn:I.
  2:{ rewrite inverse_some in I by assumption. discriminate. }
  eexists. eexists. split; [reflexivity|]. split; [reflexivity|].
  destruct p as [x y]. cbn [px py].
  eapply Peq_trans; [|exact (inverse_right _ (mkPoint x y) _ I)].
  apply (anchored_update (svgScreenCTM (env w)) (matrix w)
           (matrixTransform (mkPoint x y) inv) s Had).
Qed.

(** The theorem at work: zooming the fresh canvas to 3/2 around the screen
    point (300, 200). *)
Lemma scaleWorkflow_anchor_invariance_witness :
  inZoomBand (3 # 2) /\
  ma (matrix (create page)) == md (matrix (create page)) /\
  ~ det (screenCTM (create page)) == 0 /\
  exists c w',
    translateMouseCoords 300 200 (create page) = Some c /\
    scaleWorkflow (3 # 2) (Some (mkPoint 300 200)) (create page) = Done w' /\
    Peq (matrixTransform c (screenCTM w')) (mkPoint 300 200).
Proof.
  assert (B : inZoomBand (3 # 2)) by (split; vm_compute; [reflexivity | discriminate]).
  assert (U : ma (matrix (create page)) == md (matrix (create page)))
    by (vm_compute; reflexivity).
  assert (D : ~ det (screenCTM (create page)) == 0) by (vm_compute; discriminate).
  split; [exact B|]. split; [exact U|]. split; [exact D|].
  exact (scaleWorkflow_anchor_invariance (create page) (3 # 2)
           (mkPoint 300 200) B U D).
Defined.


Lemma Qlt_bool_iff (x y : Q) : Qlt_bool x y = true <-> x < y.
Proof.
  unfold Qlt_bool. rewrite negb_true_iff. split.
  - intros H. apply Qnot_le_lt. intros L. apply Qle_bool_iff in L. congruence.
  - intros H. destruct (Qle_bool y x) eqn:E; [|reflexivity].
    apply Qle_bool_iff in E. exfalso. exact (Qlt_not_le _ _ H E).
Qed.

Lemma Qlt_bool_false (x y : Q) : Qlt_bool x y = false <-> y <= x.
Proof.
  unfold Qlt_bool. rewrite negb_false_iff. apply Qle_bool_iff.
Qed.

Lemma Qle_bool_false (x y : Q) : Qle_bool x y = false <-> y < x.
Proof.
  split.
  - intros H. apply Qnot_le_lt. intros L. apply Qle_bool_iff in L. congruence.
  - intros H. destruct (Qle_bool x y) eqn:E; [|reflexivity].
    apply Qle_bool_iff in E. exfalso. exact (Qlt_not_le _ _ H E).
Qed.



(* ================================================================= *)
(** ** The event hub *)

Lemma listeners_app event w hs :
  listeners event (set_handlers (handlers w ++ hs) w)
  = listeners event w ++ filter (fun h => String.eqb (eventOf h) event) hs.
Proof. unfold listeners; simpl. apply filter_app. Qed.

Lemma scaleWorkflow_handlers s ev w w' :
  scaleWorkflow s ev w = Done w' -> handlers w' = handlers w ++ [OnFit].
Proof.
  unfold scaleWorkflow.
  destruct (translateMouseCoords _ _ _); [|discriminate].
  intros H; injection H as <-. reflexivity.
Qed.

Lemma scaleCalls_handlers calls : forall w w',
  scaleCalls calls w = Done w' ->
  handlers w' = handlers w ++ repeat OnFit (List.length calls).
Proof.
  induction calls as [|[s ev] tl IH]; simpl; intros w w' H.
  - injection H as <-. symmetry; apply app_nil_r.
  - destruct (scaleWorkflow s ev w) as [w1| |] eqn:E; simpl in H; try discriminate.
    rewrite (IH _ _ H), (scaleWorkflow_handlers _ _ _ _ E), <- app_assoc.
    reflexivity.
Qed.

Lemma filter_fit_repeat n :
  filter (fun h => String.eqb (eventOf h) "workflow.fit") (repeat OnFit n)
  = repeat OnFit n.
Proof. induction n; simpl; [reflexivity | f_equal; exact IHn]. Qed.

(** Nothing in the file subscribes to [workflow.scale] or to
    [beforeChange]. *)
Lemma no_listener event w :
  (forall h, String.eqb (eventOf h) event = false) -> listeners event w = [].
Proof.
  intros H. unfold listeners. induction (handlers w) as [|h tl IH]; simpl.
  - reflexivity.
  - rewrite H. exact IH.
Qed.

Lemma no_listener_scale w : listeners "workflow.scale" w = [].
Proof. apply no_listener. intros []; reflexivity. Qed.

Lemma no_listener_beforeChange w : listeners "beforeChange" w = [].
Proof. apply no_listener. intros []; reflexivity. Qed.

Lemma command_beforeChange fuel data w :
  command fuel "beforeChange" data w = Done (logEmit "beforeChange" data w).
Proof. unfold command. rewrite no_listener_beforeChange. reflexivity. Qed.

(** The fit routine always returns. *)
Lemma onFit_returns fuel w : exists w', onFit fuel w = Done w'.
Proof.
  unfold onFit, commandLeaf. rewrite no_listener_scale. simpl.
  eexists; reflexivity.
Qed.

Lemma dispatch_fit fuel n : forall w,
  exists w', dispatch (runHandler fuel NoData) (repeat OnFit n) w = Done w'
             /\ iterated (onFit fuel) n w w'.
Proof.
  induction n as [|n IH]; intros w; simpl.
  - exists w. split; [reflexivity | constructor].
  - destruct (onFit_returns fuel w) as [w1 E]. rewrite E. simpl.
    destruct (IH w1) as [w2 [D I]]. exists w2. split; [exact D|].
    econstructor; eassumption.
Qed.

(** C10.  Each call of [scaleWorkflow] that returns subscribes one more
    handler to [workflow.fit].  The object leaves [attachEvents] with none;
    after [n] calls it has [n], and one [workflow.fit] command then runs the
    fit routine [n] times in a row. *)
Theorem scaleWorkflow_subscribes_fit (fuel : nat) (e : Env)
  (calls : list (Q * option Point)) (w : Workflow) :
  scaleCalls calls (create e) = Done w ->
  listeners "workflow.fit" (create e) = [] /\
  listeners "workflow.fit" w = repeat OnFit (List.length calls) /\
  exists w',
    command fuel "workflow.fit" NoData w = Done w' /\
    iterated (onFit fuel) (List.length calls)
             (logEmit "workflow.fit" NoData w) w'.
Proof.
  intros H. split; [reflexivity|].
  assert (L : listeners "workflow.fit" w = repeat OnFit (List.length calls)).
  { unfold listeners. rewrite (scaleCalls_handlers _ _ _ H), filter_app.
    rewrite filter_fit_repeat. reflexivity. }
  split; [exact L|].
  unfold command.
  change (listeners "workflow.fit" (logEmit "workflow.fit" NoData w))
    with (listeners "workflow.fit" w).
  rewrite L. apply dispatch_fit.
Qed.

(** Three calls, as a wheel zoom, a programmatic zoom and a reset would
    make them. *)
Lemma scaleWorkflow_subscribes_fit_witness :
  exists w,
    scaleCalls [(3 # 2, Some (mkPoint 300 200)); (1 # 2, None); (1, None)]
               (create page) = Done w /\
    listeners "workflow.fit" (create page) = [] /\
    listeners "workflow.fit" w = repeat OnFit 3 /\
    exists w',
      command 0 "workflow.fit" NoData w = Done w' /\
      iterated (onFit 0) 3 (logEmit "workflow.fit" NoData w) w'.
Proof.
  eexists. split; [vm_compute; reflexivity|].
  eapply (scaleWorkflow_subscribes_fit 0 page
            [(3 # 2, Some (mkPoint 300 200)); (1 # 2, None); (1, None)]).
  vm_compute; reflexivity.
Defined.

(* ================================================================= *)
(** ** What leaves the boundary timer alone *)

Create HintDb frame.

Lemma keepsTimers_refl w : keepsTimers w w.
Proof. split; reflexivity. Qed.

Lemma keepsTimers_trans w1 w2 w3 :
  keepsTimers w1 w2 -> keepsTimers w2 w3 -> keepsTimers w1 w3.
Proof. intros [A B] [C D]. split; congruence. Qed.

#[local] Hint Resolve keepsTimers_refl : frame.

Ltac ends_inv H :=
  destruct H as [H|H]; try discriminate H; try (injection H as <-).

Lemma andThen_keeps o k w w' :
  (forall w1, endsIn o w1 -> keepsTimers w w1) ->
  (forall w1 w2, o = Done w1 -> endsIn (k w1) w2 -> keepsTimers w1 w2) ->
  endsIn (o >>= k) w' -> keepsTimers w w'.
Proof.
  intros Ho Hk H. destruct o as [w1|w1|]; simpl in H.
  - eapply keepsTimers_trans; [apply Ho; left; reflexivity|].
    eapply Hk; [reflexivity | exact H].
  - ends_inv H. apply Ho. right; reflexivity.
  - ends_inv H.
Qed.

Lemma scaleWorkflow_keeps s ev w w' :
  endsIn (scaleWorkflow s ev w) w' -> keepsTimers w w'.
Proof.
  unfold scaleWorkflow. destruct (translateMouseCoords _ _ _); intros H;
    ends_inv H; split; reflexivity.
Qed.

Lemma mousewheel_keeps deltaY ev w w' :
  endsIn (mousewheel deltaY ev w) w' -> keepsTimers w w'.
Proof.
  unfold mousewheel. destruct (isDragging w).
  - intros H; ends_inv H; auto with frame.
  - destruct (_ || _).
    + intros H; ends_inv H; auto with frame.
    + apply scaleWorkflow_keeps.
Qed.

Lemma dispatch_keeps run :
  (forall h w w', endsIn (run h w) w' -> keepsTimers w w') ->
  forall hs w w', endsIn (dispatch run hs w) w' -> keepsTimers w w'.
Proof.
  intros Hrun hs. induction hs as [|h tl IH]; simpl; intros w w' H.
  - ends_inv H. auto with frame.
  - eapply andThen_keeps; [apply Hrun | | exact H].
    intros w1 w2 _. apply IH.
Qed.

Lemma onArrange_keeps fuel cs w : keepsTimers w (onArrange fuel cs w).
Proof.
  unfold onArrange. destruct (arrange _ _ _ _ _) as [pls|]; auto with frame.
  generalize w. induction pls as [|p tl IH]; simpl; intros w0; auto with frame.
  eapply keepsTimers_trans; [|apply IH]. split; reflexivity.
Qed.

Lemma onCreateStep_keeps el ps ls w w' :
  endsIn (onCreateStep el ps ls w) w' -> keepsTimers w w'.
Proof.
  unfold onCreateStep. intros H. apply scaleWorkflow_keeps in H.
  eapply keepsTimers_trans; [|exact H]. split; reflexivity.
Qed.

Lemma runLeaf_keeps fuel data h w w' :
  endsIn (runLeaf fuel data h w) w' -> keepsTimers w w'.
Proof.
  unfold runLeaf. destruct h, data; intros H;
    try (ends_inv H; auto with frame; fail).
  - eapply onCreateStep_keeps; exact H.
  - ends_inv H. apply onArrange_keeps.
Qed.

Lemma commandLeaf_keeps fuel event data w w' :
  endsIn (commandLeaf fuel event data w) w' -> keepsTimers w w'.
Proof.
  unfold commandLeaf. intros H.
  apply (dispatch_keeps _ (runLeaf_keeps fuel data)) in H.
  eapply keepsTimers_trans; [|exact H]. split; reflexivity.
Qed.

Lemma onFit_keeps fuel w w' : endsIn (onFit fuel w) w' -> keepsTimers w w'.
Proof.
  unfold onFit. intros H.
  eapply keepsTimers_trans; [|eapply andThen_keeps; [| |exact H]].
  - apply keepsTimers_refl.
  - intros w1 H1. apply commandLeaf_keeps in H1.
    eapply keepsTimers_trans; [|exact H1]. split; reflexivity.
  - intros w1 w2 _ H2. ends_inv H2. split; reflexivity.
Qed.

Lemma runHandler_keeps fuel data h w w' :
  endsIn (runHandler fuel data h w) w' -> keepsTimers w w'.
Proof.
  destruct h; unfold runHandler;
    first [apply runLeaf_keeps | apply commandLeaf_keeps | apply onFit_keeps].
Qed.

Lemma command_keeps fuel event data w w' :
  endsIn (command fuel event data w) w' -> keepsTimers w w'.
Proof.
  unfold command. intros H.
  apply (dispatch_keeps _ (runHandler_keeps fuel data)) in H.
  eapply keepsTimers_trans; [|exact H]. split; reflexivity.
Qed.

Lemma setModelPosition_keeps fuel obj x y w w' :
  endsIn (setModelPosition fuel obj x y w) w' -> keepsTimers w w'.
Proof.
  unfold setModelPosition. apply andThen_keeps.
  - apply command_keeps.
  - intros w1 w2 _ H. ends_inv H. split; reflexivity.
Qed.

Lemma setElHidden_keeps el h w : keepsTimers w (setElHidden el h w).
Proof. destruct el; split; reflexivity. Qed.

Lemma setElTranslate_keeps el x y w : keepsTimers w (setElTranslate el x y w).
Proof. destruct el; split; reflexivity. Qed.

Lemma removeHighlightedPort_keeps hp d w :
  keepsTimers w (removeHighlightedPort hp d w).
Proof. destruct hp; split; reflexivity. Qed.

Lemma highlightPortOrShowGhostNode_keeps el sorted n2m d c w :
  keepsTimers w (fst (highlightPortOrShowGhostNode el sorted n2m d c w)).
Proof.
  unfold highlightPortOrShowGhostNode.
  destruct sorted as [|p tl];
    [|destruct (Qlt_bool (distance p) 100)];
    try destruct (Qlt_bool 120 n2m); simpl;
    repeat (eapply keepsTimers_trans;
            [|first [apply setElTranslate_keeps | apply setElHidden_keeps]]);
    try apply setElHidden_keeps;
    destruct el; split; reflexivity.
Qed.

Lemma tick_keeps tk w : keepsTimers w (tick tk w).
Proof.
  unfold tick. cbv zeta.
  destruct (tickPathInfo tk), (tickGhostIO tk);
    try (eapply keepsTimers_trans; [|apply setElTranslate_keeps];
         split; reflexivity).
  match goal with |- context [highlightPortOrShowGhostNode ?a ?b ?c ?d ?e ?f] =>
    pose proof (highlightPortOrShowGhostNode_keeps a b c d e f) as K;
    destruct (highlightPortOrShowGhostNode a b c d e f) as [w2 hp] end.
  simpl in K.
  eapply keepsTimers_trans; [|eapply keepsTimers_trans; [exact K|split; reflexivity]].
  eapply keepsTimers_trans; [|apply removeHighlightedPort_keeps].
  eapply keepsTimers_trans; [|apply setElTranslate_keeps].
  split; reflexivity.
Qed.

Lemma fire_keeps t w : keepsTimers w (fire t w).
Proof.
  unfold fire. destruct (find _ _) as [[? tk]|]; [apply tick_keeps|auto with frame].
Qed.

(* ================================================================= *)
(** ** Calls that come back *)

Lemma comesBack_Done w : comesBack (Done w).
Proof. exists w; left; reflexivity. Qed.

Lemma comesBack_Threw w : comesBack (Threw w).
Proof. exists w; right; reflexivity. Qed.

#[local] Hint Resolve comesBack_Done comesBack_Threw : frame.

Lemma andThen_comesBack o k :
  comesBack o -> (forall w, comesBack (k w)) -> comesBack (o >>= k).
Proof.
  intros [w [H|H]] Hk; subst o; simpl; auto with frame.
Qed.

Lemma scaleWorkflow_comesBack s ev w : comesBack (scaleWorkflow s ev w).
Proof.
  unfold scaleWorkflow. destruct (translateMouseCoords _ _ _); auto with frame.
Qed.

Lemma dispatch_comesBack run :
  (forall h w, comesBack (run h w)) -> forall hs w, comesBack (dispatch run hs w).
Proof.
  intros Hrun hs. induction hs as [|h tl IH]; simpl; intros w.
  - auto with frame.
  - apply andThen_comesBack; [apply Hrun | exact IH].
Qed.

Lemma runLeaf_comesBack fuel data h w : comesBack (runLeaf fuel data h w).
Proof.
  unfold runLeaf, onCreateStep. destruct h, data; auto with frame;
    apply scaleWorkflow_comesBack.
Qed.

Lemma commandLeaf_comesBack fuel event data w :
  comesBack (commandLeaf fuel event data w).
Proof. apply dispatch_comesBack. apply runLeaf_comesBack. Qed.

Lemma onFit_comesBack fuel w : comesBack (onFit fuel w).
Proof. destruct (onFit_returns fuel w) as [w' E]. rewrite E. auto with frame. Qed.

Lemma runHandler_comesBack fuel data h w : comesBack (runHandler fuel data h w).
Proof.
  destruct h; unfold runHandler;
    first [apply runLeaf_comesBack | apply commandLeaf_comesBack
          | apply onFit_comesBack].
Qed.

Lemma command_comesBack fuel event data w : comesBack (command fuel event data w).
Proof. apply dispatch_comesBack. apply runHandler_comesBack. Qed.

Lemma setModelPosition_comesBack fuel obj x y w :
  comesBack (setModelPosition fuel obj x y w).
Proof.
  apply andThen_comesBack; [apply command_comesBack | auto with frame].
Qed.

(* ================================================================= *)
(** ** The boundary timer *)

Lemma tracked_keeps w w' : keepsTimers w w' -> timersTracked w -> timersTracked w'.
Proof. unfold timersTracked. intros [A B] H. rewrite A, B. exact H. Qed.

Lemma clearInterval_tracked w :
  timersTracked w ->
  timers (clearInterval (interval (dragBoundaryInterval w)) w) = [].
Proof.
  unfold timersTracked, clearInterval.
  destruct (interval (dragBoundaryInterval w)) as [t|]; simpl.
  - destruct (timers w) as [|[t0 tk] [|? ?]]; simpl; try discriminate.
    intros H; injection H as ->. rewrite Pos.eqb_refl. reflexivity.
  - intros H. apply map_eq_nil in H. exact H.
Qed.

Lemma noTimer_intro w :
  timers w = [] -> interval (dragBoundaryInterval w) = None -> noTimer w.
Proof.
  intros A B. split; [exact A|]. split; [exact B|].
  intros t. unfold fire. rewrite A. reflexivity.
Qed.

Lemma noTimer_keeps w w' : keepsTimers w w' -> noTimer w -> noTimer w'.
Proof.
  intros [A B] [C [D _]]. apply noTimer_intro; congruence.
Qed.

(** Once the object holds no handle, [getBoundaryZonesXYAxes] changes
    nothing. *)
Lemma getBoundaryZonesXYAxes_idle x y w :
  interval (dragBoundaryInterval w) = None ->
  fst (getBoundaryZonesXYAxes x y w) = w.
Proof.
  intros H. unfold getBoundaryZonesXYAxes. cbv zeta. rewrite H.
  destruct (_ && _); reflexivity.
Qed.

Lemma getBoundaryZonesXYAxes_tracked x y w :
  timersTracked w -> timersTracked (fst (getBoundaryZonesXYAxes x y w)).
Proof.
  intros H. unfold getBoundaryZonesXYAxes. cbv zeta.
  destruct (_ && _); [|exact H]. cbn [fst].
  destruct (interval (dragBoundaryInterval w)) as [t|] eqn:E; [|exact H].
  unfold timersTracked. simpl.
  pose proof (clearInterval_tracked w H) as C. rewrite E in C. simpl in C.
  rewrite C. reflexivity.
Qed.

Lemma setDragBoundaryIntervalToDefault_clears w :
  timersTracked w -> noTimer (setDragBoundaryIntervalToDefault w).
Proof.
  intros H. apply noTimer_intro; unfold setDragBoundaryIntervalToDefault;
    destruct (interval (dragBoundaryInterval w)) as [t|] eqn:E; simpl;
    try reflexivity.
  - pose proof (clearInterval_tracked w H) as C. rewrite E in C. exact C.
  - unfold timersTracked in H. rewrite E in H. apply map_eq_nil in H. exact H.
  - exact E.
Qed.

Lemma setDragBoundaryIntervalIfNecessary_tracked fuel el b pi g w w' :
  timersTracked w ->
  setDragBoundaryIntervalIfNecessary fuel el b pi g w = Some w' ->
  timersTracked w'.
Proof.
  intros H. unfold setDragBoundaryIntervalIfNecessary.
  destruct (resizeDragBoundary _ _ _) as [db|]; [|discriminate].
  destruct b as [bx by_]. cbv zeta.
  change (dragBoundaryInterval (set_dragBoundary db w))
    with (dragBoundaryInterval w).
  destruct (truthy bx || truthy by_); [|intros E; injection E as <-; exact H].
  destruct (_ || _); [|intros E; injection E as <-; exact H].
  intros E; injection E as <-.
  unfold timersTracked. simpl.
  assert (C : timers (clearInterval (interval (dragBoundaryInterval w)) w) = [])
    by exact (clearInterval_tracked w H).
  destruct g as [g|]; simpl;
    destruct (interval (dragBoundaryInterval w)); simpl in *; rewrite ?C;
    try rewrite (map_eq_nil _ _ H); reflexivity.
Qed.

Lemma noTimer_tracked w : noTimer w -> timersTracked w.
Proof.
  intros [A [B _]]. unfold timersTracked. rewrite A, B. reflexivity.
Qed.

Lemma nodeDragMove_tracked fuel dx dy ev el w w' :
  timersTracked w -> endsIn (nodeDragMove fuel dx dy ev el w) w' ->
  timersTracked w'.
Proof.
  intros H. unfold nodeDragMove.
  pose proof (getBoundaryZonesXYAxes_tracked (px ev) (py ev) w H) as H1.
  destruct (getBoundaryZonesXYAxes (px ev) (py ev) w) as [w1 b]. cbn [fst] in H1.
  cbv zeta.
  match goal with |- endsIn (match ?c with _ => _ end) _ -> _ =>
    destruct c as [w2|] eqn:S end.
  - assert (H2 : timersTracked w2).
    { destruct (truthy (fst b) || truthy (snd b)).
      - eapply setDragBoundaryIntervalIfNecessary_tracked; eassumption.
      - injection S as <-. exact H1. }
    destruct (getScaledDeltaXYForDrag _ _ _ _ _ _) as [sd|]; intros E; ends_inv E.
    + eapply tracked_keeps; [|exact H2]. split; reflexivity.
    + exact H2.
  - intros E; ends_inv E.
Qed.

Lemma portDragStart_keeps gh origin w w' :
  endsIn (portDragStart gh origin w) w' -> keepsTimers w w'.
Proof.
  unfold portDragStart. cbv zeta.
  destruct (translateMouseCoords _ _ _); intros E; ends_inv E; split; reflexivity.
Qed.

Lemma portDragMove_tracked fuel dx dy ev target w w' :
  timersTracked w -> endsIn (portDragMove fuel dx dy ev target w) w' ->
  timersTracked w'.
Proof.
  intros H. unfold portDragMove. cbv zeta.
  destruct (translateMouseCoords (px ev) (py ev) w) as [coords|];
    [|intros E; ends_inv E; exact H].
  destruct (translateMouseCoords _ _ w) as [origin|];
    [|intros E; ends_inv E; exact H].
  pose proof (getBoundaryZonesXYAxes_tracked (px ev) (py ev) w H) as H1.
  destruct (getBoundaryZonesXYAxes (px ev) (py ev) w) as [w1 b]. cbn [fst] in H1.
  match goal with |- endsIn (match ?c with _ => _ end) _ -> _ =>
    destruct c as [w2|] eqn:S end.
  - assert (H2 : timersTracked w2).
    { destruct (truthy (fst b) || truthy (snd b)).
      - eapply setDragBoundaryIntervalIfNecessary_tracked; eassumption.
      - injection S as <-. exact H1. }
    destruct (getScaledDeltaXYForDrag _ _ _ _ _ _) as [sd|];
      [|intros E; ends_inv E; exact H2].
    match goal with |- context [highlightPortOrShowGhostNode ?a ?b ?c ?d ?e ?f] =>
      pose proof (highlightPortOrShowGhostNode_keeps a b c d e f) as K;
      destruct (highlightPortOrShowGhostNode a b c d e f) as [w3 hp] end.
    cbn [fst] in K. intros E; ends_inv E.
    eapply tracked_keeps; [|exact H2].
    eapply keepsTimers_trans; [apply removeHighlightedPort_keeps|].
    eapply keepsTimers_trans; [exact K|]. split; reflexivity.
  - intros E; ends_inv E.
Qed.

Lemma releaseOnPort_keeps fuel origin hp w w' :
  endsIn (releaseOnPort fuel origin hp w) w' -> keepsTimers w w'.
Proof.
  unfold releaseOnPort. cbv zeta.
  destruct (String.prefix "in" (connectionId origin));
    (apply andThen_keeps;
     [ intros w0; destruct (negb (findEdge _ _ w));
       [ apply andThen_keeps;
         [apply command_keeps
         |intros w1 w2 _ E; ends_inv E; split; reflexivity]
       | intros E; ends_inv E; auto with frame ]
     | intros w1 w2 _ E; ends_inv E; split; reflexivity ]).
Qed.

Lemma releaseOnGhost_keeps fuel ev origin newIO newPorts newLabels w w' :
  interval (dragBoundaryInterval w) = None ->
  endsIn (releaseOnGhost fuel ev origin newIO newPorts newLabels w) w' ->
  keepsTimers w w'.
Proof.
  intros I. unfold releaseOnGhost. cbv zeta.
  apply andThen_keeps; [apply command_keeps|].
  intros w1 w2 D.
  assert (K1 : keepsTimers w w1) by (apply (command_keeps fuel _ _ _ _ (or_introl D))).
  match goal with |- context [getBoundaryZonesXYAxes ?x ?y ?v] =>
    pose proof (getBoundaryZonesXYAxes_idle x y v) as G;
    destruct (getBoundaryZonesXYAxes x y v) as [w3 b] end.
  cbn [fst] in G. rewrite G by (simpl; destruct K1 as [_ ->]; exact I).
  destruct (translateMouseCoords (px ev) (py ev) _) as [mc_|];
    [|intros E; ends_inv E; split; reflexivity].
  match goal with |- endsIn (match ?a with _ => _ end) _ -> _ => destruct a end;
    [|intros E; ends_inv E; split; reflexivity].
  match goal with |- endsIn (match ?a with _ => _ end) _ -> _ => destruct a end;
    [|intros E; ends_inv E; split; reflexivity].
  intros E.
  eapply keepsTimers_trans; [|eapply andThen_keeps; [| |exact E]].
  - split; reflexivity.
  - intros w4 E4. apply setModelPosition_keeps in E4.
    eapply keepsTimers_trans; [|exact E4]. split; reflexivity.
  - intros w4 w5 _ E5. cbv beta zeta in E5.
    match type of E5 with endsIn (scaleWorkflow ?s ?a ?x) _ =>
      pose proof (scaleWorkflow_keeps s a x w5 E5) as K5 end.
    eapply keepsTimers_trans; [|exact K5]. split; reflexivity.
Qed.

Lemma nodeDragEnd_noTimer fuel model w w' :
  timersTracked w -> endsIn (nodeDragEnd fuel model w) w' -> noTimer w'.
Proof.
  intros H. unfold nodeDragEnd. cbv zeta.
  assert (N : noTimer (setDragBoundaryIntervalToDefault (set_isDragging false w)))
    by (apply setDragBoundaryIntervalToDefault_clears; exact H).
  destruct model as [obj|]; intros E.
  - apply setModelPosition_keeps in E. eapply noTimer_keeps; eassumption.
  - ends_inv E. exact N.
Qed.

Lemma portDragEnd_noTimer fuel ev origin newIO newPorts newLabels w w' :
  timersTracked w ->
  endsIn (portDragEnd fuel ev origin newIO newPorts newLabels w) w' ->
  noTimer w'.
Proof.
  intros H. unfold portDragEnd. cbv zeta.
  set (hp := orElse _ _).
  set (w1 := setDragBoundaryIntervalToDefault _).
  assert (N : noTimer w1)
    by (apply setDragBoundaryIntervalToDefault_clears; exact H).
  intros E. eapply noTimer_keeps; [|exact N].
  eapply andThen_keeps; [| |exact E].
  - intros w2. destruct hp as [p|].
    + apply releaseOnPort_keeps.
    + destruct (ghostIONode w1) as [g|]; [destruct (negb (hidden g))|].
      * apply releaseOnGhost_keeps. apply N.
      * intros E2; ends_inv E2; auto with frame.
      * intros E2; ends_inv E2; auto with frame.
  - intros w2 w3 _ E3. ends_inv E3. split; reflexivity.
Qed.

(** Every step of the object leaves at most the one timer it holds the
    handle of. *)
Lemma step_tracked fuel e w w' :
  timersTracked w -> endsIn (step fuel e w) w' -> timersTracked w'.
Proof.
  intros H. destruct e; simpl; intros E.
  - eapply tracked_keeps; [eapply mousewheel_keeps; exact E | exact H].
  - ends_inv E. exact H.
  - eapply nodeDragMove_tracked; eassumption.
  - apply noTimer_tracked. eapply nodeDragEnd_noTimer; eassumption.
  - ends_inv E. exact H.
  - ends_inv E. exact H.
  - ends_inv E. exact H.
  - eapply tracked_keeps; [eapply portDragStart_keeps; exact E | exact H].
  - eapply portDragMove_tracked; eassumption.
  - apply noTimer_tracked. eapply portDragEnd_noTimer; eassumption.
  - ends_inv E. eapply tracked_keeps; [apply fire_keeps | exact H].
  - eapply tracked_keeps; [eapply command_keeps; exact E | exact H].
  - eapply tracked_keeps; [eapply scaleWorkflow_keeps; exact E | exact H].
Qed.

Lemma run_tracked fuel es : forall w w',
  timersTracked w -> run fuel es w = Some w' -> timersTracked w'.
Proof.
  induction es as [|e tl IH]; simpl; intros w w' H R.
  - injection R as <-. exact H.
  - destruct (step fuel e w) as [w1|w1|] eqn:S; try discriminate;
      (eapply IH; [|exact R]; eapply step_tracked; [exact H|]);
      [left | right]; exact S.
Qed.

Lemma reachable_tracked fuel e w : reachable fuel e w -> timersTracked w.
Proof.
  intros [es R]. eapply run_tracked; [|exact R]. reflexivity.
Qed.

Lemma nodeDragEnd_comesBack fuel model w : comesBack (nodeDragEnd fuel model w).
Proof.
  unfold nodeDragEnd. destruct model; [apply setModelPosition_comesBack|].
  auto with frame.
Qed.

Lemma releaseOnPort_comesBack fuel origin hp w :
  comesBack (releaseOnPort fuel origin hp w).
Proof.
  unfold releaseOnPort. cbv zeta.
  destruct (String.prefix "in" (connectionId origin));
    (apply andThen_comesBack; [|auto with frame];
     destruct (negb (findEdge _ _ w)); [|auto with frame];
     apply andThen_comesBack; [apply command_comesBack|auto with frame]).
Qed.

Lemma releaseOnGhost_comesBack fuel ev origin newIO newPorts newLabels w :
  comesBack (releaseOnGhost fuel ev origin newIO newPorts newLabels w).
Proof.
  unfold releaseOnGhost. cbv zeta.
  apply andThen_comesBack; [apply command_comesBack|]. intros w1.
  destruct (getBoundaryZonesXYAxes _ _ _) as [w3 b].
  destruct (translateMouseCoords (px ev) (py ev) _); [|auto with frame].
  match goal with |- comesBack (match ?a with _ => _ end) => destruct a end;
    [|auto with frame].
  match goal with |- comesBack (match ?a with _ => _ end) => destruct a end;
    [|auto with frame].
  apply andThen_comesBack; [apply setModelPosition_comesBack|].
  intros w4. apply scaleWorkflow_comesBack.
Qed.

Lemma portDragEnd_comesBack fuel ev origin newIO newPorts newLabels w :
  comesBack (portDragEnd fuel ev origin newIO newPorts newLabels w).
Proof.
  unfold portDragEnd. cbv zeta.
  apply andThen_comesBack; [|auto with frame].
  destruct (orElse _ _); [apply releaseOnPort_comesBack|].
  destruct (ghostIONode _) as [g|]; [|auto with frame].
  destruct (negb (hidden g)); [apply releaseOnGhost_comesBack|auto with frame].
Qed.

(** C7.  In any state the object can reach, the end callback of a node drag
    and that of a port drag come back, wherever the pointer is, and however
    they end no boundary timer is left: none runs, no handle is held, and a
    late firing changes nothing.  The pan callbacks never touch the
    timer. *)
Theorem drag_end_clears_boundary_timer (fuel : nat) (e : Env) (w : Workflow) :
  reachable fuel e w ->
  (forall model,
      comesBack (nodeDragEnd fuel model w) /\
      forall w', endsIn (nodeDragEnd fuel model w) w' -> noTimer w') /\
  (forall ev origin newIO newPorts newLabels,
      comesBack (portDragEnd fuel ev origin newIO newPorts newLabels w) /\
      forall w', endsIn (portDragEnd fuel ev origin newIO newPorts newLabels w) w'
                 -> noTimer w') /\
  (forall dx dy, keepsTimers w (panStart w) /\ keepsTimers w (panMove dx dy w)
                 /\ panEnd w = w).
Proof.
  intros R. apply reachable_tracked in R.
  split; [|split].
  - intros model. split; [apply nodeDragEnd_comesBack|].
    intros w'. apply nodeDragEnd_noTimer. exact R.
  - intros ev origin newIO newPorts newLabels. split;
      [apply portDragEnd_comesBack|].
    intros w'. apply portDragEnd_noTimer. exact R.
  - intros dx dy. repeat split.
Qed.

(** The theorem at work: [A] is dragged into the right band, the timer
    runs, and the drag ends with the pointer still there. *)
Lemma drag_end_clears_boundary_timer_witness :
  exists w,
    reachable 10 page w /\
    map fst (timers w) = [1%positive] /\
    forall w', endsIn (nodeDragEnd 10 (Some "A"%string) w) w' -> noTimer w'.
Proof.
  eexists. split; [|split].
  - exists (twoSteps ++ dragIntoBand). vm_compute. reflexivity.
  - reflexivity.
  - intros w'.
    match goal with |- endsIn (nodeDragEnd _ _ ?w) _ -> _ =>
      apply (proj1 (drag_end_clears_boundary_timer 10 page w
                      (ex_intro _ (twoSteps ++ dragIntoBand) eq_refl)))
    end.
Defined.

(* ================================================================= *)
(** ** Back in the interior *)

Lemma clearInterval_removes t w :
  ~ In t (map fst (timers (clearInterval (Some t) w))).
Proof.
  unfold clearInterval; simpl. induction (timers w) as [|[t0 tk] tl IH]; simpl.
  - intros [].
  - destruct (Pos.eqb t0 t) eqn:E; simpl; [exact IH|].
    intros [A|A]; [|exact (IH A)].
    subst t0. rewrite Pos.eqb_refl in E. discriminate.
Qed.

(** C5, as the code has it.  While a boundary timer runs, a pointer in the
    interior on both axes makes [getBoundaryZonesXYAxes] report no boundary,
    stop the timer and reset the axis flags, the handle and the
    timer-highlighted port.  The accumulated offsets are kept as they
    are. *)
Theorem interior_stops_timer_keeps_offsets (x y : Q) (t : TimerId)
  (w : Workflow) :
  let r := workflowBoundingClientRect w in
  interval (dragBoundaryInterval w) = Some t ->
  left r + dragBoundary w <= x -> x <= right r - dragBoundary w ->
  top r + dragBoundary w <= y -> y <= bottom r - dragBoundary w ->
  let w' := fst (getBoundaryZonesXYAxes x y w) in
  snd (getBoundaryZonesXYAxes x y w) = (0%Z, 0%Z) /\
  ~ In t (map fst (timers w')) /\
  hitX (dragBoundaryInterval w') = false /\
  hitY (dragBoundaryInterval w') = false /\
  interval (dragBoundaryInterval w') = None /\
  highlightedPort (dragBoundaryInterval w') = None /\
  xOffset (dragBoundaryInterval w') = xOffset (dragBoundaryInterval w) /\
  yOffset (dragBoundaryInterval w') = yOffset (dragBoundaryInterval w).
Proof.
  intros r I Hl Hr Ht Hb.
  apply Qlt_bool_false in Hl, Hr, Ht, Hb.
  unfold getBoundaryZonesXYAxes. cbv zeta. fold r.
  rewrite Hl, Hr, Ht, Hb, I. cbn [negb andb fst snd].
  split; [reflexivity|]. split; [apply clearInterval_removes|].
  repeat split.
Qed.

(** A drag that reached the right band, with one firing of its timer
    behind it. *)
Lemma interior_stops_timer_keeps_offsets_witness :
  exists w,
    run 10 (twoSteps ++ dragIntoBand ++ [TimerFires 1%positive]) (create page)
    = Some w /\
    interval (dragBoundaryInterval w) = Some 1%positive /\
    xOffset (dragBoundaryInterval w) = 5 /\
    let w' := fst (getBoundaryZonesXYAxes 500 300 w) in
    snd (getBoundaryZonesXYAxes 500 300 w) = (0%Z, 0%Z) /\
    ~ In 1%positive (map fst (timers w')) /\
    hitX (dragBoundaryInterval w') = false /\
    hitY (dragBoundaryInterval w') = false /\
    interval (dragBoundaryInterval w') = None /\
    highlightedPort (dragBoundaryInterval w') = None /\
    xOffset (dragBoundaryInterval w') = xOffset (dragBoundaryInterval w) /\
    yOffset (dragBoundaryInterval w') = yOffset (dragBoundaryInterval w).
Proof.
  eexists. split; [vm_compute; reflexivity|].
  split; [reflexivity|]. split; [reflexivity|].
  match goal with |- let w' := fst (getBoundaryZonesXYAxes _ _ ?w) in _ =>
    apply (interior_stops_timer_keeps_offsets 500 300 1%positive w eq_refl)
  end; vm_compute; discriminate.
Defined.

(** C5, as the claim has it, fails: [A] is dragged into the right band, the
    timer fires once, and the pointer comes back to (500, 300), the middle
    of the canvas.  The timer is gone but [xOffset] is still the 5 units the
    firing added, not its default 0. *)
Lemma interior_keeps_offsets_counterexample :
  exists w,
    run 10 (twoSteps ++ dragIntoBand
            ++ [TimerFires 1%positive; NodeDragMove 400 200 (mkPoint 500 300) "A"])
        (create page) = Some w /\
    timers w = [] /\
    interval (dragBoundaryInterval w) = None /\
    xOffset (dragBoundaryInterval w) = 5 /\
    ~ xOffset (dragBoundaryInterval w) == xOffset dragBoundaryIntervalDefault.
Proof.
  eexists. split; [vm_compute; reflexivity|].
  repeat split. vm_compute. discriminate.
Qed.

(* ================================================================= *)
(** ** The width of the boundary band *)

(** What the loop guarantees when it ends: the left and right bands do not
    meet and leave more than half of the width free. *)
Lemma resizeDragBoundary_post fuel r : forall db db',
  resizeDragBoundary fuel r db = Some db' ->
  boundaryAreasTooWide r db' = false.
Proof.
  induction fuel as [|n IH]; intros db db'; simpl;
    destruct (boundaryAreasTooWide r db) eqn:E; try discriminate.
  - intros H; injection H as <-. exact E.
  - apply IH.
  - intros H; injection H as <-. exact E.
Qed.

(** C6, the code at the failing input: on a canvas 1000 wide and 60 high
    the loop, which only looks at [left] and [right], keeps the band at 50,
    and the drag that called it goes on with a top band [y < 50] and a
    bottom band [y > 10] that overlap. *)
Theorem resizeDragBoundary_ignores_height :
  (forall fuel, resizeDragBoundary fuel (mkRect 0 1000 0 60) 50 = Some 50) /\
  exists w,
    run 0 [NodeDragStart "A"; NodeDragMove 0 (-70) (mkPoint 500 30) "A"]
        (create lowPage) = Some w /\
    workflowBoundingClientRect w = mkRect 0 1000 0 60 /\
    dragBoundary w = 50 /\
    bottom (workflowBoundingClientRect w) - dragBoundary w
    < top (workflowBoundingClientRect w) + dragBoundary w.
Proof.
  split.
  - intros [|n]; reflexivity.
  - eexists. split; [vm_compute; reflexivity|].
    repeat split.
Qed.

(* ================================================================= *)
(** ** Port connection resolver *)

Lemma insertByDistance_perm p l : Permutation (insertByDistance p l) (p :: l).
Proof.
  induction l as [|q tl IH]; simpl; [reflexivity|].
  destruct (Qlt_bool (distance q) (distance p)); [|reflexivity].
  rewrite IH. apply perm_swap.
Qed.

Lemma sortByDistance_perm l : Permutation (sortByDistance l) l.
Proof.
  induction l as [|p tl IH]; simpl; [reflexivity|].
  rewrite insertByDistance_perm. apply perm_skip. exact IH.
Qed.

Lemma insertByDistance_sorted p l :
  StronglySorted closerEq l -> StronglySorted closerEq (insertByDistance p l).
Proof.
  induction l as [|q tl IH]; simpl; intros H.
  - constructor; constructor.
  - inversion H as [|? ? Hs Hf]; subst.
    destruct (Qlt_bool (distance q) (distance p)) eqn:E.
    + constructor; [apply IH; exact Hs|].
      apply Forall_forall. intros x Hx.
      apply (Permutation_in _ (insertByDistance_perm p tl)) in Hx.
      destruct Hx as [<-|Hx].
      * apply Qlt_bool_iff in E. apply Qlt_le_weak. exact E.
      * rewrite Forall_forall in Hf. apply Hf. exact Hx.
    + apply Qlt_bool_false in E. constructor; [exact H|].
      constructor; [exact E|].
      rewrite Forall_forall in Hf |- *. intros x Hx.
      eapply Qle_trans; [exact E | apply Hf; exact Hx].
Qed.

Lemma sortByDistance_sorted l : StronglySorted closerEq (sortByDistance l).
Proof.
  induction l as [|p tl IH]; simpl; [constructor|].
  apply insertByDistance_sorted. exact IH.
Qed.


Lemma setDragBoundaryIntervalToDefault_interval w :
  interval (dragBoundaryInterval (setDragBoundaryIntervalToDefault w)) = None.
Proof.
  unfold setDragBoundaryIntervalToDefault.
  destruct (interval (dragBoundaryInterval w)) eqn:E; simpl; [reflexivity|exact E].
Qed.

(** What [setDragBoundaryIntervalToDefault] leaves alone. *)
Lemma setDragBoundaryIntervalToDefault_frame w :
  let w' := setDragBoundaryIntervalToDefault w in
  env w' = env w /\ scale w' = scale w /\ matrix w' = matrix w /\
  labels w' = labels w /\ handlers w' = handlers w /\
  emitted w' = emitted w /\ modelCalls w' = modelCalls w /\
  nodes w' = nodes w /\ ports w' = ports w /\ edges w' = edges w /\
  ghostIONode w' = ghostIONode w /\ portDrag w' = portDrag w /\
  dragBoundary w' = dragBoundary w /\
  workflowBoundingClientRect w' = workflowBoundingClientRect w.
Proof.
  unfold setDragBoundaryIntervalToDefault.
  destruct (interval (dragBoundaryInterval w)); cbv zeta; repeat split.
Qed.

(** C8.  A release with a port highlighted whose pair, input side as the
    destination, is already joined by an edge returns without emitting
    anything, without a new edge element or node, and without a call into
    the data model. *)
Theorem release_on_joined_pair_is_noop (fuel : nat) (ev : Point)
  (origin highlighted : PortEl) (newIO : NodeEl) (newPorts : list PortEl)
  (newLabels : list Matrix) (w : Workflow) :
  releasePort w = Some highlighted ->
  findEdge (fst (connectionEnds origin highlighted))
           (snd (connectionEnds origin highlighted)) w = true ->
  exists w',
    portDragEnd fuel ev origin newIO newPorts newLabels w = Done w' /\
    emitted w' = emitted w /\ edges w' = edges w /\
    modelCalls w' = modelCalls w /\ nodes w' = nodes w.
Proof.
  unfold releasePort, connectionEnds, portDragEnd. intros H F.
  rewrite H. cbv zeta.
  set (w1 := setDragBoundaryIntervalToDefault _).
  assert (Fr := setDragBoundaryIntervalToDefault_frame
                  (set_isDragging false (setPdHighlightedPort (Some highlighted) w))).
  cbv zeta in Fr. fold w1 in Fr.
  destruct Fr as (_ & _ & _ & _ & _ & He & Hm & Hn & _ & Hed & _).
  change (emitted w1 = emitted w) in He.
  change (modelCalls w1 = modelCalls w) in Hm.
  change (nodes w1 = nodes w) in Hn.
  change (edges w1 = edges w) in Hed.
  clearbody w1.
  unfold releaseOnPort.
  destruct (String.prefix "in" (connectionId origin)); cbn [fst snd] in F;
    cbv zeta; unfold findEdge in *; rewrite Hed, F; simpl;
    (eexists; split; [reflexivity|]); simpl; auto.
Qed.

(** The theorem at work: the drag from [A]'s output onto [B]'s input is
    made a second time. *)
Lemma release_on_joined_pair_is_noop_witness :
  exists w,
    run 10 (twoSteps ++ dragOntoB ++ firstn 2 dragOntoB) (create page) = Some w /\
    releasePort w = Some (setDistance 10 (setWfCTM (mkPoint 350 100) bIn)) /\
    findEdge "out/A/o" "in/B/i" w = true /\
    exists w',
      portDragEnd 10 (mkPoint 340 100) aOut newOutput [] [] w = Done w' /\
      emitted w' = emitted w /\ edges w' = edges w /\
      modelCalls w' = modelCalls w /\ nodes w' = nodes w.
Proof.
  eexists. split; [vm_compute; reflexivity|].
  split; [reflexivity|]. split; [reflexivity|].
  match goal with |- exists w', portDragEnd _ _ _ _ _ _ ?w = _ /\ _ =>
    exact (release_on_joined_pair_is_noop 10%nat (mkPoint 340 100) aOut
             (setDistance 10 (setWfCTM (mkPoint 350 100) bIn))
             newOutput [] [] w eq_refl eq_refl)
  end.
Defined.









(* ================================================================= *)
(** ** Auto-arrange *)

Ltac expose_connections :=
  cbn [fold_left registerConnection sourceId destinationId nodeAndPort append
       split Ascii.eqb Bool.eqb nth_error edgeBetween diamond chain].

Ltac by_port_names :=
  repeat match goal with
         | |- context [strictEq ?a ?b] => destruct (strictEq a b)
         end.

Lemma diamond_zones n p1 q1 p2 q2 p3 q3 p4 q4 :
  idToZoneMap (3 + n) (diamond p1 q1 p2 q2 p3 q3 p4 q4)
  = Some [("A", Fin 0); ("B", Fin 1); ("C", Fin 1); ("D", Fin 2)]%string.
Proof.
  unfold idToZoneMap. expose_connections. by_port_names; vm_compute; reflexivity.
Qed.





Lemma traceEach_unfold fuel tracker l : forall visited,
  (fix each (l : list string) (visited : list string)
     : option (list Depth * list string) :=
     match l with
     | [] => Some ([], visited)
     | e :: tl =>
         match trace fuel tracker e visited with
         | None => None
         | Some (d, visited) =>
             match each tl visited with
             | None => None
             | Some (ds, visited) => Some (d :: ds, visited)
             end
         end
     end) l visited
  = traceEach fuel tracker l visited.
Proof.
  induction l as [|e tl IH]; intros visited; [reflexivity|]. cbn [traceEach].
  destruct (trace fuel tracker e visited) as [[d v]|]; [|reflexivity].
  rewrite IH. reflexivity.
Qed.

(** C3.  On the diamond, whatever the ports, the handler comes to its end
    once the trace may go three calls deep: the trace from [D] visits each
    of the four nodes once, and [D]'s zone, 2, is above the zone of [B] and
    that of [C], both 1. *)
Theorem arrange_diamond_terminates (n : nat) (found : string -> bool)
  (width height : Q) (p1 q1 p2 q2 p3 q3 p4 q4 : string) :
  let connections := diamond p1 q1 p2 q2 p3 q3 p4 q4 in
  exists m pls zb zc zd,
    idToZoneMap (3 + n) connections = Some m /\
    arrange (3 + n) found width height connections = Some pls /\
    trace (3 + n) (fst (fold_left registerConnection connections ([], [])))
          "D" [] = Some (Fin 3, ["D"; "B"; "A"; "C"]%string) /\
    getZone m "B" = Some zb /\ getZone m "C" = Some zc /\
    getZone m "D" = Some zd /\ dlt zb zd /\ dlt zc zd.
Proof.
  intros connections. unfold connections.
  assert (A : exists pls,
             arrange (3 + n) found width height
                     (diamond p1 q1 p2 q2 p3 q3 p4 q4) = Some pls).
  { unfold arrange. rewrite diamond_zones.
    destruct (fold_left _ _ _). eexists; reflexivity. }
  destruct A as [pls A].
  eexists. exists pls, (Fin 1), (Fin 1), (Fin 2).
  split; [apply diamond_zones|]. split; [exact A|].
  split; [expose_connections; reflexivity|].
  repeat split; simpl; lia.
Qed.



(* ================================================================= *)
(** * Further properties of the code *)

(* ================================================================= *)
(** ** Viewport *)

(** X1.  When [scaleWorkflow] returns for a factor [s] other than 0, every
    label keeps its translation and has the counter-scale
    [1 + (1 - s) / (2 s)] on both axes; a label is therefore drawn at
    [(s + 1) / 2] of its size. *)
Theorem scaleWorkflow_counter_scales_labels (s : Q) (ev : option Point)
  (w w' : Workflow) :
  ~ s == 0 ->
  scaleWorkflow s ev w = Done w' ->
  let k := 1 + (1 - s) / (s * 2) in
  labels w' = map (setLabelScale k) (labels w) /\
  Forall (fun l => ma l = k /\ md l = k) (labels w') /\
  map me (labels w') = map me (labels w) /\
  map mf (labels w') = map mf (labels w) /\
  k * s == (s + 1) / 2.
Proof.
  intros Hs. unfold scaleWorkflow.
  destruct (translateMouseCoords _ _ _); [|discriminate].
  intros H; injection H as <-. cbv zeta. simpl.
  split; [reflexivity|]. split; [|split; [|split]].
  - apply Forall_forall. intros l Hl. apply in_map_iff in Hl.
    destruct Hl as [l0 [<- _]]. split; reflexivity.
  - rewrite map_map. reflexivity.
  - rewrite map_map. reflexivity.
  - field. exact Hs.
Qed.

Lemma scaleWorkflow_counter_scales_labels_witness :
  scaleWorkflow (1 # 2) None oneLabel = Done oneLabelHalved /\
  labels oneLabelHalved
  = map (setLabelScale (1 + (1 - (1 # 2)) / ((1 # 2) * 2))) (labels oneLabel) /\
  (1 + (1 - (1 # 2)) / ((1 # 2) * 2)) * (1 # 2) == ((1 # 2) + 1) / 2.
Proof.
  assert (N : ~ (1 # 2) == 0) by (vm_compute; discriminate).
  assert (E : scaleWorkflow (1 # 2) None oneLabel = Done oneLabelHalved)
    by (vm_compute; reflexivity).
  destruct (scaleWorkflow_counter_scales_labels (1 # 2) None oneLabel
              oneLabelHalved N E) as (A & _ & _ & _ & B).
  split; [exact E|]. split; [exact A | exact B].
Defined.





(** X3.  However a wheel event ends, it leaves the stored scale in the zoom
    band if it found it there. *)
Theorem mousewheel_keeps_zoom_band (deltaY : Q) (ev : Point) (w w' : Workflow) :
  inZoomBand (scale w) ->
  endsIn (mousewheel deltaY ev w) w' ->
  inZoomBand (scale w').
Proof.
  intros B. unfold mousewheel.
  destruct (isDragging w); [intros E; ends_inv E; exact B|].
  destruct (Qle_bool _ _) eqn:L; [intros E; ends_inv E; exact B|].
  destruct (Qlt_bool 3 _) eqn:U; [intros E; ends_inv E; exact B|].
  apply Qle_bool_false in L. apply Qlt_bool_false in U.
  cbn [orb]. unfold scaleWorkflow.
  destruct (translateMouseCoords _ _ _); intros E; ends_inv E; split; assumption.
Qed.

Lemma mousewheel_keeps_zoom_band_witness :
  inZoomBand (scale (create page)) /\
  endsIn (mousewheel 100 (mkPoint 300 200) (create page)) wheeled /\
  scale wheeled = 1 + 100 / 500 /\
  inZoomBand (scale wheeled).
Proof.
  assert (B : inZoomBand (scale (create page)))
    by (split; vm_compute; [reflexivity | discriminate]).
  assert (E : endsIn (mousewheel 100 (mkPoint 300 200) (create page)) wheeled)
    by (left; vm_compute; reflexivity).
  split; [exact B|]. split; [exact E|]. split; [reflexivity|].
  exact (mousewheel_keeps_zoom_band 100 (mkPoint 300 200) (create page)
           wheeled B E).
Defined.

(** X4.  The [workflow.fit] handler always returns.  It leaves the group
    with a pure translation, scale 1 on both axes, and does not touch the
    stored scale, the labels or the hub: nothing is subscribed to the
    [workflow.scale] command it sends. *)
Theorem onFit_resets_matrix_scale_only (fuel : nat) (w : Workflow) :
  exists w',
    onFit fuel w = Done w' /\
    ma (matrix w') == 1 /\ md (matrix w') == 1 /\
    mb (matrix w') == 0 /\ mc (matrix w') == 0 /\
    scale w' = scale w /\ labels w' = labels w /\ handlers w' = handlers w /\
    emitted w' = mkEmission "workflow.scale" "" :: emitted w.
Proof.
  unfold onFit, commandLeaf. rewrite no_listener_scale. cbn [dispatch andThen].
  eexists. split; [reflexivity|]. simpl.
  repeat split; ring.
Qed.

(** Mapping a point through a matrix and back through its inverse gives the
    point. *)
Lemma inverse_left (m : Matrix) (p : Point) inv :
  inverse m = Some inv -> Peq (matrixTransform (matrixTransform p m) inv) p.
Proof.
  unfold inverse. destruct (Qeq_bool (det m) 0) eqn:E; [discriminate|].
  intros H; injection H as <-.
  assert (D : ~ det m == 0) by (intro A; apply Qeq_bool_iff in A; congruence).
  unfold det in D.
  unfold Peq, matrixTransform, det; simpl. split; field; exact D.
Qed.

(** X5.  [translateMouseCoords] is the inverse of the way the canvas is
    drawn: it returns exactly when the screen transform of the group is
    invertible, the point it returns for a screen point is drawn at that
    screen point, and for the screen image of a canvas point it returns
    that canvas point. *)
Theorem translateMouseCoords_inverts_screen (w : Workflow) :
  (translateMouseCoords 0 0 w = None <-> det (screenCTM w) == 0) /\
  (forall x y c,
      translateMouseCoords x y w = Some c ->
      Peq (matrixTransform c (screenCTM w)) (mkPoint x y)) /\
  (forall c, ~ det (screenCTM w) == 0 ->
      let s := matrixTransform c (screenCTM w) in
      exists c', translateMouseCoords (px s) (py s) w = Some c' /\ Peq c' c).
Proof.
  unfold translateMouseCoords. split; [|split].
  - unfold inverse. destruct (Qeq_bool (det (screenCTM w)) 0) eqn:E.
    + apply Qeq_bool_iff in E. split; auto.
    + split; [discriminate|]. intros A. apply Qeq_bool_iff in A. congruence.
  - intros x y c. destruct (inverse (screenCTM w)) as [inv|] eqn:I; [|discriminate].
    intros H; injection H as <-. exact (inverse_right _ _ _ I).
  - intros c D. rewrite (inverse_some _ D). eexists. split; [reflexivity|].
    pose proof (inverse_left (screenCTM w) c _ (inverse_some _ D)) as L.
    destruct (matrixTransform c (screenCTM w)) as [sx sy]. exact L.
Qed.

(* ================================================================= *)
(** ** Boundary auto-scroll *)

Lemma halved_step k db : halved (S k) db = halved k (db / 2).
Proof. unfold halved. rewrite Nat.iter_succ_r. reflexivity. Qed.

Lemma boundaryAreasTooWide_false r db :
  boundaryAreasTooWide r db = false <->
  left r + db < right r - db /\ left r + db * 4 < right r.
Proof.
  unfold boundaryAreasTooWide. rewrite orb_false_iff, !Qle_bool_false.
  reflexivity.
Qed.

(** X6.  When the resizing loop of [setDragBoundaryIntervalIfNecessary]
    ends, the band is the old one halved some number of times, the left and
    right bands do not meet, and together they take less than half of the
    width. *)
Theorem resizeDragBoundary_result (fuel : nat) (r : Rect) (db db' : Q) :
  resizeDragBoundary fuel r db = Some db' ->
  (exists k, (k <= fuel)%nat /\ db' = halved k db) /\
  left r + db' < right r - db' /\
  left r + db' * 4 < right r.
Proof.
  revert db. induction fuel as [|n IH]; intros db; simpl;
    destruct (boundaryAreasTooWide r db) eqn:E; try discriminate.
  - intros H; injection H as <-. split; [exists O; split; [lia|reflexivity]|].
    apply boundaryAreasTooWide_false. exact E.
  - intros H. destruct (IH _ H) as [[k [Hk Hd]] P]. split; [|exact P].
    exists (S k). split; [lia|]. rewrite halved_step. exact Hd.
  - intros H; injection H as <-. split; [exists O; split; [lia|reflexivity]|].
    apply boundaryAreasTooWide_false. exact E.
Qed.

Lemma resizeDragBoundary_result_witness :
  resizeDragBoundary 5 (mkRect 0 150 0 600) 50 = Some (halved 1 50) /\
  (exists k, (k <= 5)%nat /\ halved 1 50 = halved k 50) /\
  0 + halved 1 50 < 150 - halved 1 50 /\
  0 + halved 1 50 * 4 < 150.
Proof.
  split; [reflexivity|].
  exact (resizeDragBoundary_result 5 (mkRect 0 150 0 600) 50 (halved 1 50) eq_refl).
Defined.

Lemma pow2_pos n : 0 < pow2 n.
Proof. induction n; simpl; [reflexivity | lra]. Qed.

Lemma pow2_above n : inject_Z (Z.of_nat n) < pow2 n.
Proof.
  induction n as [|n IH].
  - reflexivity.
  - rewrite Nat2Z.inj_succ. unfold Z.succ. rewrite inject_Z_plus.
    cbn [pow2]. pose proof (pow2_pos n).
    assert (1 <= pow2 n).
    { clear IH. induction n; simpl; [apply Qle_refl|].
      pose proof (pow2_pos n). assert (0 < pow2 n) by assumption.
      specialize (IHn H1). lra. }
    change (inject_Z 1) with 1. lra.
Qed.

Lemma pow2_archimedean (q : Q) : exists n, q < pow2 n.
Proof.
  destruct (Qarchimedean q) as [p Hp].
  exists (Pos.to_nat p). eapply Qlt_trans; [exact Hp|].
  pose proof (pow2_above (Pos.to_nat p)) as H.
  rewrite positive_nat_Z in H. exact H.
Qed.

Lemma resizeDragBoundary_enough r n : forall db,
  0 <= db -> db * 4 < pow2 n * width r ->
  exists db', resizeDragBoundary n r db = Some db'.
Proof.
  unfold width. induction n as [|n IH]; intros db P H; simpl;
    destruct (boundaryAreasTooWide r db) eqn:E; try (eexists; reflexivity).
  - exfalso. unfold boundaryAreasTooWide in E. apply orb_true_iff in E.
    rewrite !Qle_bool_iff in E. cbn [pow2] in H. destruct E; lra.
  - apply IH; [apply Qle_shift_div_l; lra|].
    cbn [pow2] in H.
    assert (db / 2 * 4 == db * 2) by field. lra.
Qed.

Lemma resizeDragBoundary_never r : forall fuel db,
  right r <= left r -> 0 <= db -> resizeDragBoundary fuel r db = None.
Proof.
  induction fuel as [|n IH]; intros db W P; simpl;
    (assert (E : boundaryAreasTooWide r db = true);
     [unfold boundaryAreasTooWide; apply orb_true_iff; right;
      apply Qle_bool_iff; lra|rewrite E]).
  - reflexivity.
  - apply IH; [exact W|]. apply Qle_shift_div_l; lra.
Qed.

(** X7.  The resizing loop ends exactly on a canvas of positive width: there
    it ends after finitely many halvings whatever the band, which is not
    negative, and on a canvas whose [right] is not beyond its [left] it
    never ends. *)
Theorem resizeDragBoundary_ends_iff_wide (r : Rect) (db : Q) :
  0 <= db ->
  (left r < right r -> exists fuel db', resizeDragBoundary fuel r db = Some db') /\
  (right r <= left r -> forall fuel, resizeDragBoundary fuel r db = None).
Proof.
  intros P. split.
  - intros W. destruct (pow2_archimedean (db * 4 / width r)) as [n Hn].
    exists n. apply resizeDragBoundary_enough; [exact P|].
    assert (0 < width r) by (unfold width; lra).
    apply (Qmult_lt_compat_r _ _ (width r)) in Hn; [|assumption].
    setoid_replace (db * 4 / width r * width r) with (db * 4) in Hn
      by (field; lra).
    exact Hn.
  - intros W fuel. apply resizeDragBoundary_never; assumption.
Qed.

Lemma resizeDragBoundary_ends_iff_wide_witness :
  0 <= 50 /\
  (exists fuel db', resizeDragBoundary fuel (mkRect 0 150 0 600) 50 = Some db') /\
  (forall fuel, resizeDragBoundary fuel (mkRect 200 200 0 600) 50 = None).
Proof.
  assert (P : 0 <= 50) by (vm_compute; discriminate).
  split; [exact P|]. split.
  - apply (proj1 (resizeDragBoundary_ends_iff_wide (mkRect 0 150 0 600) 50 P)).
    vm_compute. reflexivity.
  - apply (proj2 (resizeDragBoundary_ends_iff_wide (mkRect 200 200 0 600) 50 P)).
    vm_compute. discriminate.
Defined.

(** X8.  [getBoundaryZonesXYAxes] reports, for each axis, -1 exactly when
    the pointer is before the near band's inner edge, 1 exactly when it is
    not but is beyond the far band's inner edge, and 0 exactly in between;
    where the two bands of an axis overlap, the near one wins. *)
Theorem getBoundaryZonesXYAxes_classifies (x y : Q) (w : Workflow) :
  let r := workflowBoundingClientRect w in
  let db := dragBoundary w in
  let b := snd (getBoundaryZonesXYAxes x y w) in
  (fst b = (-1)%Z <-> x < left r + db) /\
  (fst b = 1%Z <-> left r + db <= x /\ right r - db < x) /\
  (fst b = 0%Z <-> left r + db <= x /\ x <= right r - db) /\
  (snd b = (-1)%Z <-> y < top r + db) /\
  (snd b = 1%Z <-> top r + db <= y /\ bottom r - db < y) /\
  (snd b = 0%Z <-> top r + db <= y /\ y <= bottom r - db).
Proof.
  intros r db b. unfold b, getBoundaryZonesXYAxes. cbv zeta. fold r db.
  cbn [snd fst]. clear b. clearbody r db.
  destruct (Qlt_bool x (left r + db)) eqn:L,
           (Qlt_bool (right r - db) x) eqn:R,
           (Qlt_bool y (top r + db)) eqn:T,
           (Qlt_bool (bottom r - db) y) eqn:B;
    repeat match goal with
           | H : Qlt_bool _ _ = true |- _ => apply Qlt_bool_iff in H
           | H : Qlt_bool _ _ = false |- _ => apply Qlt_bool_false in H
           end;
    repeat split; intros; try reflexivity; try discriminate; try lra;
    repeat match goal with H : _ /\ _ |- _ => destruct H end;
    try lra; try (exfalso; lra).
Qed.

(** X9.  In every state the object can reach at most one boundary timer is
    running, and one is running exactly when the object holds a handle. *)
Theorem at_most_one_boundary_timer (fuel : nat) (e : Env) (w : Workflow) :
  reachable fuel e w ->
  (List.length (timers w) <= 1)%nat /\
  (timers w = [] <-> interval (dragBoundaryInterval w) = None).
Proof.
  intros R. apply reachable_tracked in R. unfold timersTracked in R.
  destruct (interval (dragBoundaryInterval w)) as [t|].
  - destruct (timers w) as [|a [|b tl]]; try discriminate. split; [simpl; lia|].
    split; discriminate.
  - apply map_eq_nil in R. rewrite R. split; [simpl; lia|]. split; reflexivity.
Qed.

Lemma at_most_one_boundary_timer_witness :
  reachable 10 page inRightBand /\
  (List.length (timers inRightBand) <= 1)%nat /\
  (timers inRightBand = [] <-> interval (dragBoundaryInterval inRightBand) = None).
Proof.
  assert (R : reachable 10 page inRightBand)
    by (exists (twoSteps ++ dragIntoBand); vm_compute; reflexivity).
  split; [exact R|]. exact (at_most_one_boundary_timer 10 page inRightBand R).
Defined.

Lemma elPosition_setElTranslate el x y w :
  elExists el w -> elPosition el (setElTranslate el x y w) = mkPoint x y.
Proof.
  destruct el as [id|]; unfold elExists, elPosition, setElTranslate.
  - change (nodes (set_nodes (map (moveNode id x y) (nodes w)) w))
      with (map (moveNode id x y) (nodes w)).
    induction (nodes w) as [|n tl IH]; cbn [find map]; [congruence|].
    destruct (String.eqb (dataId n) id) eqn:E.
    + assert (Q : moveNode id x y n = mkNode (dataId n) (nodeConnectionId n) x y)
        by (unfold moveNode; rewrite E; reflexivity).
      rewrite Q. cbn [dataId]. rewrite E. intros _. reflexivity.
    + assert (Q : moveNode id x y n = n)
        by (unfold moveNode; rewrite E; reflexivity).
      rewrite Q, E. exact IH.
  - change (ghostIONode (set_ghostIONode
              (option_map (fun g => mkGhost (hidden g) x y) (ghostIONode w)) w))
      with (option_map (fun g => mkGhost (hidden g) x y) (ghostIONode w)).
    destruct (ghostIONode w); [reflexivity|congruence].
Qed.

Lemma highlightPortOrShowGhostNode_ghost sorted n2m dir c w :
  ghostIONode w <> None ->
  let w' := fst (highlightPortOrShowGhostNode ElGhost sorted n2m dir c w) in
  elPosition ElGhost w' = c /\ matrix w' = matrix w /\ env w' = env w /\
  dragBoundaryInterval w' = dragBoundaryInterval w.
Proof.
  intros G. destruct (ghostIONode w) as [g|] eqn:E; [clear G|congruence].
  unfold highlightPortOrShowGhostNode, elPosition, setElHidden, setElTranslate.
  destruct c as [cx cy].
  destruct sorted as [|p tl];
    [|destruct (Qlt_bool (distance p) 100)];
    destruct (Qlt_bool 120 n2m); cbv zeta; cbn [fst]; cbn; rewrite E; cbn;
    repeat split.
Qed.

Lemma ghost_survives_translate x y w :
  ghostIONode w <> None -> ghostIONode (setElTranslate ElGhost x y w) <> None.
Proof.
  unfold setElTranslate.
  change (ghostIONode (set_ghostIONode
            (option_map (fun g => mkGhost (hidden g) x y) (ghostIONode w)) w))
    with (option_map (fun g => mkGhost (hidden g) x y) (ghostIONode w)).
  destruct (ghostIONode w); [discriminate|congruence].
Qed.

Lemma removeHighlightedPort_ghost hp d w :
  ghostIONode (removeHighlightedPort hp d w) = ghostIONode w.
Proof. destruct hp; reflexivity. Qed.

Lemma scroll_algebra (R M : Matrix) (X Y mX mY s : Q) :
  ma M == s -> md M == s -> mb M == 0 -> mc M == 0 -> ~ s == 0 ->
  Peq (matrixTransform (mkPoint (X + mX * (1 / s)) (Y + mY * (1 / s)))
         (multiply R (mkMatrix (ma M) (mb M) (mc M) (md M)
                               (me M - mX) (mf M - mY))))
      (matrixTransform (mkPoint X Y) (multiply R M)).
Proof.
  intros Ha Hd Hb Hc Hs. destruct M as [a b c d e f], R as [ra rb rc rd re rf].
  simpl in *. unfold Peq, matrixTransform, multiply; simpl.
  split; rewrite Ha, Hd, Hb, Hc; field; exact Hs.
Qed.

(** X10.  A firing of the boundary timer scrolls the canvas under the
    dragged element: with the group's matrix in step with the stored scale,
    which is not 0, the element, node or ghost, is drawn at the same place
    of the screen after the firing as before, while the group's translation
    has moved by the step of the timer and the offsets have grown by that
    step in canvas units. *)
Theorem tick_keeps_element_on_screen (tk : Tick) (w : Workflow) :
  tickWellFormed tk -> elExists (tickEl tk) w ->
  scaleInSync w -> ~ scale w == 0 ->
  let w' := tick tk w in
  Peq (elScreen (tickEl tk) w') (elScreen (tickEl tk) w) /\
  me (matrix w') = me (matrix w) - tickMove (tickBoundaryX tk) /\
  mf (matrix w') = mf (matrix w) - tickMove (tickBoundaryY tk) /\
  xOffset (dragBoundaryInterval w')
  = xOffset (dragBoundaryInterval w) + tickMove (tickBoundaryX tk) * (1 / scale w) /\
  yOffset (dragBoundaryInterval w')
  = yOffset (dragBoundaryInterval w) + tickMove (tickBoundaryY tk) * (1 / scale w).
Proof.
  destruct tk as [el bx by_ pi gio]. unfold tickWellFormed. cbn [tickEl tickPathInfo
    tickBoundaryX tickBoundaryY].
  intros WF Ex (Ha & Hd & Hb & Hc) Hs.
  assert (El : pi <> None \/ (pi = None /\ el = ElGhost))
    by (destruct pi; [left; discriminate | right; destruct WF; [congruence|auto]]).
  clear WF.
  set (mX := tickMove bx). set (mY := tickMove by_).
  set (m := matrix w).
  set (w1 := set_matrix (mkMatrix (ma m) (mb m) (mc m) (md m) (me m - mX) (mf m - mY)) w).
  set (i := dragBoundaryInterval w1).
  set (w2 := set_dragBoundaryInterval
               (mkDBI (hitX i) (hitY i) (interval i)
                      (xOffset i + adaptToScale mX w1)
                      (yOffset i + adaptToScale mY w1) (highlightedPort i)) w1).
  set (mx := elPosition el w2).
  set (w3 := setElTranslate el (px mx + adaptToScale mX w2)
                            (py mx + adaptToScale mY w2) w2).
  assert (Ex2 : elExists el w2) by (destruct el; exact Ex).
  assert (P3 : elPosition el w3
               = mkPoint (px mx + adaptToScale mX w2) (py mx + adaptToScale mY w2))
    by (apply elPosition_setElTranslate; exact Ex2).
  assert (M3 : matrix w3 = matrix w1) by (destruct el; reflexivity).
  assert (E3 : env w3 = env w) by (destruct el; reflexivity).
  assert (D3 : dragBoundaryInterval w3 = dragBoundaryInterval w2)
    by (destruct el; reflexivity).
  assert (Goal3 :
    Peq (matrixTransform
           (mkPoint (px mx + adaptToScale mX w2) (py mx + adaptToScale mY w2))
           (multiply (svgScreenCTM (env w)) (matrix w1)))
        (elScreen el w)).
  { unfold elScreen, screenCTM.
    assert (Q : mx = elPosition el w) by (destruct el; reflexivity).
    rewrite <- Q. destruct mx as [X Y].
    exact (scroll_algebra (svgScreenCTM (env w)) m X Y mX mY (scale w)
             Ha Hd Hb Hc Hs). }
  assert (T : tick (mkTick el bx by_ pi gio) w =
              match pi, gio with
              | Some _, _ => w3
              | None, Some ghostIO =>
                  let mx := elPosition el w3 in
                  let sorted :=
                    getSortedConnectionPorts (gAllConnectionPorts ghostIO) mx w3 in
                  let w4 := removeHighlightedPort
                              (highlightedPort (dragBoundaryInterval w3))
                              (gEdgeDirection ghostIO) w3 in
                  let '(w5, hp) :=
                    highlightPortOrShowGhostNode el sorted
                      (gNodeToMouseDistance ghostIO) (gEdgeDirection ghostIO) mx w4 in
                  setHighlightedPort hp w5
              | None, None => w3
              end) by reflexivity.
  cbv zeta. rewrite T. clear T.
  assert (Plain :
    Peq (elScreen el w3) (elScreen el w) /\
    me (matrix w3) = me (matrix w) - mX /\
    mf (matrix w3) = mf (matrix w) - mY /\
    xOffset (dragBoundaryInterval w3)
    = xOffset (dragBoundaryInterval w) + mX * (1 / scale w) /\
    yOffset (dragBoundaryInterval w3)
    = yOffset (dragBoundaryInterval w) + mY * (1 / scale w)).
  { unfold elScreen at 1, screenCTM. rewrite P3, M3, E3, D3.
    split; [exact Goal3|]. repeat split. }
  destruct El as [El|[El Eg]].
  - destruct pi; [exact Plain|congruence].
  - subst pi el. destruct gio as [g|]; [|exact Plain].
    cbv zeta.
    match goal with |- context [highlightPortOrShowGhostNode ElGhost ?b ?c ?d ?e ?f] =>
      assert (G4 : ghostIONode f <> None);
      [|pose proof (highlightPortOrShowGhostNode_ghost b c d e f G4) as K;
        pose proof (highlightPortOrShowGhostNode_keeps ElGhost b c d e f) as K2;
        destruct (highlightPortOrShowGhostNode ElGhost b c d e f) as [w5 hp]]
    end.
    { rewrite removeHighlightedPort_ghost. unfold w3.
      apply ghost_survives_translate. exact Ex2. }
    cbv zeta in K. cbn [fst] in K, K2.
    destruct K as (K1 & Km & Ke & Kd).
    destruct Plain as (Pl1 & Pl2 & Pl3 & Pl4 & Pl5).
    unfold elScreen at 1, screenCTM.
    change (elPosition ElGhost (setHighlightedPort hp w5))
      with (elPosition ElGhost w5).
    change (env (setHighlightedPort hp w5)) with (env w5).
    change (matrix (setHighlightedPort hp w5)) with (matrix w5).
    rewrite K1, Km, Ke.
    assert (Mr : forall h d x, matrix (removeHighlightedPort h d x) = matrix x)
      by (intros [?|] ? ?; reflexivity).
    assert (Er : forall h d x, env (removeHighlightedPort h d x) = env x)
      by (intros [?|] ? ?; reflexivity).
    rewrite Mr, Er.
    split; [exact Pl1|]. split; [exact Pl2|]. split; [exact Pl3|].
    change (dragBoundaryInterval (setHighlightedPort hp w5))
      with (mkDBI (hitX (dragBoundaryInterval w5)) (hitY (dragBoundaryInterval w5))
                  (interval (dragBoundaryInterval w5))
                  (xOffset (dragBoundaryInterval w5))
                  (yOffset (dragBoundaryInterval w5)) hp).
    cbn [xOffset yOffset]. rewrite Kd.
    assert (Dr : forall h d x, dragBoundaryInterval (removeHighlightedPort h d x)
                               = dragBoundaryInterval x)
      by (intros [?|] ? ?; reflexivity).
    rewrite Dr. split; [exact Pl4 | exact Pl5].
Qed.

Lemma tick_keeps_element_on_screen_witness :
  let tk := mkTick (ElNode "A") 1 0 (Some (mkPathInfo 100 100)) None in
  tickWellFormed tk /\ elExists (tickEl tk) inRightBand /\
  scaleInSync inRightBand /\ ~ scale inRightBand == 0 /\
  Peq (elScreen (tickEl tk) (tick tk inRightBand))
      (elScreen (tickEl tk) inRightBand) /\
  me (matrix (tick tk inRightBand)) = me (matrix inRightBand) - tickMove 1.
Proof.
  intros tk.
  assert (A : tickWellFormed tk) by (left; discriminate).
  assert (B : elExists (tickEl tk) inRightBand) by (vm_compute; discriminate).
  assert (C : scaleInSync inRightBand) by (repeat split).
  assert (D : ~ scale inRightBand == 0) by (vm_compute; discriminate).
  pose proof (tick_keeps_element_on_screen tk inRightBand A B C D) as (P & Q & _).
  split; [exact A|]. split; [exact B|]. split; [exact C|]. split; [exact D|].
  split; [exact P | exact Q].
Defined.

(* ================================================================= *)
(** ** Auto-arrange on any connection list *)

Lemma mem_In k l : mem k l = true <-> In k l.
Proof.
  unfold mem. rewrite existsb_exists. split.
  - intros [x [Hx E]]. apply String.eqb_eq in E. subst. exact Hx.
  - intros H. exists k. split; [exact H | apply String.eqb_refl].
Qed.

Lemma mem_false k l : mem k l = false <-> ~ In k l.
Proof.
  rewrite <- mem_In. destruct (mem k l); split; congruence.
Qed.

Lemma addOnce_In x k l : In x (addOnce k l) <-> x = k \/ In x l.
Proof.
  unfold addOnce. destruct (mem k l) eqn:E.
  - apply mem_In in E. split; [auto|]. intros [->|H]; assumption.
  - rewrite in_app_iff. simpl. split; intros [H|H]; auto.
    + destruct H as [H|[]]. auto.
Qed.

Lemma unvisited_mono t V V' :
  incl V V' -> (unvisitedCount t V' <= unvisitedCount t V)%nat.
Proof.
  intros I. unfold unvisitedCount. induction (univ t) as [|k tl IH]; simpl; [lia|].
  destruct (mem k V') eqn:A, (mem k V) eqn:B; simpl; try lia.
  apply mem_In in B. apply mem_false in A. exfalso. apply A, I, B.
Qed.

Lemma unvisited_strict t V V' c :
  incl V V' -> In c (univ t) -> ~ In c V -> In c V' ->
  (unvisitedCount t V' < unvisitedCount t V)%nat.
Proof.
  intros I U N Y. unfold unvisitedCount.
  induction (univ t) as [|k tl IH]; simpl; [contradiction|].
  assert (M : (List.length (filter (fun k => negb (mem k V')) tl)
               <= List.length (filter (fun k => negb (mem k V)) tl))%nat).
  { clear IH U. induction tl as [|k' tl' IH']; simpl; [lia|].
    destruct (mem k' V') eqn:A, (mem k' V) eqn:B; simpl; try lia.
    apply mem_In in B. apply mem_false in A. exfalso. apply A, I, B. }
  destruct U as [->|U].
  - apply mem_In in Y. apply mem_false in N. rewrite Y, N. simpl. lia.
  - specialize (IH U).
    destruct (mem k V') eqn:A, (mem k V) eqn:B; simpl; try lia.
    apply mem_In in B. apply mem_false in A. exfalso. apply A, I, B.
Qed.

Lemma getArr_In t k deps :
  getArr t k = Some deps -> In (k, deps) t.
Proof.
  induction t as [|[k' a] tl IH]; simpl; [discriminate|].
  destruct (String.eqb k' k) eqn:E.
  - apply String.eqb_eq in E. intros H; injection H as <-. left. congruence.
  - intros H. right. exact (IH H).
Qed.

Lemma deps_in_univ t k deps c :
  getArr t k = Some deps -> In c deps -> In c (univ t).
Proof.
  intros G C. apply getArr_In in G. unfold univ. apply in_app_iff. right.
  apply in_flat_map. exists (k, deps). split; [exact G | exact C].
Qed.

Lemma trace_shape fuel t arr V :
  trace (S fuel) t arr V =
  match getArr t arr with
  | None | Some [] => Some (Fin 1, addOnce arr V)
  | Some deps =>
      match traceEach fuel t
              (filter (fun e => negb (mem e (addOnce arr V))) deps)
              (addOnce arr V) with
      | None => None
      | Some (ds, visited) => Some (dadd (mathMax ds) 1, visited)
      end
  end.
Proof.
  cbn [trace]. destruct (getArr t arr) as [[|e deps]|]; try reflexivity.
  rewrite traceEach_unfold. reflexivity.
Qed.

(** A trace only ever adds to the visited set, and adds its own node. *)
Lemma trace_grows t : forall fuel arr V d V',
  trace fuel t arr V = Some (d, V') -> incl (addOnce arr V) V'.
Proof.
  induction fuel as [|fuel IH]; intros arr V d V'; [discriminate|].
  rewrite trace_shape.
  assert (Each : forall l Vc ds Vr,
             traceEach fuel t l Vc = Some (ds, Vr) -> incl Vc Vr).
  { induction l as [|e tl IHl]; intros Vc ds Vr; cbn [traceEach].
    - intros H; injection H as _ <-. apply incl_refl.
    - destruct (trace fuel t e Vc) as [[d1 V1]|] eqn:T; [|discriminate].
      destruct (traceEach fuel t tl V1) as [[ds1 V2]|] eqn:R; [|discriminate].
      intros H; injection H as _ <-.
      apply IH in T. apply IHl in R.
      intros x Hx. apply R, T. apply addOnce_In. right. exact Hx. }
  destruct (getArr t arr) as [[|e deps]|].
  - intros H; injection H as _ <-. apply incl_refl.
  - destruct (traceEach fuel t _ _) as [[ds Vr]|] eqn:R; [|discriminate].
    intros H; injection H as _ <-. exact (Each _ _ _ _ R).
  - intros H; injection H as _ <-. apply incl_refl.
Qed.

(** The trace returns as soon as its fuel exceeds the number of names not
    yet visited. *)
Lemma trace_returns t : forall fuel arr V,
  (unvisitedCount t (addOnce arr V) < fuel)%nat ->
  exists d V', trace fuel t arr V = Some (d, V').
Proof.
  induction fuel as [|fuel IH]; intros arr V Hf; [lia|].
  rewrite trace_shape.
  destruct (getArr t arr) as [[|e deps]|] eqn:G;
    try (eexists; eexists; reflexivity).
  set (V1 := addOnce arr V) in *.
  assert (Each : forall l Vc,
             (forall c, In c l -> In c (univ t) /\ ~ In c V1) ->
             incl V1 Vc ->
             exists ds Vr, traceEach fuel t l Vc = Some (ds, Vr)).
  { induction l as [|c tl IHl]; intros Vc Hl Hi; cbn [traceEach].
    - eexists; eexists; reflexivity.
    - destruct (Hl c (or_introl eq_refl)) as [Hu Hn].
      assert (Hc : (unvisitedCount t (addOnce c Vc) < fuel)%nat).
      { assert (S : (unvisitedCount t (addOnce c Vc) < unvisitedCount t V1)%nat).
        { apply (unvisited_strict t V1 (addOnce c Vc) c); auto.
          - intros x Hx. apply addOnce_In. right. apply Hi, Hx.
          - apply addOnce_In. left. reflexivity. }
        lia. }
      destruct (IH c Vc Hc) as (d1 & V2 & T). rewrite T.
      assert (Hi2 : incl V1 V2).
      { apply trace_grows in T. intros x Hx. apply T, addOnce_In. right.
        apply Hi, Hx. }
      destruct (IHl V2 (fun c' H' => Hl c' (or_intror H')) Hi2) as (ds & Vr & R).
      rewrite R. eexists; eexists; reflexivity. }
  destruct (Each (filter (fun x => negb (mem x V1)) (e :: deps)) V1)
    as (ds & Vr & R).
  - intros c Hc. apply filter_In in Hc. destruct Hc as [Hc Hm]. split.
    + exact (deps_in_univ t arr (e :: deps) c G Hc).
    + apply mem_false. apply negb_true_iff. exact Hm.
  - apply incl_refl.
  - rewrite R. eexists; eexists; reflexivity.
Qed.

Lemma unvisitedCount_le t V : (unvisitedCount t V <= List.length (univ t))%nat.
Proof. unfold unvisitedCount. apply filter_length_le. Qed.

Lemma depthZones_returns fuel t :
  (List.length (univ t) < fuel)%nat ->
  forall keys acc, exists m, depthZones fuel t keys acc = Some m.
Proof.
  intros Hf keys. induction keys as [|k tl IH]; intros acc; cbn [depthZones].
  - eexists; reflexivity.
  - destruct (trace_returns t fuel k []) as (d & V' & T).
    + pose proof (unvisitedCount_le t (addOnce k [])). lia.
    + rewrite T. apply IH.
Qed.

(** X11.  The [workflow.arrange] handler comes to its end on every list of
    connections, cyclic or not: the depth trace never goes deeper than the
    number of names in the tracker plus one. *)
Theorem arrange_returns_on_every_graph (n : nat) (found : string -> bool)
  (width height : Q) (connections : list Connection) :
  let fuel := (S (List.length (univ (trackerOf connections))) + n)%nat in
  exists m pls,
    idToZoneMap fuel connections = Some m /\
    arrange fuel found width height connections = Some pls.
Proof.
  intros fuel. unfold arrange, idToZoneMap.
  assert (T : trackerOf connections
              = fst (fold_left registerConnection connections ([], [])))
    by reflexivity.
  destruct (fold_left registerConnection connections ([], [])) as [t ins].
  cbn [fst] in T.
  destruct (depthZones_returns fuel t) with (keys := map fst t) (acc := @nil (string * Depth))
    as [m D].
  - unfold fuel. rewrite T. lia.
  - rewrite D. eexists. eexists. split; reflexivity.
Qed.

Lemma filter_none {A} (f : A -> bool) l :
  (forall x, In x l -> f x = false) -> filter f l = [].
Proof.
  induction l as [|a tl IH]; intros H; simpl; [reflexivity|].
  rewrite (H a (or_introl eq_refl)). apply IH. intros x Hx. apply H. right. exact Hx.
Qed.

(** X12.  A node all of whose dependencies are already in the visited set
    (itself included) is given the depth [-Infinity], the value of
    [Math.max()] plus one, and with it the zone [-Infinity]: in the depth
    pass this is what a node that depends on nothing but itself gets. *)
Theorem trace_of_visited_dependencies (fuel : nat) (tracker : Tracker)
  (k e : string) (deps visited : list string) (acc : ZoneMap) :
  getArr tracker k = Some (e :: deps) ->
  (forall c, In c (e :: deps) -> In c (addOnce k visited)) ->
  trace (S fuel) tracker k visited = Some (NegInf, addOnce k visited) /\
  ((forall c, In c (e :: deps) -> c = k) ->
   depthZones (S fuel) tracker [k] acc = Some (setZone acc k NegInf)).
Proof.
  intros G H.
  assert (T : forall V, (forall c, In c (e :: deps) -> In c (addOnce k V)) ->
                        trace (S fuel) tracker k V = Some (NegInf, addOnce k V)).
  { intros V HV. rewrite trace_shape, G, filter_none; [reflexivity|].
    intros x Hx. apply negb_false_iff, mem_In, HV, Hx. }
  split; [apply T; exact H|].
  intros Self. cbn [depthZones]. rewrite T; [reflexivity|].
  intros c Hc. apply addOnce_In. left. apply Self, Hc.
Qed.

Lemma trace_of_visited_dependencies_witness :
  let tracker := trackerOf [edgeBetween "A" "o" "A" "i"]%string in
  getArr tracker "A" = Some ["A"%string] /\
  trace 1 tracker "A" [] = Some (NegInf, ["A"%string]) /\
  depthZones 1 tracker ["A"%string] [] = Some [("A"%string, NegInf)].
Proof.
  intros tracker.
  assert (G : getArr tracker "A" = Some ["A"%string]) by reflexivity.
  assert (S : forall c, In c ["A"%string] -> c = "A"%string)
    by (intros c [<-|[]]; reflexivity).
  destruct (trace_of_visited_dependencies 0 tracker "A" "A" [] [] [] G) as [T D].
  - intros c Hc. rewrite (S c Hc). left. reflexivity.
  - split; [exact G|]. split; [exact T | exact (D S)].
Defined.

(* ================================================================= *)
(** ** Port drag *)

(** X13.  [getSortedConnectionPorts] returns every candidate once, with
    the distance from [coords] filled in and nothing else changed, in
    ascending order of that distance. *)
Theorem getSortedConnectionPorts_sorts (allConnectionPorts : list PortEl)
  (coords : Point) (w : Workflow) :
  let sorted := getSortedConnectionPorts allConnectionPorts coords w in
  Permutation sorted (measured allConnectionPorts coords w) /\
  StronglySorted closerEq sorted /\
  Permutation (map connectionId sorted) (map connectionId allConnectionPorts) /\
  (forall p, In p sorted ->
     distance p = geometryDistance (env w) (px coords) (py coords)
                                   (px (wfCTM p)) (py (wfCTM p))).
Proof.
  intros sorted. unfold sorted, getSortedConnectionPorts.
  fold (measured allConnectionPorts coords w).
  pose proof (sortByDistance_perm (measured allConnectionPorts coords w)) as P.
  split; [exact P|]. split; [apply sortByDistance_sorted|]. split.
  - rewrite (Permutation_map connectionId P). unfold measured.
    rewrite map_map. reflexivity.
  - intros p Hp. apply (Permutation_in _ P) in Hp. unfold measured in Hp.
    apply in_map_iff in Hp. destruct Hp as [el [<- _]]. reflexivity.
Qed.



(* ================================================================= *)
(** ** Canvas pan *)

(** X15.  During a pan the group's translation is the one captured at the
    start plus the latest pointer delta: deltas do not accumulate and are
    not divided by the zoom; the rest of the matrix and the stored scale
    stay as they are. *)
Theorem pan_follows_latest_delta (moves : list (Q * Q)) (dx dy : Q)
  (w : Workflow) :
  let w' := fold_left (fun w m => panMove (fst m) (snd m) w)
                      (moves ++ [(dx, dy)]) (panStart w) in
  matrix w' = mkMatrix (ma (matrix w)) (mb (matrix w)) (mc (matrix w))
                       (md (matrix w)) (me (matrix w) + dx) (mf (matrix w) + dy) /\
  scale w' = scale w /\ panEnd w' = w'.
Proof.
  cbv zeta. rewrite fold_left_app. cbn [fold_left fst snd].
  assert (I : forall ms v,
             let v' := fold_left (fun w m => panMove (fst m) (snd m) w) ms v in
             panDrag v' = panDrag v /\ scale v' = scale v /\
             ma (matrix v') = ma (matrix v) /\ mb (matrix v') = mb (matrix v) /\
             mc (matrix v') = mc (matrix v) /\ md (matrix v') = md (matrix v)).
  { induction ms as [|m tl IH]; intros v; cbn [fold_left]; [repeat split|].
    destruct (IH (panMove (fst m) (snd m) v)) as (A & B & C & D & E & F).
    cbv zeta. rewrite A, B, C, D, E, F. repeat split. }
  destruct (I moves (panStart w)) as (A & B & C & D & E & F).
  unfold panMove at 1. cbn [matrix set_matrix scale].
  rewrite A, C, D, E, F. split; [reflexivity|]. split; [|reflexivity].
  change (scale (panMove dx dy ?v)) with (scale v).
  exact B.
Qed.

(* ================================================================= *)
(** ** Node drag *)

Lemma getBoundaryZonesXYAxes_interior x y w :
  let r := workflowBoundingClientRect w in
  interval (dragBoundaryInterval w) = None ->
  left r + dragBoundary w <= x -> x <= right r - dragBoundary w ->
  top r + dragBoundary w <= y -> y <= bottom r - dragBoundary w ->
  getBoundaryZonesXYAxes x y w = (w, (0%Z, 0%Z)).
Proof.
  intros r I Hl Hr Ht Hb. apply Qlt_bool_false in Hl, Hr, Ht, Hb.
  unfold getBoundaryZonesXYAxes. cbv zeta. fold r.
  rewrite Hl, Hr, Ht, Hb, I. reflexivity.
Qed.

(** X16.  A node drag that stays in the interior, no timer running: the
    start callback captures the node's position, the move callback draws
    the node at that position plus the pointer delta divided by the scale
    plus the offsets accumulated so far, and the end callback announces a
    [move] and hands exactly the position drawn last to the data model.
    The stored scale is taken not to be 0. *)
Theorem node_drag_commits_drawn_position (fuel : nat) (el obj : string)
  (dx dy : Q) (ev : Point) (w : Workflow) :
  let r := svgClientRect (env w) in
  elExists (ElNode el) w -> ~ scale w == 0 ->
  interval (dragBoundaryInterval w) = None ->
  left r + dragBoundary w <= px ev -> px ev <= right r - dragBoundary w ->
  top r + dragBoundary w <= py ev -> py ev <= bottom r - dragBoundary w ->
  let x := px (elPosition (ElNode el) w) + (dx * (1 / scale w)
                                            + xOffset (dragBoundaryInterval w)) in
  let y := py (elPosition (ElNode el) w) + (dy * (1 / scale w)
                                            + yOffset (dragBoundaryInterval w)) in
  exists w2 w3,
    nodeDragMove fuel dx dy ev el (nodeDragStart el w) = Done w2 /\
    nodeDragEnd fuel (Some obj) w2 = Done w3 /\
    elPosition (ElNode el) w2 = mkPoint x y /\
    elPosition (ElNode el) w3 = mkPoint x y /\
    modelCalls w3 = SetPosition obj x y :: modelCalls w /\
    emitted w3 = mkEmission "beforeChange" "move" :: emitted w /\
    isDragging w2 = true /\ isDragging w3 = false /\
    matrix w3 = matrix w.
Proof.
  intros r Ex _ I Hl Hr Ht Hb x y.
  set (w1 := nodeDragStart el w).
  assert (G : getBoundaryZonesXYAxes (px ev) (py ev) w1 = (w1, (0%Z, 0%Z)))
    by (apply getBoundaryZonesXYAxes_interior; assumption).
  unfold nodeDragMove. rewrite G. cbv zeta. cbn [fst snd truthy Z.eqb negb orb].
  unfold getScaledDeltaXYForDrag. cbn [truthy Z.eqb negb].
  eexists. eexists. split; [reflexivity|].
  match goal with |- nodeDragEnd _ _ ?v = _ /\ _ => set (w2 := v) end.
  assert (P2 : elPosition (ElNode el) w2 = mkPoint x y).
  { unfold w2. rewrite elPosition_setElTranslate; [reflexivity|exact Ex]. }
  assert (I2 : interval (dragBoundaryInterval w2) = None) by exact I.
  unfold nodeDragEnd. cbv zeta. unfold setDragBoundaryIntervalToDefault.
  change (interval (dragBoundaryInterval (set_isDragging false w2)))
    with (interval (dragBoundaryInterval w2)).
  rewrite I2. unfold setModelPosition. rewrite command_beforeChange.
  cbn [andThen].
  split; [reflexivity|]. split; [exact P2|]. split; [exact P2|].
  repeat split.
Qed.

Lemma node_drag_commits_drawn_position_witness :
  exists w2 w3,
    nodeDragMove 10 200 50 (mkPoint 300 150) "A" (nodeDragStart "A" twoStepsDone)
    = Done w2 /\
    nodeDragEnd 10 (Some "A"%string) w2 = Done w3 /\
    elPosition (ElNode "A") w3 = mkPoint (100 + (200 * (1 / 1) + 0))
                                         (100 + (50 * (1 / 1) + 0)) /\
    modelCalls w3 = SetPosition "A" (100 + (200 * (1 / 1) + 0))
                                (100 + (50 * (1 / 1) + 0))
                    :: modelCalls twoStepsDone.
Proof.
  assert (Ex : elExists (ElNode "A") twoStepsDone) by (vm_compute; discriminate).
  assert (N : ~ scale twoStepsDone == 0) by (vm_compute; discriminate).
  assert (H1 : left (svgClientRect (env twoStepsDone)) + dragBoundary twoStepsDone
               <= 300) by (vm_compute; discriminate).
  assert (H2 : 300 <= right (svgClientRect (env twoStepsDone))
                      - dragBoundary twoStepsDone) by (vm_compute; discriminate).
  assert (H3 : top (svgClientRect (env twoStepsDone)) + dragBoundary twoStepsDone
               <= 150) by (vm_compute; discriminate).
  assert (H4 : 150 <= bottom (svgClientRect (env twoStepsDone))
                      - dragBoundary twoStepsDone) by (vm_compute; discriminate).
  destruct (node_drag_commits_drawn_position 10 "A" "A" 200 50 (mkPoint 300 150)
              twoStepsDone Ex N eq_refl H1 H2 H3 H4)
    as (w2 & w3 & A & B & _ & C & D & _).
  exists w2, w3. split; [exact A|]. split; [exact B|]. split; [exact C | exact D].
Defined.

(** X17.  While the pointer is in a boundary band on an axis,
    [getScaledDeltaXYForDrag] does not look at the pointer delta of that
    axis: the delta it returns puts the dragged element on the inner edge
    of the band, in canvas coordinates. *)
Theorem getScaledDeltaXYForDrag_pins_to_band (bx by_ : Z)
  (startX startY dx dy : Q) (w : Workflow) (p : Point) :
  let r := workflowBoundingClientRect w in
  let edge := if Z.eqb bx 1 then right r - dragBoundary w
              else left r + dragBoundary w in
  truthy bx = true ->
  getScaledDeltaXYForDrag (bx, by_) startX startY dx dy w = Some p ->
  (exists c, translateMouseCoords edge 0 w = Some c /\ px p = px c - startX) /\
  (forall dx', exists p',
      getScaledDeltaXYForDrag (bx, by_) startX startY dx' dy w = Some p' /\
      p' = p).
Proof.
  intros r edge T. unfold getScaledDeltaXYForDrag. cbv zeta. fold r. rewrite T.
  fold edge.
  destruct (translateMouseCoords edge 0 w) as [c|]; cbn [option_map];
    [|discriminate].
  match goal with |- match ?a with _ => _ end = _ -> _ => destruct a as [sy|] end;
    [|discriminate].
  intros H; injection H as <-. split.
  - exists c. split; reflexivity.
  - intros dx'. eexists. split; reflexivity.
Qed.

Lemma getScaledDeltaXYForDrag_pins_to_band_witness :
  truthy 1 = true /\
  getScaledDeltaXYForDrag (1%Z, 0%Z) 100 100 880 0 inRightBand
  = Some (mkPoint (950 - 100) (0 * (1 / 1) + 0)) /\
  forall dx', exists p',
      getScaledDeltaXYForDrag (1%Z, 0%Z) 100 100 dx' 0 inRightBand = Some p' /\
      p' = mkPoint (950 - 100) (0 * (1 / 1) + 0).
Proof.
  assert (E : getScaledDeltaXYForDrag (1%Z, 0%Z) 100 100 880 0 inRightBand
              = Some (mkPoint (950 - 100) (0 * (1 / 1) + 0)))
    by (vm_compute; reflexivity).
  split; [reflexivity|]. split; [exact E|].
  exact (proj2 (getScaledDeltaXYForDrag_pins_to_band 1 0 100 100 880 0
                  inRightBand _ eq_refl E)).
Defined.

(* ================================================================= *)
(** ** The boundary timer, once per band *)

Lemma resizeDragBoundary_stable fuel fuel' r db db' :
  resizeDragBoundary fuel r db = Some db' ->
  resizeDragBoundary fuel' r db' = Some db'.
Proof.
  intros H. apply resizeDragBoundary_post in H.
  destruct fuel'; simpl; rewrite H; reflexivity.
Qed.

Lemma set_dragBoundary_same w : set_dragBoundary (dragBoundary w) w = w.
Proof. destruct w; reflexivity. Qed.

(** X18.  [setDragBoundaryIntervalIfNecessary] starts a timer when a band is
    entered, not on every move: called again for the same boundary, with
    whatever it is told is highlighted, it returns and changes nothing. *)
Theorem setDragBoundaryIntervalIfNecessary_once (fuel fuel' : nat) (el : DragEl)
  (boundary : Z * Z) (pathInfo : option PathInfo) (ghostIO ghostIO' : option GhostIO)
  (w w1 : Workflow) :
  setDragBoundaryIntervalIfNecessary fuel el boundary pathInfo ghostIO w = Some w1 ->
  setDragBoundaryIntervalIfNecessary fuel' el boundary pathInfo ghostIO' w1 = Some w1.
Proof.
  unfold setDragBoundaryIntervalIfNecessary at 1.
  destruct (resizeDragBoundary fuel _ _) as [db|] eqn:R; [|discriminate].
  destruct boundary as [bx by_]. cbv zeta.
  change (dragBoundaryInterval (set_dragBoundary db w))
    with (dragBoundaryInterval w).
  assert (Again : forall v,
             workflowBoundingClientRect v = workflowBoundingClientRect w ->
             dragBoundary v = db ->
             (truthy bx || truthy by_ = true ->
              hitX (dragBoundaryInterval v) = truthy bx /\
              hitY (dragBoundaryInterval v) = truthy by_) ->
             setDragBoundaryIntervalIfNecessary fuel' el (bx, by_) pathInfo ghostIO' v
             = Some v).
  { intros v Hr Hd Hh. unfold setDragBoundaryIntervalIfNecessary.
    rewrite Hr, Hd, (resizeDragBoundary_stable fuel fuel' _ _ _ R).
    cbv zeta.
    change (dragBoundaryInterval (set_dragBoundary db v))
      with (dragBoundaryInterval v).
    rewrite <- Hd, set_dragBoundary_same.
    destruct (truthy bx || truthy by_) eqn:T; [|reflexivity].
    destruct (Hh eq_refl) as [-> ->].
    destruct (truthy bx), (truthy by_); reflexivity. }
  destruct (truthy bx || truthy by_) eqn:T; cbv iota.
  - match goal with |- (if ?c then _ else _) = _ -> _ => destruct c eqn:C end.
    + match goal with |- context [setInterval ?a ?b] =>
        destruct (setInterval a b) as [w5 t] eqn:SI end.
      unfold setInterval in SI. injection SI as <- <-.
      intros H; injection H as <-. apply Again.
      * destruct ghostIO, (interval (dragBoundaryInterval w)); reflexivity.
      * destruct ghostIO, (interval (dragBoundaryInterval w)); reflexivity.
      * intros _.
        destruct ghostIO, (interval (dragBoundaryInterval w)); split; reflexivity.
    + intros H; injection H as <-. 
      unfold setDragBoundaryIntervalIfNecessary.
      change (workflowBoundingClientRect (set_dragBoundary db w))
        with (workflowBoundingClientRect w).
      change (dragBoundary (set_dragBoundary db w)) with db.
      rewrite (resizeDragBoundary_stable fuel fuel' _ _ _ R). cbv zeta.
      change (dragBoundaryInterval (set_dragBoundary db (set_dragBoundary db w)))
        with (dragBoundaryInterval w).
      rewrite T, C. destruct w; reflexivity.
  - intros H; injection H as <-.
    unfold setDragBoundaryIntervalIfNecessary.
    change (workflowBoundingClientRect (set_dragBoundary db w))
      with (workflowBoundingClientRect w).
    change (dragBoundary (set_dragBoundary db w)) with db.
    rewrite (resizeDragBoundary_stable fuel fuel' _ _ _ R). cbv zeta.
    rewrite T. destruct w; reflexivity.
Qed.

Lemma setDragBoundaryIntervalIfNecessary_once_witness :
  setDragBoundaryIntervalIfNecessary 0 (ElNode "A") (1%Z, 0%Z)
    (Some (mkPathInfo 100 100)) None inRightBand = Some inRightBand /\
  setDragBoundaryIntervalIfNecessary 7 (ElNode "A") (1%Z, 0%Z)
    (Some (mkPathInfo 100 100)) None inRightBand = Some inRightBand.
Proof.
  assert (E : setDragBoundaryIntervalIfNecessary 0 (ElNode "A") (1%Z, 0%Z)
                (Some (mkPathInfo 100 100)) None inRightBand = Some inRightBand)
    by (vm_compute; reflexivity).
  split; [exact E|].
  exact (setDragBoundaryIntervalIfNecessary_once 0 7 (ElNode "A") (1%Z, 0%Z)
           (Some (mkPathInfo 100 100)) None None inRightBand inRightBand E).
Defined.

(* ================================================================= *)
(** ** After the release *)

Lemma andThen_Done o k w' :
  o >>= k = Done w' -> exists w1, o = Done w1 /\ k w1 = Done w'.
Proof.
  destruct o as [w1|w1|]; simpl; try discriminate. intros H. exists w1. auto.
Qed.

Lemma scaleWorkflow_session s ev w w' :
  scaleWorkflow s ev w = Done w' ->
  isDragging w' = isDragging w /\
  dragBoundaryInterval w' = dragBoundaryInterval w /\
  portDrag w' = portDrag w.
Proof.
  unfold scaleWorkflow. destruct (translateMouseCoords _ _ _); [|discriminate].
  intros H; injection H as <-. repeat split.
Qed.

Lemma releaseOnPort_session fuel origin hp w w' :
  releaseOnPort fuel origin hp w = Done w' ->
  isDragging w' = isDragging w /\
  dragBoundaryInterval w' = dragBoundaryInterval w /\
  pdHighlightedPort (portDrag w') = None.
Proof.
  unfold releaseOnPort. cbv zeta.
  destruct (String.prefix "in" (connectionId origin));
    destruct (negb (findEdge _ _ w));
    rewrite ?command_beforeChange; cbn [andThen];
    intros H; injection H as <-; repeat split.
Qed.

Lemma releaseOnGhost_session fuel ev origin newIO newPorts newLabels w w' :
  interval (dragBoundaryInterval w) = None ->
  releaseOnGhost fuel ev origin newIO newPorts newLabels w = Done w' ->
  isDragging w' = isDragging w /\
  dragBoundaryInterval w' = dragBoundaryInterval w /\
  portDrag w' = portDrag w.
Proof.
  intros I. unfold releaseOnGhost. cbv zeta.
  rewrite command_beforeChange. unfold andThen at 1.
  match goal with |- context [getBoundaryZonesXYAxes ?x ?y ?v] =>
    pose proof (getBoundaryZonesXYAxes_idle x y v I) as G;
    destruct (getBoundaryZonesXYAxes x y v) as [w3 b] end.
  cbn [fst] in G. subst w3.
  destruct (translateMouseCoords (px ev) (py ev) _); [|discriminate].
  match goal with |- match ?a with _ => _ end = _ -> _ => destruct a end;
    [|discriminate].
  match goal with |- match ?a with _ => _ end = _ -> _ => destruct a end;
    [|discriminate].
  unfold setModelPosition. rewrite command_beforeChange.
  unfold andThen at 2. unfold andThen at 1.
  intros H. apply scaleWorkflow_session in H. exact H.
Qed.

Lemma setDragBoundaryIntervalToDefault_session w :
  let w' := setDragBoundaryIntervalToDefault w in
  isDragging w' = isDragging w /\
  xOffset (dragBoundaryInterval w') = 0 /\
  yOffset (dragBoundaryInterval w') = 0.
Proof.
  unfold setDragBoundaryIntervalToDefault.
  destruct (interval (dragBoundaryInterval w)); repeat split.
Qed.

(** X19.  When the release callback of a port drag returns, whichever
    branch it took, nothing of the drag is left: the ghost and the
    in-progress edge are gone, no preferred port and no highlighted
    port is held, the accumulated offsets are 0, no timer
    handle is held and the object is not dragging. *)
Theorem release_leaves_nothing_of_the_drag (fuel : nat) (ev : Point)
  (origin : PortEl) (newIO : NodeEl) (newPorts : list PortEl)
  (newLabels : list Matrix) (w w' : Workflow) :
  portDragEnd fuel ev origin newIO newPorts newLabels w = Done w' ->
  ghostIONode w' = None /\ draggedEdge (portDrag w') = false /\
  preferredPorts w' = [] /\ pdHighlightedPort (portDrag w') = None /\
  isDragging w' = false /\
  xOffset (dragBoundaryInterval w') = 0 /\
  yOffset (dragBoundaryInterval w') = 0 /\
  interval (dragBoundaryInterval w') = None.
Proof.
  unfold portDragEnd. fold (releasePort w). cbv zeta.
  set (w0 := set_isDragging false (setPdHighlightedPort (releasePort w) w)).
  pose proof (setDragBoundaryIntervalToDefault_session w0) as S.
  pose proof (setDragBoundaryIntervalToDefault_interval w0) as I.
  pose proof (setDragBoundaryIntervalToDefault_frame w0) as F.
  cbv zeta in S, F.
  set (w1 := setDragBoundaryIntervalToDefault w0) in *.
  destruct S as (S1 & S2 & S3).
  destruct F as (_ & _ & _ & _ & _ & _ & _ & _ & _ & _ & _ & Fp & _).
  change (isDragging w1 = false) in S1.
  change (portDrag w1 = portDrag w0) in Fp.
  assert (Hp : pdHighlightedPort (portDrag w1) = releasePort w)
    by (rewrite Fp; reflexivity).
  clearbody w1. clear w0 Fp.
  intros H. apply andThen_Done in H. destruct H as (w2 & H & E).
  injection E as <-.
  assert (Goal :
    isDragging w2 = false /\
    dragBoundaryInterval w2 = dragBoundaryInterval w1 /\
    pdHighlightedPort (portDrag w2) = None).
  { destruct (releasePort w) as [hp|].
    - apply releaseOnPort_session in H. destruct H as (A & B & C).
      rewrite A. auto.
    - destruct (ghostIONode w1) as [g|]; [|discriminate].
      destruct (negb (hidden g)).
      + apply releaseOnGhost_session in H; [|exact I].
        destruct H as (A & B & C). rewrite A, C. auto.
      + injection H as <-. auto. }
  destruct Goal as (A & B & C).
  unfold releaseCleanup. cbv zeta.
  change (isDragging (set_portDrag _ _)) with (isDragging w2).
  change (dragBoundaryInterval (set_portDrag _ _)) with (dragBoundaryInterval w2).
  rewrite A, B, S2, S3, I.
  split; [reflexivity|]. split; [reflexivity|]. split; [reflexivity|].
  split; [exact C|]. repeat split.
Qed.

Lemma release_leaves_nothing_of_the_drag_witness :
  portDragEnd 10 (mkPoint 340 100) aOut newOutput [] [] dragNearB
  = Done released /\
  ghostIONode released = None /\
  interval (dragBoundaryInterval released) = None.
Proof.
  assert (E : portDragEnd 10 (mkPoint 340 100) aOut newOutput [] [] dragNearB
              = Done released) by (vm_compute; reflexivity).
  destruct (release_leaves_nothing_of_the_drag 10 (mkPoint 340 100) aOut
              newOutput [] [] dragNearB released E)
    as (A & _ & _ & _ & _ & _ & _ & B).
  split; [exact E|]. split; [exact A | exact B].
Defined.

(* ================================================================= *)
(** ** What the arrange handler places *)















(* ================================================================= *)
(** ** What is subscribed to the hub, over every history *)

(** The calls that go through the hub change the object by
    [scaleWorkflow] and by assignments to a few fields.  What those leave
    alone, in the sense of a relation [R], every such call leaves alone. *)
Section HubFrame.

Variable R : Workflow -> Workflow -> Prop.
Hypothesis R_refl : forall w, R w w.
Hypothesis R_trans : forall w1 w2 w3, R w1 w2 -> R w2 w3 -> R w1 w3.
Hypothesis R_scaleWorkflow :
  forall s ev w w', endsIn (scaleWorkflow s ev w) w' -> R w w'.
Hypothesis R_emitted : forall v w, R w (set_emitted v w).
Hypothesis R_nodes : forall v w, R w (set_nodes v w).
Hypothesis R_ports : forall v w, R w (set_ports v w).
Hypothesis R_labels : forall v w, R w (set_labels v w).
Hypothesis R_matrix : forall v w, R w (set_matrix v w).
Hypothesis R_edges : forall v w, R w (set_edges v w).
Hypothesis R_modelCalls : forall v w, R w (set_modelCalls v w).
Hypothesis R_portDrag : forall v w, R w (set_portDrag v w).

Lemma andThen_frame o k w w' :
  (forall w1, endsIn o w1 -> R w w1) ->
  (forall w1 w2, o = Done w1 -> endsIn (k w1) w2 -> R w1 w2) ->
  endsIn (o >>= k) w' -> R w w'.
Proof.
  intros Ho Hk H. destruct o as [w1|w1|]; simpl in H.
  - eapply R_trans; [apply Ho; left; reflexivity|].
    eapply Hk; [reflexivity | exact H].
  - ends_inv H. apply Ho. right; reflexivity.
  - ends_inv H.
Qed.

Lemma mousewheel_frame deltaY ev w w' :
  endsIn (mousewheel deltaY ev w) w' -> R w w'.
Proof.
  unfold mousewheel. destruct (isDragging w).
  - intros H; ends_inv H; apply R_refl.
  - destruct (_ || _).
    + intros H; ends_inv H; apply R_refl.
    + apply R_scaleWorkflow.
Qed.

Lemma dispatch_frame run :
  (forall h w w', endsIn (run h w) w' -> R w w') ->
  forall hs w w', endsIn (dispatch run hs w) w' -> R w w'.
Proof.
  intros Hrun hs. induction hs as [|h tl IH]; simpl; intros w w' H.
  - ends_inv H. apply R_refl.
  - eapply andThen_frame; [apply Hrun | | exact H].
    intros w1 w2 _. apply IH.
Qed.

Lemma onArrange_frame fuel cs w : R w (onArrange fuel cs w).
Proof.
  unfold onArrange. destruct (arrange _ _ _ _ _) as [pls|]; [|apply R_refl].
  generalize w. induction pls as [|p tl IH]; simpl; intros w0; [apply R_refl|].
  eapply R_trans; [|apply IH]. apply R_nodes.
Qed.

Lemma onCreateStep_frame el ps ls w w' :
  endsIn (onCreateStep el ps ls w) w' -> R w w'.
Proof.
  unfold onCreateStep. cbv zeta. intros H. apply R_scaleWorkflow in H.
  eapply R_trans; [|exact H].
  eapply R_trans; [|apply R_labels].
  eapply R_trans; [|apply R_ports]. apply R_nodes.
Qed.

Lemma runLeaf_frame fuel data h w w' :
  endsIn (runLeaf fuel data h w) w' -> R w w'.
Proof.
  unfold runLeaf. destruct h, data; intros H;
    try (ends_inv H; apply R_refl).
  - eapply onCreateStep_frame; exact H.
  - ends_inv H. apply onArrange_frame.
Qed.

Lemma commandLeaf_frame fuel event data w w' :
  endsIn (commandLeaf fuel event data w) w' -> R w w'.
Proof.
  unfold commandLeaf. intros H.
  apply (dispatch_frame _ (runLeaf_frame fuel data)) in H.
  eapply R_trans; [|exact H]. apply R_emitted.
Qed.

Lemma onFit_frame fuel w w' : endsIn (onFit fuel w) w' -> R w w'.
Proof.
  unfold onFit. intros H.
  eapply R_trans; [|eapply andThen_frame; [| |exact H]].
  - apply R_refl.
  - intros w1 H1. apply commandLeaf_frame in H1.
    eapply R_trans; [|exact H1]. apply R_matrix.
  - intros w1 w2 _ H2. ends_inv H2. apply R_matrix.
Qed.

Lemma runHandler_frame fuel data h w w' :
  endsIn (runHandler fuel data h w) w' -> R w w'.
Proof.
  destruct h; unfold runHandler;
    first [apply runLeaf_frame | apply commandLeaf_frame | apply onFit_frame].
Qed.

Lemma command_frame fuel event data w w' :
  endsIn (command fuel event data w) w' -> R w w'.
Proof.
  unfold command. intros H.
  apply (dispatch_frame _ (runHandler_frame fuel data)) in H.
  eapply R_trans; [|exact H]. apply R_emitted.
Qed.

Lemma setModelPosition_frame fuel obj x y w w' :
  endsIn (setModelPosition fuel obj x y w) w' -> R w w'.
Proof.
  unfold setModelPosition. apply andThen_frame.
  - apply command_frame.
  - intros w1 w2 _ H. ends_inv H. apply R_modelCalls.
Qed.

Lemma releaseOnPort_frame fuel origin hp w w' :
  endsIn (releaseOnPort fuel origin hp w) w' -> R w w'.
Proof.
  unfold releaseOnPort. cbv zeta.
  destruct (String.prefix "in" (connectionId origin));
    (apply andThen_frame;
     [ intros w0; destruct (negb (findEdge _ _ w));
       [ apply andThen_frame;
         [apply command_frame
         |intros w1 w2 _ E; ends_inv E;
          eapply R_trans; [apply R_edges | apply R_modelCalls]]
       | intros E; ends_inv E; apply R_refl ]
     | intros w1 w2 _ E; ends_inv E; apply R_portDrag ]).
Qed.

(** The second branch of the release reads the boundary first; given that
    this leaves the object alone, so does the branch. *)
Lemma releaseOnGhost_frame fuel ev origin newIO newPorts newLabels w w' :
  (forall w1, R w w1 -> R w1 (fst (getBoundaryZonesXYAxes (px ev) (py ev) w1))) ->
  endsIn (releaseOnGhost fuel ev origin newIO newPorts newLabels w) w' ->
  R w w'.
Proof.
  intros HG. unfold releaseOnGhost. cbv zeta. intros E.
  match type of E with endsIn (?o >>= _) _ => destruct o as [w1|w1|] eqn:C end;
    cbn [andThen] in E; [| |ends_inv E].
  2:{ ends_inv E. apply (command_frame fuel _ _ _ _ (or_intror C)). }
  pose proof (command_frame fuel _ _ _ _ (or_introl C)) as K1.
  match type of E with context [getBoundaryZonesXYAxes ?x ?y ?v] =>
    assert (Gv : R w v) by (eapply R_trans; [exact K1|apply R_modelCalls]);
    assert (G : R w (fst (getBoundaryZonesXYAxes x y v)))
      by (eapply R_trans; [exact Gv|apply HG; exact Gv]);
    clear Gv;
    destruct (getBoundaryZonesXYAxes x y v) as [w3 b] end.
  cbn [fst] in G. clear C K1 HG. revert E.
  destruct (translateMouseCoords (px ev) (py ev) _) as [mc_|];
    [|intros E; ends_inv E; exact G].
  match goal with |- endsIn (match ?a with _ => _ end) _ -> _ => destruct a end;
    [|intros E; ends_inv E; exact G].
  match goal with |- endsIn (match ?a with _ => _ end) _ -> _ => destruct a end;
    [|intros E; ends_inv E; exact G].
  intros E. eapply R_trans; [exact G|].
  eapply R_trans; [|eapply andThen_frame; [| |exact E]].
  - apply R_refl.
  - intros w4 E4. apply setModelPosition_frame in E4.
    eapply R_trans; [|exact E4].
    eapply R_trans; [|apply R_labels].
    eapply R_trans; [|apply R_ports]. apply R_nodes.
  - intros w4 w5 _ E5. cbv beta zeta in E5.
    match type of E5 with endsIn (scaleWorkflow ?s ?a ?x) _ =>
      pose proof (R_scaleWorkflow s a x w5 E5) as K5 end.
    eapply R_trans; [|exact K5]. apply R_edges.
Qed.

End HubFrame.











Lemma sameRecord_refl w : sameRecord w w.
Proof. reflexivity. Qed.

Lemma sameRecord_trans w1 w2 w3 :
  sameRecord w1 w2 -> sameRecord w2 w3 -> sameRecord w1 w3.
Proof. unfold sameRecord. congruence. Qed.

Lemma scaleWorkflow_record s ev w w' :
  endsIn (scaleWorkflow s ev w) w' -> sameRecord w w'.
Proof.
  unfold scaleWorkflow. destruct (translateMouseCoords _ _ _); intros H;
    ends_inv H; reflexivity.
Qed.

Ltac hub_record lem :=
  apply (lem sameRecord sameRecord_refl sameRecord_trans scaleWorkflow_record);
  intros; reflexivity.

Lemma mousewheel_record deltaY ev w w' :
  endsIn (mousewheel deltaY ev w) w' -> sameRecord w w'.
Proof.
  apply (mousewheel_frame sameRecord sameRecord_refl scaleWorkflow_record).
Qed.

Lemma command_record fuel event data w w' :
  endsIn (command fuel event data w) w' -> sameRecord w w'.
Proof. hub_record command_frame. Qed.

Lemma setModelPosition_record fuel obj x y w w' :
  endsIn (setModelPosition fuel obj x y w) w' -> sameRecord w w'.
Proof. hub_record setModelPosition_frame. Qed.

Lemma releaseOnPort_record fuel origin hp w w' :
  endsIn (releaseOnPort fuel origin hp w) w' -> sameRecord w w'.
Proof. hub_record releaseOnPort_frame. Qed.






















(* ================================================================= *)
(** ** The release target a port-drag move leaves *)

Lemma highlightPortOrShowGhostNode_returns el sorted n2m dir c w :
  let r := highlightPortOrShowGhostNode el sorted n2m dir c w in
  snd r = snapTarget sorted /\
  dragBoundaryInterval (fst r) = dragBoundaryInterval w /\
  portDrag (fst r) = portDrag w.
Proof.
  unfold highlightPortOrShowGhostNode, snapTarget. cbv zeta.
  destruct sorted as [|p tl];
    [|destruct (Qlt_bool (distance p) 100)];
    try destruct (Qlt_bool 120 n2m); cbn [fst snd];
    destruct el; repeat split.
Qed.

Lemma removeHighlightedPort_record hp d w :
  dragBoundaryInterval (removeHighlightedPort hp d w) = dragBoundaryInterval w /\
  portDrag (removeHighlightedPort hp d w) = portDrag w.
Proof. destruct hp; split; reflexivity. Qed.

(** X22.  A port-drag move in the interior of the canvas, no timer
    running and no port held in the timer record: it starts no timer, and
    the port a release would then take is the nearest candidate to the
    pointer if that one is less than 100 units away, and none otherwise. *)
Theorem portDragMove_interior_release_target (fuel : nat) (dx dy : Q)
  (ev : Point) (target : PortEl) (w w' : Workflow) (coords : Point) :
  interval (dragBoundaryInterval w) = None ->
  highlightedPort (dragBoundaryInterval w) = None ->
  snd (getBoundaryZonesXYAxes (px ev) (py ev) w) = (0, 0)%Z ->
  translateMouseCoords (px ev) (py ev) w = Some coords ->
  portDragMove fuel dx dy ev target w = Done w' ->
  releasePort w'
  = snapTarget (getSortedConnectionPorts
                  (allConnectionPorts (portDrag w)) coords w) /\
  dragBoundaryInterval w' = dragBoundaryInterval w.
Proof.
  intros I Hp B C. unfold portDragMove. cbv zeta. rewrite C.
  match goal with |- match ?t with _ => _ end = _ -> _ =>
    destruct t as [origin|]; [|discriminate] end.
  pose proof (getBoundaryZonesXYAxes_idle (px ev) (py ev) w I) as G.
  destruct (getBoundaryZonesXYAxes (px ev) (py ev) w) as [w1 b].
  cbn [fst snd] in G, B. subst w1 b. cbn [fst snd truthy Z.eqb negb orb].
  destruct (getScaledDeltaXYForDrag _ _ _ _ _ _) as [sd|]; [|discriminate].
  rewrite Hp. cbn [orElse].
  match goal with |- context [highlightPortOrShowGhostNode ?a ?b ?c ?d ?e ?f] =>
    pose proof (highlightPortOrShowGhostNode_returns a b c d e f) as K;
    destruct (highlightPortOrShowGhostNode a b c d e f) as [w3 hp] end.
  cbv zeta in K. cbn [fst snd] in K. destruct K as (K1 & K2 & K3).
  intros E; injection E as <-.
  unfold releasePort.
  change (dragBoundaryInterval (setPdHighlightedPort hp w3))
    with (dragBoundaryInterval w3).
  change (pdHighlightedPort (portDrag (setPdHighlightedPort hp w3))) with hp.
  rewrite K2. destruct (removeHighlightedPort_record
                          (pdHighlightedPort (portDrag w)) (edgeDirection (portDrag w)) w)
    as [R1 _].
  rewrite R1, Hp. cbn [orElse]. split; [exact K1 | reflexivity].
Qed.

Lemma portDragMove_interior_release_target_witness :
  portDragMove 10 190 0 (mkPoint 340 100) aOut dragBegun = Done dragNearB /\
  exists p, releasePort dragNearB = Some p /\ connectionId p = connectionId bIn.
Proof.
  assert (I : interval (dragBoundaryInterval dragBegun) = None) by reflexivity.
  assert (Hp : highlightedPort (dragBoundaryInterval dragBegun) = None)
    by reflexivity.
  assert (B : snd (getBoundaryZonesXYAxes (px (mkPoint 340 100))
                     (py (mkPoint 340 100)) dragBegun) = (0, 0)%Z)
    by (vm_compute; reflexivity).
  assert (C : translateMouseCoords (px (mkPoint 340 100)) (py (mkPoint 340 100))
                dragBegun = Some (mkPoint 340 100))
    by (vm_compute; reflexivity).
  assert (E : portDragMove 10 190 0 (mkPoint 340 100) aOut dragBegun
              = Done dragNearB) by (vm_compute; reflexivity).
  destruct (portDragMove_interior_release_target 10 190 0 (mkPoint 340 100)
              aOut dragBegun dragNearB (mkPoint 340 100) I Hp B C E) as [T _].
  split; [exact E|]. rewrite T. eexists. split; vm_compute; reflexivity.
Defined.

(** X23.  The port-drag move that enters a boundary band, neither axis
    being registered yet: the port highlighted before the move goes into
    the timer record, a timer is started, and until that timer fires a
    release takes that port, whatever the move itself decided for the
    place the pointer is at. *)
Theorem band_entry_freezes_release_target (fuel : nat) (dx dy : Q)
  (ev : Point) (target : PortEl) (w w' : Workflow) (q : PortEl) :
  hitX (dragBoundaryInterval w) = false ->
  hitY (dragBoundaryInterval w) = false ->
  snd (getBoundaryZonesXYAxes (px ev) (py ev) w) <> (0, 0)%Z ->
  pdHighlightedPort (portDrag w) = Some q ->
  portDragMove fuel dx dy ev target w = Done w' ->
  releasePort w' = Some q /\
  interval (dragBoundaryInterval w') = Some (nextTimer w) /\
  exists coords,
    translateMouseCoords (px ev) (py ev) w = Some coords /\
    pdHighlightedPort (portDrag w')
    = snapTarget (getSortedConnectionPorts
                    (allConnectionPorts (portDrag w)) coords w').
Proof.
  intros HX HY B Hp. unfold portDragMove. cbv zeta.
  destruct (translateMouseCoords (px ev) (py ev) w) as [coords|]; [|discriminate].
  destruct (translateMouseCoords _ _ w) as [origin|]; [|discriminate].
  assert (G : fst (getBoundaryZonesXYAxes (px ev) (py ev) w) = w).
  { revert B. unfold getBoundaryZonesXYAxes. cbv zeta. cbn [fst snd].
    destruct (Qlt_bool (px ev) _), (Qlt_bool _ (px ev)),
             (Qlt_bool (py ev) _), (Qlt_bool _ (py ev));
      cbn [negb andb]; try reflexivity.
    intros B. exfalso. apply B. reflexivity. }
  destruct (getBoundaryZonesXYAxes (px ev) (py ev) w) as [w1 [bx by_]].
  cbn [fst snd] in G, B. subst w1. cbn [fst snd].
  assert (T : truthy bx || truthy by_ = true).
  { unfold truthy. destruct (Z.eqb_spec bx 0), (Z.eqb_spec by_ 0);
      try reflexivity. exfalso. apply B. congruence. }
  rewrite T.
  unfold setDragBoundaryIntervalIfNecessary.
  destruct (resizeDragBoundary _ _ _) as [db|]; [|discriminate].
  cbv zeta.
  change (dragBoundaryInterval (set_dragBoundary db w))
    with (dragBoundaryInterval w).
  rewrite T, HX, HY. cbn [negb andb].
  assert (T' : truthy bx || truthy by_ || false = true)
    by (rewrite T; reflexivity).
  rewrite T'. rewrite Hp.
  cbn [gHighlightedPort].
  match goal with |- match ?o with Some _ => _ | None => _ end = _ -> _ =>
    assert (D : exists w2, o = Some w2 /\
                highlightedPort (dragBoundaryInterval w2) = Some q /\
                interval (dragBoundaryInterval w2) = Some (nextTimer w)) end.
  { unfold setInterval. eexists. split; [reflexivity|].
    destruct (interval (dragBoundaryInterval w)); split; reflexivity. }
  destruct D as (w2 & -> & D2 & D3).
  destruct (getScaledDeltaXYForDrag _ _ _ _ _ _) as [sd|]; [|discriminate].
  rewrite D2. cbn [orElse].
  match goal with |- context [highlightPortOrShowGhostNode ?a ?b ?c ?d ?e ?f] =>
    pose proof (highlightPortOrShowGhostNode_returns a b c d e f) as K;
    destruct (highlightPortOrShowGhostNode a b c d e f) as [w3 hp] eqn:Eh end.
  cbv zeta in K. cbn [fst snd] in K. destruct K as (K1 & K2 & K3).
  intros E; injection E as <-.
  destruct (removeHighlightedPort_record (Some q) (edgeDirection (portDrag w)) w2)
    as [R1 _].
  unfold releasePort.
  change (dragBoundaryInterval (setPdHighlightedPort hp w3))
    with (dragBoundaryInterval w3).
  rewrite K2, R1, D2, D3. cbn [orElse].
  split; [reflexivity|]. split; [reflexivity|].
  eexists. split; [reflexivity|].
  change (pdHighlightedPort (portDrag (setPdHighlightedPort hp w3))) with hp.
  assert (Env3 : env (setPdHighlightedPort hp w3) = env w2).
  { change (env (setPdHighlightedPort hp w3)) with (env w3).
    pose proof (f_equal fst Eh) as F. cbn [fst] in F. rewrite <- F.
    unfold highlightPortOrShowGhostNode.
    destruct (getSortedConnectionPorts _ _ _) as [|p tl];
      [|destruct (Qlt_bool (distance p) 100)];
      try destruct (Qlt_bool 120 _); reflexivity. }
  unfold getSortedConnectionPorts. rewrite Env3. exact K1.
Qed.

Lemma band_entry_freezes_release_target_witness :
  portDragMove 10 840 0 (mkPoint 990 100) aOut dragNearB = Done dragFrozen /\
  exists q,
    pdHighlightedPort (portDrag dragNearB) = Some q /\
    releasePort dragFrozen = Some q /\
    pdHighlightedPort (portDrag dragFrozen) = None.
Proof.
  assert (HX : hitX (dragBoundaryInterval dragNearB) = false) by reflexivity.
  assert (HY : hitY (dragBoundaryInterval dragNearB) = false) by reflexivity.
  assert (B : snd (getBoundaryZonesXYAxes (px (mkPoint 990 100))
                     (py (mkPoint 990 100)) dragNearB) <> (0, 0)%Z)
    by (vm_compute; discriminate).
  assert (E : portDragMove 10 840 0 (mkPoint 990 100) aOut dragNearB
              = Done dragFrozen) by (vm_compute; reflexivity).
  destruct (pdHighlightedPort (portDrag dragNearB)) as [q|] eqn:Hp;
    [|vm_compute in Hp; discriminate Hp].
  destruct (band_entry_freezes_release_target 10 840 0 (mkPoint 990 100) aOut
              dragNearB dragFrozen q HX HY B Hp E) as (A & _ & _).
  split; [exact E|]. exists q. split; [reflexivity|]. split; [exact A|].
  vm_compute. reflexivity.
Defined.

(* ================================================================= *)
(** ** The port in the timer record *)

Lemma recordIdle_same w w' : sameRecord w w' -> recordIdle w -> recordIdle w'.
Proof. unfold sameRecord, recordIdle. intros ->. auto. Qed.

Lemma recordIdle_running w t :
  interval (dragBoundaryInterval w) = Some t -> recordIdle w.
Proof. unfold recordIdle. intros ->. discriminate. Qed.

Lemma getBoundaryZonesXYAxes_recordIdle x y w :
  recordIdle w -> recordIdle (fst (getBoundaryZonesXYAxes x y w)).
Proof.
  intros H. unfold getBoundaryZonesXYAxes. cbv zeta. cbn [fst].
  destruct (_ && _); [|exact H].
  destruct (interval (dragBoundaryInterval w)); [|exact H].
  intros _. reflexivity.
Qed.

Lemma setDragBoundaryIntervalToDefault_recordIdle w :
  recordIdle w -> recordIdle (setDragBoundaryIntervalToDefault w).
Proof.
  intros H. unfold setDragBoundaryIntervalToDefault, recordIdle.
  destruct (interval (dragBoundaryInterval w)) eqn:E.
  - intros _. reflexivity.
  - intros _. cbn. apply H. exact E.
Qed.

Lemma setDragBoundaryIntervalIfNecessary_recordIdle fuel el b pi g w w' :
  recordIdle w ->
  setDragBoundaryIntervalIfNecessary fuel el b pi g w = Some w' ->
  recordIdle w'.
Proof.
  intros H. unfold setDragBoundaryIntervalIfNecessary.
  destruct (resizeDragBoundary _ _ _) as [db|]; [|discriminate].
  destruct b as [bx by_]. cbv zeta.
  destruct (truthy bx || truthy by_); [|intros E; injection E as <-; exact H].
  destruct (_ || _); [|intros E; injection E as <-; exact H].
  intros E; injection E as <-.
  apply (recordIdle_running _ (nextTimer w)).
  destruct g as [g|]; simpl;
    destruct (interval (dragBoundaryInterval w)); reflexivity.
Qed.

Lemma nodeDragMove_recordIdle fuel dx dy ev el w w' :
  recordIdle w -> endsIn (nodeDragMove fuel dx dy ev el w) w' -> recordIdle w'.
Proof.
  intros H. unfold nodeDragMove.
  pose proof (getBoundaryZonesXYAxes_recordIdle (px ev) (py ev) w H) as H1.
  destruct (getBoundaryZonesXYAxes (px ev) (py ev) w) as [w1 b]. cbn [fst] in H1.
  cbv zeta.
  match goal with |- endsIn (match ?c with _ => _ end) _ -> _ =>
    destruct c as [w2|] eqn:S end.
  - assert (H2 : recordIdle w2).
    { destruct (truthy (fst b) || truthy (snd b)).
      - eapply setDragBoundaryIntervalIfNecessary_recordIdle; eassumption.
      - injection S as <-. exact H1. }
    destruct (getScaledDeltaXYForDrag _ _ _ _ _ _) as [sd|]; intros E; ends_inv E.
    + exact H2.
    + exact H2.
  - intros E; ends_inv E.
Qed.

Lemma portDragMove_recordIdle fuel dx dy ev target w w' :
  recordIdle w -> endsIn (portDragMove fuel dx dy ev target w) w' ->
  recordIdle w'.
Proof.
  intros H. unfold portDragMove. cbv zeta.
  destruct (translateMouseCoords (px ev) (py ev) w) as [coords|];
    [|intros E; ends_inv E; exact H].
  match goal with |- endsIn (match ?t with _ => _ end) _ -> _ =>
    destruct t as [origin|]; [|intros E; ends_inv E; exact H] end.
  pose proof (getBoundaryZonesXYAxes_recordIdle (px ev) (py ev) w H) as H1.
  destruct (getBoundaryZonesXYAxes (px ev) (py ev) w) as [w1 b]. cbn [fst] in H1.
  match goal with |- endsIn (match ?c with _ => _ end) _ -> _ =>
    destruct c as [w2|] eqn:S end.
  - assert (H2 : recordIdle w2).
    { destruct (truthy (fst b) || truthy (snd b)).
      - eapply setDragBoundaryIntervalIfNecessary_recordIdle; eassumption.
      - injection S as <-. exact H1. }
    destruct (getScaledDeltaXYForDrag _ _ _ _ _ _) as [sd|];
      [|intros E; ends_inv E; exact H2].
    match goal with |- context [highlightPortOrShowGhostNode ?a ?b ?c ?d ?e ?f] =>
      pose proof (highlightPortOrShowGhostNode_returns a b c d e f) as K;
      destruct (highlightPortOrShowGhostNode a b c d e f) as [w3 hp] end.
    cbv zeta in K. cbn [fst snd] in K. destruct K as (_ & K2 & _).
    intros E; ends_inv E.
    eapply recordIdle_same; [|exact H2]. unfold sameRecord.
    change (dragBoundaryInterval (setPdHighlightedPort hp w3))
      with (dragBoundaryInterval w3).
    rewrite K2. apply removeHighlightedPort_record.
  - intros E; ends_inv E.
Qed.

Lemma nodeDragEnd_recordIdle fuel model w w' :
  recordIdle w -> endsIn (nodeDragEnd fuel model w) w' -> recordIdle w'.
Proof.
  intros H. unfold nodeDragEnd. cbv zeta.
  assert (N : recordIdle (setDragBoundaryIntervalToDefault (set_isDragging false w)))
    by (apply setDragBoundaryIntervalToDefault_recordIdle; exact H).
  destruct model as [obj|]; intros E.
  - apply setModelPosition_record in E. eapply recordIdle_same; eassumption.
  - ends_inv E. exact N.
Qed.

Lemma releaseOnGhost_record fuel ev origin newIO newPorts newLabels w w' :
  interval (dragBoundaryInterval w) = None ->
  endsIn (releaseOnGhost fuel ev origin newIO newPorts newLabels w) w' ->
  sameRecord w w'.
Proof.
  intros I.
  apply (releaseOnGhost_frame sameRecord sameRecord_refl sameRecord_trans
           scaleWorkflow_record); try (intros; reflexivity).
  intros w1 S. unfold sameRecord in *.
  rewrite getBoundaryZonesXYAxes_idle; [reflexivity|]. rewrite S. exact I.
Qed.

Lemma portDragEnd_recordIdle fuel ev origin newIO newPorts newLabels w w' :
  recordIdle w ->
  endsIn (portDragEnd fuel ev origin newIO newPorts newLabels w) w' ->
  recordIdle w'.
Proof.
  intros H. unfold portDragEnd. cbv zeta.
  set (hp := orElse _ _).
  set (w0 := set_isDragging false (setPdHighlightedPort hp w)).
  assert (N : recordIdle (setDragBoundaryIntervalToDefault w0))
    by (apply setDragBoundaryIntervalToDefault_recordIdle; exact H).
  pose proof (setDragBoundaryIntervalToDefault_interval w0) as I.
  set (w1 := setDragBoundaryIntervalToDefault w0) in *.
  clearbody w1 hp. clear w0.
  intros E. eapply recordIdle_same; [|exact N].
  eapply (andThen_frame sameRecord sameRecord_trans); [| |exact E].
  - intros w2. destruct hp as [p|].
    + apply releaseOnPort_record.
    + destruct (ghostIONode w1) as [g|]; [destruct (negb (hidden g))|].
      * apply releaseOnGhost_record. exact I.
      * intros E2; ends_inv E2; reflexivity.
      * intros E2; ends_inv E2; reflexivity.
  - intros w2 w3 _ E3. ends_inv E3. reflexivity.
Qed.

Lemma fire_recordIdle t w :
  timersTracked w -> recordIdle w -> recordIdle (fire t w).
Proof.
  intros T H. pose proof (fire_keeps t w) as [_ K].
  unfold fire in *. destruct (find _ _) as [[t' tk]|] eqn:F; [|exact H].
  apply find_some in F. destruct F as [F _].
  unfold timersTracked in T.
  destruct (interval (dragBoundaryInterval w)) as [t0|] eqn:I.
  - apply (recordIdle_running _ t0). rewrite K. reflexivity.
  - apply map_eq_nil in T. rewrite T in F. destruct F.
Qed.

Lemma step_recordIdle fuel e w w' :
  timersTracked w -> recordIdle w -> endsIn (step fuel e w) w' ->
  recordIdle w'.
Proof.
  intros T H. destruct e; simpl; intros E.
  - eapply recordIdle_same; [eapply mousewheel_record; exact E | exact H].
  - ends_inv E. exact H.
  - eapply nodeDragMove_recordIdle; eassumption.
  - eapply nodeDragEnd_recordIdle; eassumption.
  - ends_inv E. exact H.
  - ends_inv E. exact H.
  - ends_inv E. exact H.
  - eapply recordIdle_same; [|exact H]. unfold sameRecord.
    revert E. unfold portDragStart. cbv zeta.
    destruct (translateMouseCoords _ _ _); intros E; ends_inv E; reflexivity.
  - eapply portDragMove_recordIdle; eassumption.
  - eapply portDragEnd_recordIdle; eassumption.
  - ends_inv E. apply fire_recordIdle; assumption.
  - eapply recordIdle_same; [eapply command_record; exact E | exact H].
  - eapply recordIdle_same; [eapply scaleWorkflow_record; exact E | exact H].
Qed.

Lemma run_recordIdle fuel es : forall w w',
  timersTracked w -> recordIdle w -> run fuel es w = Some w' -> recordIdle w'.
Proof.
  induction es as [|e tl IH]; simpl; intros w w' T H R.
  - injection R as <-. exact H.
  - destruct (step fuel e w) as [w1|w1|] eqn:S; try discriminate;
      (eapply IH; [| |exact R];
       [eapply step_tracked; [exact T|] | eapply step_recordIdle; [exact T|exact H|]]);
      first [left; exact S | right; exact S].
Qed.

(** X24.  Over every history of events the timer record holds a port only
    while it holds a timer handle; so with no boundary timer running, the
    port a release takes is the one the last move highlighted. *)
Theorem timer_record_port_needs_timer (fuel : nat) (e : Env) (w : Workflow) :
  reachable fuel e w ->
  interval (dragBoundaryInterval w) = None ->
  highlightedPort (dragBoundaryInterval w) = None /\
  releasePort w = pdHighlightedPort (portDrag w).
Proof.
  intros [es R] I.
  assert (H : recordIdle w).
  { eapply run_recordIdle; [| |exact R].
    - reflexivity.
    - intros _. reflexivity. }
  unfold releasePort. rewrite (H I). split; reflexivity.
Qed.

Lemma timer_record_port_needs_timer_witness :
  reachable 10 page dragNearB /\
  interval (dragBoundaryInterval dragNearB) = None /\
  releasePort dragNearB = pdHighlightedPort (portDrag dragNearB).
Proof.
  assert (R : reachable 10 page dragNearB)
    by (exists (twoSteps ++ firstn 2 dragOntoB); vm_compute; reflexivity).
  assert (I : interval (dragBoundaryInterval dragNearB) = None) by reflexivity.
  split; [exact R|]. split; [exact I|].
  exact (proj2 (timer_record_port_needs_timer 10 page dragNearB R I)).
Defined.
